(** * ManipTrans: the dataset core [main/dataset/base.py]

    A shallow embedding of [ManipData] (frame remapping, surface sampling,
    finite-difference kinematics, contact distances, truncation and the
    retargeted-pose loader) together with the properties its specification
    states about it.

    Conventions of the embedding:
    - tensors and arrays are lists along the time axis; a frame is a
      fixed-size record ([Vec3], [Mat3], [Mat4]) or a list (the [K] and [D]
      axes);
    - floating-point numbers are idealised as real numbers, except where
      their rounding decides whether an exception is raised (the time step
      [1 / (120 / self.skip)], see [time_delta]);
    - a Python exception is a [Raise] result, text printed with [cprint] is
      collected in a log;
    - the process-wide random generators and cuDNN flags are an explicit
      state record threaded through [random_sampling_pc]. *)

From Stdlib Require Import Reals Lra Lia ZArith List String.
From stdpp Require Import base option list gmap strings.

Local Open Scope R_scope.

(** ** Exceptions and printed output *)

Inductive exn : Type :=
  | ValueError
  | KeyError (key : string)
  | RuntimeError
  | AssertionError
  | ZeroDivisionError
  | TypeError
  | IndexError
  | AttributeError.

Inductive result (A : Type) : Type :=
  | Ok (a : A)
  | Raise (e : exn).
Arguments Ok {A} a.
Arguments Raise {A} e.

(** The lines [cprint] writes, without their wording: the too-long warning of
    [process_data] (yellow) and the three lines of the missing-artifact
    warning of [load_retargeted_data] (red). *)
Inductive message : Type :=
  | WarnTooLong (path : string) (len : nat) (cut : Z)
  | WarnDoesNotExist (path : string)
  | WarnSlowTransfer
  | WarnRunRetargeting.

(** A computation that prints and may raise: the lines printed so far and
    the outcome. Lines printed before an exception stay printed. *)
Definition IO (A : Type) : Type := (list message * result A)%type.

Definition io_ret {A} (a : A) : IO A := ([], Ok a).
Definition io_raise {A} (e : exn) : IO A := ([], Raise e).
Definition io_print (m : message) : IO unit := ([m], Ok tt).
Definition io_lift {A} (r : result A) : IO A := ([], r).
Definition io_bind {A B} (c : IO A) (k : A -> IO B) : IO B :=
  match c with
  | (out, Ok a) => let '(out', r) := k a in (out ++ out', r)
  | (out, Raise e) => (out, Raise e)
  end.

Notation "'let*' x ':=' c 'in' k" := (io_bind c (fun x => k))
  (at level 10, x pattern, c at level 100, k at level 200).

Definition result_bind {A B} (r : result A) (k : A -> result B) : result B :=
  match r with
  | Ok a => k a
  | Raise e => Raise e
  end.

Notation "'let?' x ':=' c 'in' k" := (result_bind c (fun x => k))
  (at level 10, x pattern, c at level 100, k at level 200).

Definition printed {A} (c : IO A) : list message := fst c.
Definition outcome {A} (c : IO A) : result A := snd c.

(** ** Vectors and matrices *)

Record Vec3 : Type := mkVec3 { vx : R; vy : R; vz : R }.
Record Mat3 : Type := mkMat3 { row0 : Vec3; row1 : Vec3; row2 : Vec3 }.
Record Vec4 : Type := mkVec4 { wx : R; wy : R; wz : R; ww : R }.
Record Mat4 : Type := mkMat4 { hrow0 : Vec4; hrow1 : Vec4; hrow2 : Vec4; hrow3 : Vec4 }.

Definition vzero : Vec3 := mkVec3 0 0 0.
Definition vadd (a b : Vec3) : Vec3 := mkVec3 (vx a + vx b) (vy a + vy b) (vz a + vz b).
Definition vsub (a b : Vec3) : Vec3 := mkVec3 (vx a - vx b) (vy a - vy b) (vz a - vz b).
Definition vscale (s : R) (a : Vec3) : Vec3 := mkVec3 (s * vx a) (s * vy a) (s * vz a).
Definition vmul_s (a : Vec3) (s : R) : Vec3 := mkVec3 (vx a * s) (vy a * s) (vz a * s).
Definition vdiv_s (a : Vec3) (s : R) : Vec3 := mkVec3 (vx a / s) (vy a / s) (vz a / s).
Definition vdot (a b : Vec3) : R := vx a * vx b + vy a * vy b + vz a * vz b.
(** [np.linalg.norm(_, axis=-1)] *)
Definition vnorm (a : Vec3) : R := sqrt (vdot a a).

Definition I3 : Mat3 := mkMat3 (mkVec3 1 0 0) (mkVec3 0 1 0) (mkVec3 0 0 1).
Definition col0 (m : Mat3) : Vec3 := mkVec3 (vx (row0 m)) (vx (row1 m)) (vx (row2 m)).
Definition col1 (m : Mat3) : Vec3 := mkVec3 (vy (row0 m)) (vy (row1 m)) (vy (row2 m)).
Definition col2 (m : Mat3) : Vec3 := mkVec3 (vz (row0 m)) (vz (row1 m)) (vz (row2 m)).
(** [m.transpose(-1, -2)] *)
Definition mat3_transpose (m : Mat3) : Mat3 := mkMat3 (col0 m) (col1 m) (col2 m).
(** [m @ v] for a column vector *)
Definition mat3_vec (m : Mat3) (v : Vec3) : Vec3 :=
  mkVec3 (vdot (row0 m) v) (vdot (row1 m) v) (vdot (row2 m) v).
(** [a @ b] *)
Definition mat3_mul (a b : Mat3) : Mat3 :=
  let bt := mat3_transpose b in
  mkMat3 (mat3_vec bt (row0 a)) (mat3_vec bt (row1 a)) (mat3_vec bt (row2 a)).
Definition trace3 (m : Mat3) : R := vx (row0 m) + vy (row1 m) + vz (row2 m).

Definition wdot (a b : Vec4) : R := wx a * wx b + wy a * wy b + wz a * wz b + ww a * ww b.
Definition hcol0 (m : Mat4) : Vec4 := mkVec4 (wx (hrow0 m)) (wx (hrow1 m)) (wx (hrow2 m)) (wx (hrow3 m)).
Definition hcol1 (m : Mat4) : Vec4 := mkVec4 (wy (hrow0 m)) (wy (hrow1 m)) (wy (hrow2 m)) (wy (hrow3 m)).
Definition hcol2 (m : Mat4) : Vec4 := mkVec4 (wz (hrow0 m)) (wz (hrow1 m)) (wz (hrow2 m)) (wz (hrow3 m)).
Definition hcol3 (m : Mat4) : Vec4 := mkVec4 (ww (hrow0 m)) (ww (hrow1 m)) (ww (hrow2 m)) (ww (hrow3 m)).
Definition row_mat4 (r : Vec4) (b : Mat4) : Vec4 :=
  mkVec4 (wdot r (hcol0 b)) (wdot r (hcol1 b)) (wdot r (hcol2 b)) (wdot r (hcol3 b)).
(** [a @ b] for 4×4 matrices *)
Definition mat4_mul (a b : Mat4) : Mat4 :=
  mkMat4 (row_mat4 (hrow0 a) b) (row_mat4 (hrow1 a) b) (row_mat4 (hrow2 a) b) (row_mat4 (hrow3 a) b).
Definition xyz (r : Vec4) : Vec3 := mkVec3 (wx r) (wy r) (wz r).
(** [m[:3, :3]] *)
Definition rot_block (m : Mat4) : Mat3 := mkMat3 (xyz (hrow0 m)) (xyz (hrow1 m)) (xyz (hrow2 m)).
(** [m[:3, 3]] *)
Definition transl_col (m : Mat4) : Vec3 := mkVec3 (ww (hrow0 m)) (ww (hrow1 m)) (ww (hrow2 m)).

(** ** Python and array helpers *)

(** [x[:n]] for a Python integer [n]: a negative bound counts from the end. *)
Definition py_slice_to {A} (x : list A) (n : Z) : list A :=
  if (n <? 0)%Z then take (length x - Z.to_nat (- n)) x else take (Z.to_nat n) x.
(** [x[1:]], [x[:-1]] and [x[-1:]] *)
Definition py_from1 {A} (x : list A) : list A := drop 1 x.
Definition py_to_m1 {A} (x : list A) : list A := take (length x - 1) x.
Definition py_from_m1 {A} (x : list A) : list A := drop (length x - 1) x.
(** [x[i]] for a Python integer index *)
Definition py_index {A} (x : list A) (i : Z) : result A :=
  let j := if (i <? 0)%Z then (i + Z.of_nat (length x))%Z else i in
  if (j <? 0)%Z then Raise IndexError
  else match x !! Z.to_nat j with Some a => Ok a | None => Raise IndexError end.

(** [x[:, None]] and [.squeeze(1)] on the singleton axis it made *)
Definition unsqueeze1 {A} (x : list A) : list (list A) := map (fun a => [a]) x.
Definition squeeze1 {A} (x : list (list A)) : list A := concat x.

(** A [T×3] array seen through [.T] is three rows of length [T]. *)
Record Rows3 : Type := mkRows3 { xs : list R; ys : list R; zs : list R }.
(** [p.T] for [p : T×3] *)
Definition transpose_T3 (p : list Vec3) : Rows3 := mkRows3 (map vx p) (map vy p) (map vz p).
Definition lin3 (r : Vec3) (m : Rows3) : list R :=
  zip_with (fun xy z => xy + vz r * z)
    (zip_with (fun x y => vx r * x + vy r * y) (xs m) (ys m)) (zs m).
(** [m @ c] for [m : 3×3], [c : 3×T] *)
Definition mat3_rows (m : Mat3) (c : Rows3) : Rows3 :=
  mkRows3 (lin3 (row0 m) c) (lin3 (row1 m) c) (lin3 (row2 m) c).
(** [c.T] for [c : 3×T] *)
Definition transpose_3T (c : Rows3) : list Vec3 :=
  zip_with (fun xy z => mkVec3 (fst xy) (snd xy) z) (zip (xs c) (ys c)) (zs c).
(** [(m @ p.T).T + t], the row-wise rigid map of the source *)
Definition rigid_rows (m : Mat3) (t : Vec3) (p : list Vec3) : list Vec3 :=
  map (fun v => vadd v t) (transpose_3T (mat3_rows m (transpose_T3 p))).

(** ** Element-wise arithmetic of frames (NumPy broadcasting over the
    trailing axes) *)

Class Elementwise (A : Type) : Type := {
  eadd : A -> A -> A;
  esub : A -> A -> A;
  escale : R -> A -> A;
  ediv : A -> R -> A
}.

#[global] Instance Elementwise_R : Elementwise R :=
  {| eadd := Rplus; esub := Rminus; escale := Rmult; ediv := Rdiv |}.
#[global] Instance Elementwise_Vec3 : Elementwise Vec3 :=
  {| eadd := vadd; esub := vsub; escale := vscale; ediv := vdiv_s |}.
#[global] Instance Elementwise_list {A} `{Elementwise A} : Elementwise (list A) :=
  {| eadd := zip_with eadd; esub := zip_with esub;
     escale := fun s => map (escale s); ediv := fun x s => map (fun a => ediv a s) x |}.

(** ** Rotation conversions of [main.dataset.transform] *)

(** Modelled from the spec: [rotmat_to_aa] of [main/dataset/transform.py],
    a module this file does not embed. The spec calls it the conversion of a
    rotation matrix to axis-angle, "a 3-vector rotation representation where
    direction = rotation axis, magnitude = rotation angle": the angle is
    [acos ((trace - 1) / 2)] and the axis the normalised antisymmetric part.
    The formula is the conversion for angles in [[0, pi)]. At a half turn the
    antisymmetric part vanishes and the formula gives the zero vector, where
    the conversion has magnitude [pi] and an axis whose sign the spec leaves
    open; the properties below take the conversion as the function the code
    calls and evaluate it only at the identity and at a quarter turn. *)
Definition rotmat_to_aa (m : Mat3) : Vec3 :=
  let theta := acos ((trace3 m - 1) / 2) in
  let k := theta / (2 * sin theta) in
  mkVec3 (k * (vy (row2 m) - vz (row1 m)))
         (k * (vz (row0 m) - vx (row2 m)))
         (k * (vx (row1 m) - vy (row0 m))).

(** Modelled from the spec: [aa_to_rotmat] of [main/dataset/transform.py],
    a module this file does not embed. It is the inverse conversion (the spec's
    [matrix(wrist_rot)]), by Rodrigues' formula
    [I + sin(theta) K + (1 - cos(theta)) K^2]. *)
Definition aa_to_rotmat (v : Vec3) : Mat3 :=
  let theta := vnorm v in
  let u := vdiv_s v theta in
  let s := sin theta in
  let c := 1 - cos theta in
  mkMat3
    (mkVec3 (1 - c * (vy u * vy u + vz u * vz u))
            (- s * vz u + c * (vx u * vy u))
            (s * vy u + c * (vx u * vz u)))
    (mkVec3 (s * vz u + c * (vx u * vy u))
            (1 - c * (vx u * vx u + vz u * vz u))
            (- s * vx u + c * (vy u * vz u)))
    (mkVec3 (- s * vy u + c * (vx u * vz u))
            (s * vx u + c * (vy u * vz u))
            (1 - c * (vx u * vx u + vy u * vy u))).

(** ** NumPy and SciPy operations along the time axis *)

(** [np.gradient(x, axis=0)]: one-sided differences at the two ends, central
    differences inside; fewer than two frames is a [ValueError]. *)
Definition np_gradient {A} `{Elementwise A} (x : list A) : result (list A) :=
  if (length x <? 2)%nat then Raise ValueError
  else Ok (imap (fun i xi =>
         if (i =? 0)%nat then esub (nth 1 x xi) xi
         else if (i =? length x - 1)%nat then esub xi (nth (i - 1) x xi)
         else ediv (esub (nth (i + 1) x xi) (nth (i - 1) x xi)) 2) x).

(** The kernel of [gaussian_filter1d(_, sigma)]: radius
    [int(4.0 * sigma + 0.5)], weights [exp(-0.5 / sigma^2 * k^2)] over
    [k = -radius .. radius], normalised by their sum. *)
Definition gaussian_radius (sigma : nat) : nat := 4 * sigma.
Definition gaussian_offsets (sigma : nat) : list Z :=
  map (fun k => (Z.of_nat k - Z.of_nat (gaussian_radius sigma))%Z)
      (seq 0 (2 * gaussian_radius sigma + 1)).
Definition gaussian_phi (sigma : nat) (k : Z) : R :=
  exp (- (1 / 2) / (INR sigma * INR sigma) * (IZR k * IZR k)).
Definition gaussian_norm (sigma : nat) : R :=
  fold_right Rplus 0 (map (gaussian_phi sigma) (gaussian_offsets sigma)).
Definition gaussian_weight (sigma : nat) (k : Z) : R :=
  gaussian_phi sigma k / gaussian_norm sigma.

(** [mode="nearest"]: an index outside the series reads the nearest end. *)
Definition nearest_index (len : nat) (i : Z) : nat :=
  Z.to_nat (Z.max 0 (Z.min (Z.of_nat len - 1) i)).

(** The filtered frame [i]: the weighted sum of the frames at
    [i - radius .. i + radius]. *)
Definition correlate_at {A} `{Elementwise A} (sigma : nat) (x : list A) (i : nat) (xi : A) : A :=
  let term k := escale (gaussian_weight sigma k)
                       (nth (nearest_index (length x) (Z.of_nat i + k)) x xi) in
  match gaussian_offsets sigma with
  | [] => xi
  | k0 :: ks => fold_left (fun acc k => eadd acc (term k)) ks (term k0)
  end.

(** [gaussian_filter1d(x, sigma, axis=0, mode="nearest")] *)
Definition gaussian_filter1d {A} `{Elementwise A} (x : list A) (sigma : nat) : list A :=
  imap (fun i xi => correlate_at sigma x i xi) x.

(** ** FiniteDifferenceKinematics *)

(** [ManipData.compute_velocity] *)
Definition compute_velocity {A} `{Elementwise A}
    (p : list A) (time_delta : R) (guassian_filter : bool) : result (list A) :=
  match np_gradient p with
  | Raise e => Raise e
  | Ok g =>
      let velocity := map (fun a => ediv a time_delta) g in
      let velocity := if guassian_filter then gaussian_filter1d velocity 2 else velocity in
      Ok velocity
  end.

(** The offset of the axis denominator, [1e-8]. *)
Definition axis_eps : R := 1 / 100000000.

(** The first five lines of [compute_angular_velocity]: one angular-velocity
    vector per consecutive pair of frames ([T-1] of them). *)
Definition angular_velocity_pairs (r : list (list Mat3)) (time_delta : R) : list (list Vec3) :=
  let diff_r := zip_with (zip_with (fun a b => mat3_mul a (mat3_transpose b)))
                         (py_from1 r) (py_to_m1 r) in
  let diff_aa := map (map rotmat_to_aa) diff_r in
  let diff_angle := map (map vnorm) diff_aa in
  let diff_axis := zip_with (zip_with (fun aa angle => vdiv_s aa (angle + axis_eps)))
                            diff_aa diff_angle in
  zip_with (zip_with (fun axis angle => vdiv_s (vmul_s axis angle) time_delta))
           diff_axis diff_angle.

(** [ManipData.compute_angular_velocity] *)
Definition compute_angular_velocity
    (r : list (list Mat3)) (time_delta : R) (guassian_filter : bool) : list (list Vec3) :=
  let angular_velocity := angular_velocity_pairs r time_delta in
  let angular_velocity := angular_velocity ++ py_from_m1 angular_velocity in
  if guassian_filter then gaussian_filter1d angular_velocity 2 else angular_velocity.

(** [ManipData.compute_dof_velocity] *)
Definition compute_dof_velocity
    (dof : list (list R)) (time_delta : R) (guassian_filter : bool) : result (list (list R)) :=
  match np_gradient dof with
  | Raise e => Raise e
  | Ok g =>
      let velocity := map (fun a => ediv a time_delta) g in
      let velocity := if guassian_filter then gaussian_filter1d velocity 2 else velocity in
      Ok velocity
  end.

(** The vector the source computes for one pair of consecutive frames: the
    relative rotation [next @ prev^T] as axis-angle, its axis normalised with
    the offset denominator, scaled by [angle / dt]. *)
Definition pair_angular_velocity (next prev : Mat3) (dt : R) : Vec3 :=
  let aa := rotmat_to_aa (mat3_mul next (mat3_transpose prev)) in
  let angle := vnorm aa in
  vdiv_s (vmul_s (vdiv_s aa (angle + axis_eps)) angle) dt.

(** ** SurfaceSampler *)

(** What [.squeeze(0)] returns for a batch of sampled clouds: the cloud itself
    when the batch holds one mesh, the batch unchanged otherwise. *)
Inductive Sampled : Type :=
  | Cloud (points : list Vec3)
  | CloudBatch (clouds : list (list Vec3)).

Definition squeeze0 (batch : list (list Vec3)) : Sampled :=
  match batch with
  | [c] => Cloud c
  | _ => CloudBatch batch
  end.

Section SurfaceSampler.
(** The state of one random generator, and the state each seeding function
    leaves behind ([np.random.seed], [torch.manual_seed] on the CPU
    generator, the CUDA seeding functions on one device). *)
Variable RngState : Type.
Variable np_seeded : Z -> RngState.
Variable torch_seeded : Z -> RngState.
Variable cuda_seeded : Z -> RngState.

(** The process-wide generators: NumPy's legacy generator, Torch's CPU
    generator, and one Torch generator per CUDA device. *)
Record Generators : Type := mkGenerators {
  np_random : RngState;
  torch_cpu : RngState;
  torch_cuda : list RngState
}.

Record Process : Type := mkProcess {
  generators : Generators;
  cuda_current_device : nat;
  cudnn_deterministic : bool;
  cudnn_benchmark : bool
}.

(** [pytorch3d.ops.sample_points_from_meshes(mesh, n, return_normals=False)]:
    a batch with one cloud per mesh, drawn from the generators it is given
    and leaving them advanced. *)
Variable Mesh : Type.
Variable sample_points_from_meshes :
  Mesh -> nat -> Generators -> list (list Vec3) * Generators.

Definition with_generators (g : Generators) (w : Process) : Process :=
  mkProcess g (cuda_current_device w) (cudnn_deterministic w) (cudnn_benchmark w).

(** [np.random.get_state()] and [np.random.set_state(s)] *)
Definition np_random_get_state (w : Process) : RngState := np_random (generators w).
Definition np_random_set_state (s : RngState) (w : Process) : Process :=
  with_generators (mkGenerators s (torch_cpu (generators w)) (torch_cuda (generators w))) w.
(** [torch.random.get_rng_state()] and [torch.random.set_rng_state(s)] *)
Definition torch_random_get_rng_state (w : Process) : RngState := torch_cpu (generators w).
Definition torch_random_set_rng_state (s : RngState) (w : Process) : Process :=
  with_generators (mkGenerators (np_random (generators w)) s (torch_cuda (generators w))) w.
(** [torch.cuda.get_rng_state()] and [torch.cuda.set_rng_state(s)]: the
    generator of the current device only; there is none without CUDA. *)
Definition torch_cuda_get_rng_state (w : Process) : option RngState :=
  torch_cuda (generators w) !! cuda_current_device w.
Definition torch_cuda_set_rng_state (s : RngState) (w : Process) : Process :=
  with_generators
    (mkGenerators (np_random (generators w)) (torch_cpu (generators w))
                  (<[cuda_current_device w := s]> (torch_cuda (generators w)))) w.
(** [np.random.seed(n)] *)
Definition np_random_seed (n : Z) (w : Process) : Process :=
  np_random_set_state (np_seeded n) w.
(** [torch.cuda.manual_seed_all(n)]: every CUDA device *)
Definition torch_cuda_manual_seed_all (n : Z) (w : Process) : Process :=
  with_generators
    (mkGenerators (np_random (generators w)) (torch_cpu (generators w))
                  (map (fun _ => cuda_seeded n) (torch_cuda (generators w)))) w.
(** [torch.cuda.manual_seed(n)]: the current CUDA device *)
Definition torch_cuda_manual_seed (n : Z) (w : Process) : Process :=
  torch_cuda_set_rng_state (cuda_seeded n) w.
(** [torch.manual_seed(n)]: the CPU generator and every CUDA device *)
Definition torch_manual_seed (n : Z) (w : Process) : Process :=
  torch_cuda_manual_seed_all n (torch_random_set_rng_state (torch_seeded n) w).
Definition set_cudnn_deterministic (b : bool) (w : Process) : Process :=
  mkProcess (generators w) (cuda_current_device w) b (cudnn_benchmark w).
Definition set_cudnn_benchmark (b : bool) (w : Process) : Process :=
  mkProcess (generators w) (cuda_current_device w) (cudnn_deterministic w) b.

(** [ManipData.random_sampling_pc]: the outcome and the process state it
    leaves. *)
Definition random_sampling_pc (mesh : Mesh) (w : Process) : result Sampled * Process :=
  let numpy_random_state := np_random_get_state w in
  let torch_random_state := torch_random_get_rng_state w in
  match torch_cuda_get_rng_state w with
  | None => (Raise RuntimeError, w)
  | Some torch_random_state_cuda =>
      let w := np_random_seed 0 w in
      let w := torch_manual_seed 0 w in
      let w := torch_cuda_manual_seed 0 w in
      let w := torch_cuda_manual_seed_all 0 w in
      let w := set_cudnn_deterministic true w in
      let w := set_cudnn_benchmark false w in
      let '(batch, g) := sample_points_from_meshes mesh 1000 (generators w) in
      let w := with_generators g w in
      let rs_verts_obj := squeeze0 batch in
      let w := np_random_set_state numpy_random_state w in
      let w := torch_random_set_rng_state torch_random_state w in
      let w := torch_cuda_set_rng_state torch_random_state_cuda w in
      (Ok rs_verts_obj, w)
  end.

(** The generators the draw starts from: all reseeded with 0, whatever
    they held before. *)
Definition reseeded (devices : nat) : Generators :=
  mkGenerators (np_seeded 0) (torch_seeded 0) (replicate devices (cuda_seeded 0)).

(** The contract of [sample_points_from_meshes] for one mesh: a batch of
    one cloud with the number of points asked for. *)
Definition sampler_shape : Prop :=
  forall mesh n g, exists c,
    fst (sample_points_from_meshes mesh n g) = [c] /\ length c = n.
End SurfaceSampler.

Arguments mkGenerators {RngState}.
Arguments np_random {RngState}.
Arguments torch_cpu {RngState}.
Arguments torch_cuda {RngState}.
Arguments mkProcess {RngState}.
Arguments generators {RngState}.
Arguments cuda_current_device {RngState}.
Arguments cudnn_deterministic {RngState}.
Arguments cudnn_benchmark {RngState}.
Arguments random_sampling_pc {RngState} np_seeded torch_seeded cuda_seeded {Mesh}.
Arguments reseeded {RngState} np_seeded torch_seeded cuda_seeded.
Arguments sampler_shape {RngState Mesh}.
Arguments torch_cuda_get_rng_state {RngState}.

(** ** The Sample and the dataset object *)

(** The fields the upstream loader hands to [process_data]: [wrist_rot] is
    still a series of rotation matrices. *)
Record RawSample : Type := mkRawSample {
  raw_obj_trajectory : list Mat4;
  raw_wrist_pos : list Vec3;
  raw_wrist_rot : list Mat3;
  raw_mano_joints : gmap string (list Vec3)
}.

(** The [data] dict when [process_data] returns. *)
Record Sample : Type := mkSample {
  obj_trajectory : list Mat4;
  wrist_pos : list Vec3;
  wrist_rot : list Vec3;
  mano_joints : gmap string (list Vec3);
  tips_distance : list (list R);
  obj_velocity : list Vec3;
  obj_angular_velocity : list Vec3;
  wrist_velocity : list Vec3;
  wrist_angular_velocity : list Vec3;
  mano_joints_velocity : gmap string (list Vec3)
}.

(** The three arrays of a refinement artifact, and the [data] dict when
    [load_retargeted_data] returns: the Sample with the [opt_*] keys added. *)
Record OptParams : Type := mkOptParams {
  art_opt_wrist_pos : list Vec3;
  art_opt_wrist_rot : list Vec3;
  art_opt_dof_pos : list (list R)
}.

Record Retargeted : Type := mkRetargeted {
  primary : Sample;
  opt_wrist_pos : list Vec3;
  opt_wrist_rot : list Vec3;
  opt_dof_pos : list (list R);
  opt_wrist_velocity : list Vec3;
  opt_wrist_angular_velocity : list Vec3;
  opt_dof_velocity : list (list R)
}.

(** The attributes of [self] the methods read. [dexhand] is [None] by
    default and otherwise exposes [n_dofs]; [data_pathes] is [None] until a
    subclass fills it. *)
Record ManipData : Type := mkManipData {
  skip : Z;
  max_seq_len : Z;
  mujoco2gym_transf : Mat4;
  verbose : bool;
  dexhand : option nat;
  data_pathes : option (list string)
}.

(** The magnitude of [self.skip] from which on the float [120 / self.skip]
    is zero: the quotient is then at most [2^-1075], half the smallest
    positive double, and the correctly rounded integer division of Python
    returns [0.0] (or [-0.0]). *)
Definition rate_underflow : Z := (120 * 2 ^ 1075)%Z.

(** [1 / (120 / self.skip)] for an integer [skip]. The inner division raises
    [ZeroDivisionError] when [skip] is 0; the outer one raises it when the
    inner quotient is the float zero, which is the one place where the
    rounding of floats changes the control flow and is therefore kept. For
    every other [skip] the value is the real number, as everywhere else. *)
Definition time_delta (self : ManipData) : result R :=
  if (skip self =? 0)%Z then Raise ZeroDivisionError
  else if (rate_underflow <=? Z.abs (skip self))%Z then Raise ZeroDivisionError
  else Ok (1 / (120 / IZR (skip self))).

(** ** ContactDistanceEstimator *)

Definition tip_list : list string :=
  ["thumb_tip"; "index_tip"; "middle_tip"; "ring_tip"; "pinky_tip"]%string.

(** [data["mano_joints"][t_k]] for each name: a missing joint is a [KeyError]. *)
Fixpoint lookup_joints (joints : gmap string (list Vec3)) (names : list string)
    : result (list (list Vec3)) :=
  match names with
  | [] => Ok []
  | k :: rest =>
      match joints !! k with
      | None => Raise (KeyError k)
      | Some p =>
          match lookup_joints joints rest with
          | Ok ps => Ok (p :: ps)
          | Raise e => Raise e
          end
      end
  end.

(** [torch.cat([p[:, None] for p in cols], dim=1)]: frame [t] of the result
    lists frame [t] of every column; columns of different lengths cannot be
    concatenated. *)
Fixpoint stack_dim1 (cols : list (list Vec3)) : list (list Vec3) :=
  match cols with
  | [] => []
  | [c] => unsqueeze1 c
  | c :: rest => zip_with (fun a row => a :: row) c (stack_dim1 rest)
  end.

Definition same_lengths (cols : list (list Vec3)) : bool :=
  match cols with
  | [] => true
  | c :: rest => forallb (fun c' => (length c' =? length c)%nat) rest
  end.

Definition torch_cat_dim1 (cols : list (list Vec3)) : result (list (list Vec3)) :=
  if same_lengths cols then Ok (stack_dim1 cols) else Raise RuntimeError.

Definition sq_dist (a b : Vec3) : R := vdot (vsub a b) (vsub a b).

(** The Euclidean distance between two points. *)
Definition euclidean_distance (a b : Vec3) : R := vnorm (vsub a b).

(** The smallest squared distance from [q] to a point of [cloud], scanning
    the cloud from its first point. *)
Definition nearest_sq_dist (q : Vec3) (cloud : list Vec3) : R :=
  match cloud with
  | [] => 0
  | p :: ps => fold_left (fun best p' => Rmin best (sq_dist q p')) ps (sq_dist q p)
  end.

(** The first output of [chamfer_distance.ChamferDistance()(xyz1, xyz2)]: per
    batch entry and per point of [xyz1], the squared distance to its nearest
    point of [xyz2]. The two batches must have one size. *)
Definition ch_dist (xyz1 xyz2 : list (list Vec3)) : result (list (list R)) :=
  if (length xyz1 =? length xyz2)%nat
  then Ok (zip_with (fun queries cloud => map (fun q => nearest_sq_dist q cloud) queries)
                    xyz1 xyz2)
  else Raise RuntimeError.

(** [obj_verts_transf]: the cloud carried into every frame of the trajectory. *)
Definition obj_verts_transf (traj : list Mat4) (rs_verts_obj : list Vec3) : list (list Vec3) :=
  map (fun m => rigid_rows (rot_block m) (transl_col m) rs_verts_obj) traj.

(** ** process_data, step by step *)

(** Lines 106 to 112: the frame remapping. *)
Definition remap_frames (self : ManipData) (data : RawSample)
    : list Mat4 * list Vec3 * list Vec3 * gmap string (list Vec3) :=
  let F := mujoco2gym_transf self in
  let obj := map (mat4_mul F) (raw_obj_trajectory data) in
  let wpos := rigid_rows (rot_block F) (transl_col F) (raw_wrist_pos data) in
  let wrot := map (fun m => rotmat_to_aa (mat3_mul (rot_block F) m)) (raw_wrist_rot data) in
  let joints := rigid_rows (rot_block F) (transl_col F) <$> raw_mano_joints data in
  (obj, wpos, wrot, joints).

(** Lines 114 to 127: the fingertip distances. *)
Definition compute_tips_distance (obj : list Mat4) (joints : gmap string (list Vec3))
    (rs_verts_obj : list Vec3) : result (list (list R)) :=
  let verts := obj_verts_transf obj rs_verts_obj in
  match lookup_joints joints tip_list with
  | Raise e => Raise e
  | Ok cols =>
      match torch_cat_dim1 cols with
      | Raise e => Raise e
      | Ok tips =>
          match ch_dist tips verts with
          | Raise e => Raise e
          | Ok tips_near => Ok (map (map sqrt) tips_near)
          end
      end
  end.

(** Lines 141 to 145: the loop filling [mano_joints_velocity]. *)
Definition joints_velocity (joints : gmap string (list Vec3)) (dt : R)
    : result (gmap string (list Vec3)) :=
  map_fold (fun k p acc =>
      match acc with
      | Raise e => Raise e
      | Ok vel =>
          match compute_velocity p dt true with
          | Raise e => Raise e
          | Ok v => Ok (<[k := v]> vel)
          end
      end) (Ok ∅) joints.

(** Lines 152 to 163: every per-frame field cut to [max_seq_len]. *)
Definition truncate_sample (self : ManipData) (data : Sample) : Sample :=
  let L := max_seq_len self in
  {| obj_trajectory := py_slice_to (obj_trajectory data) L;
     obj_velocity := py_slice_to (obj_velocity data) L;
     obj_angular_velocity := py_slice_to (obj_angular_velocity data) L;
     wrist_pos := py_slice_to (wrist_pos data) L;
     wrist_rot := py_slice_to (wrist_rot data) L;
     mano_joints := (fun p => py_slice_to p L) <$> mano_joints data;
     wrist_velocity := py_slice_to (wrist_velocity data) L;
     wrist_angular_velocity := py_slice_to (wrist_angular_velocity data) L;
     mano_joints_velocity := (fun p => py_slice_to p L) <$> mano_joints_velocity data;
     tips_distance := py_slice_to (tips_distance data) L |}.

(** [self.data_pathes[idx]] *)
Definition data_path (self : ManipData) (idx : Z) : result string :=
  match data_pathes self with
  | None => Raise TypeError
  | Some paths => py_index paths idx
  end.

(** Lines 106 to 145 of [process_data]: the remapped fields and the fields
    derived from them. The time step [1 / (120 / self.skip)] is the same
    expression at every call site; it is evaluated where the source evaluates
    it first. *)
Definition derive_fields (self : ManipData) (data : RawSample)
    (rs_verts_obj : list Vec3) : result Sample :=
  let '(obj, wpos, wrot, joints) := remap_frames self data in
  let? tips := compute_tips_distance obj joints rs_verts_obj in
  let? dt := time_delta self in
  let? obj_vel := compute_velocity (unsqueeze1 (map transl_col obj)) dt true in
  let obj_ang := compute_angular_velocity (unsqueeze1 (map rot_block obj)) dt true in
  let? wrist_vel := compute_velocity (unsqueeze1 wpos) dt true in
  let wrist_ang := compute_angular_velocity (map (map aa_to_rotmat) (unsqueeze1 wrot)) dt true in
  let? joints_vel := joints_velocity joints dt in
  Ok {| obj_trajectory := obj; wrist_pos := wpos; wrist_rot := wrot;
        mano_joints := joints; tips_distance := tips;
        obj_velocity := squeeze1 obj_vel;
        obj_angular_velocity := squeeze1 obj_ang;
        wrist_velocity := squeeze1 wrist_vel;
        wrist_angular_velocity := squeeze1 wrist_ang;
        mano_joints_velocity := joints_vel |}.

(** Lines 147 to 163 of [process_data]: the truncation step. *)
Definition truncate_too_long (self : ManipData) (idx : Z) (data : Sample) : IO Sample :=
  if (Z.of_nat (length (obj_trajectory data)) >? max_seq_len self)%Z then
    let* path := io_lift (data_path self idx) in
    let* _ := io_print (WarnTooLong path (length (obj_trajectory data)) (max_seq_len self)) in
    io_ret (truncate_sample self data)
  else io_ret data.

(** [ManipData.process_data] *)
Definition process_data (self : ManipData) (data : RawSample) (idx : Z)
    (rs_verts_obj : list Vec3) : IO Sample :=
  let* data := io_lift (derive_fields self data rs_verts_obj) in
  truncate_too_long self idx data.

(** Every per-frame field of a Sample, the nested ones included, has [n]
    frames. *)
Definition per_frame_length (d : Sample) (n : nat) : Prop :=
  length (obj_trajectory d) = n /\
  length (wrist_pos d) = n /\
  length (wrist_rot d) = n /\
  (forall k p, mano_joints d !! k = Some p -> length p = n) /\
  length (tips_distance d) = n /\
  length (obj_velocity d) = n /\
  length (obj_angular_velocity d) = n /\
  length (wrist_velocity d) = n /\
  length (wrist_angular_velocity d) = n /\
  (forall k v, mano_joints_velocity d !! k = Some v -> length v = n).

(** The primary per-frame fields of the raw sample share the length [n]. *)
Definition primary_length (data : RawSample) (n : nat) : Prop :=
  length (raw_obj_trajectory data) = n /\
  length (raw_wrist_pos data) = n /\
  length (raw_wrist_rot data) = n /\
  (forall k p, raw_mano_joints data !! k = Some p -> length p = n).

(** ** RetargetedPoseLoader *)

(** [torch.zeros([t, d])] *)
Definition torch_zeros (t d : nat) : list (list R) := repeat (repeat 0 d) t.

(** [self.dexhand.n_dofs] *)
Definition n_dofs (self : ManipData) : result nat :=
  match dexhand self with
  | None => Raise AttributeError
  | Some d => Ok d
  end.

(** The three red lines printed when the artifact is missing. *)
Definition warn_missing (retargeted_data_path : string) : IO unit :=
  let* _ := io_print (WarnDoesNotExist retargeted_data_path) in
  let* _ := io_print WarnSlowTransfer in
  io_print WarnRunRetargeting.

(** Lines 166 to 190: the three [opt_*] arrays, from the artifact when the
    file system [fs] holds one at the path, from the Sample otherwise. *)
Definition opt_bundle (self : ManipData) (fs : gmap string OptParams) (data : Sample)
    (retargeted_data_path : string) : IO OptParams :=
  match fs !! retargeted_data_path with
  | None =>
      let* _ := (if verbose self then warn_missing retargeted_data_path else io_ret tt) in
      let* d := io_lift (n_dofs self) in
      io_ret {| art_opt_wrist_pos := wrist_pos data;
                art_opt_wrist_rot := wrist_rot data;
                art_opt_dof_pos := torch_zeros (length (wrist_pos data)) d |}
  | Some opt_params => io_ret opt_params
  end.

(** Lines 203 to 212: the six [opt_*] fields cut to [max_seq_len]. *)
Definition truncate_opt (self : ManipData) (data : Retargeted) : Retargeted :=
  let L := max_seq_len self in
  {| primary := primary data;
     opt_wrist_pos := py_slice_to (opt_wrist_pos data) L;
     opt_wrist_rot := py_slice_to (opt_wrist_rot data) L;
     opt_wrist_velocity := py_slice_to (opt_wrist_velocity data) L;
     opt_wrist_angular_velocity := py_slice_to (opt_wrist_angular_velocity data) L;
     opt_dof_pos := py_slice_to (opt_dof_pos data) L;
     opt_dof_velocity := py_slice_to (opt_dof_velocity data) L |}.

(** Lines 166 to 212: [load_retargeted_data] up to its final assertion. *)
Definition load_retargeted_fields (self : ManipData) (fs : gmap string OptParams)
    (data : Sample) (retargeted_data_path : string) : IO Retargeted :=
  let* opt := opt_bundle self fs data retargeted_data_path in
  let* dt := io_lift (time_delta self) in
  let* vel := io_lift (compute_velocity (unsqueeze1 (art_opt_wrist_pos opt)) dt true) in
  let ang := compute_angular_velocity
               (map (map aa_to_rotmat) (unsqueeze1 (art_opt_wrist_rot opt))) dt true in
  let* dof_vel := io_lift (compute_dof_velocity (art_opt_dof_pos opt) dt true) in
  let data := {| primary := data;
                 opt_wrist_pos := art_opt_wrist_pos opt;
                 opt_wrist_rot := art_opt_wrist_rot opt;
                 opt_dof_pos := art_opt_dof_pos opt;
                 opt_wrist_velocity := squeeze1 vel;
                 opt_wrist_angular_velocity := squeeze1 ang;
                 opt_dof_velocity := dof_vel |} in
  if (Z.of_nat (length (opt_wrist_pos data)) >? max_seq_len self)%Z
  then io_ret (truncate_opt self data)
  else io_ret data.

(** Line 213: [assert len(data["opt_wrist_pos"]) == len(data["obj_trajectory"])] *)
Definition assert_same_length (data : Retargeted) : IO Retargeted :=
  if (length (opt_wrist_pos data) =? length (obj_trajectory (primary data)))%nat
  then io_ret data
  else io_raise AssertionError.

(** [ManipData.load_retargeted_data] *)
Definition load_retargeted_data (self : ManipData) (fs : gmap string OptParams)
    (data : Sample) (retargeted_data_path : string) : IO Retargeted :=
  let* data := load_retargeted_fields self fs data retargeted_data_path in
  assert_same_length data.

(** ** The constructor and the length of the dataset *)

(** [int(1e10)], the default of [max_seq_len]. *)
Definition default_max_seq_len : Z := 10000000000.

(** [ManipData.__init__], as far as the attributes the methods read go: the
    keyword arguments are stored as they come, [data_pathes] starts as
    [None], and building [transf_offset] reads [mujoco2gym_transf.device],
    which fails on the default [None]. *)
Definition init (skip : Z) (mujoco2gym_transf : option Mat4) (max_seq_len : Z)
    (dexhand : option nat) (verbose : bool) : result ManipData :=
  match mujoco2gym_transf with
  | None => Raise AttributeError
  | Some F =>
      Ok {| skip := skip; max_seq_len := max_seq_len; mujoco2gym_transf := F;
            verbose := verbose; dexhand := dexhand; data_pathes := None |}
  end.

(** [ManipData.__len__]: [len(self.data_pathes)] *)
Definition dataset_len (self : ManipData) : result nat :=
  match data_pathes self with
  | None => Raise TypeError
  | Some paths => Ok (length paths)
  end.

(** ** Series used to state the kinematic properties *)

(** A point that starts at [a] and moves by [b] every frame, over [T]
    frames. *)
Definition uniform_motion (a b : Vec3) (T : nat) : list Vec3 :=
  map (fun t => vadd a (vscale (INR t) b)) (seq 0 T).

(** A frame that element-wise arithmetic leaves alone: the zero of its
    shape. *)
Definition null_frame {A} `{Elementwise A} (z : A) : Prop :=
  eadd z z = z /\ esub z z = z /\ (forall s, escale s z = z) /\ (forall s, ediv z s = z).

(** ** Inputs for the examples *)

(** A quarter turn about the z axis, and a three-frame series that rests for
    one step and then makes that turn. *)
Definition Rz90 : Mat3 := mkMat3 (mkVec3 0 (-1) 0) (mkVec3 1 0 0) (mkVec3 0 0 1).
Definition quarter_turn_series : list (list Mat3) := [[I3]; [I3]; [Rz90]].

(** A generator state that remembers its seed and how many numbers were
    drawn since; seeding starts the count again. *)
Record CounterRng : Type := mkCounterRng { rng_seed : Z; rng_drawn : nat }.

Definition counter_seeded (n : Z) : CounterRng := mkCounterRng n 0.
Definition counter_draw (n : nat) (s : CounterRng) : CounterRng :=
  mkCounterRng (rng_seed s) (rng_drawn s + n).

(** A sampler for the examples: the mesh is one triangle held on the first
    CUDA device, every sampled point is its first corner, and the draw
    advances the generator of that device. *)
Definition Triangle : Type := (Vec3 * Vec3 * Vec3)%type.

Definition corner_sampler (mesh : Triangle) (n : nat) (g : Generators CounterRng)
    : list (list Vec3) * Generators CounterRng :=
  ([repeat (fst (fst mesh)) n],
   mkGenerators (np_random g) (torch_cpu g)
     match torch_cuda g with
     | [] => []
     | s :: others => counter_draw n s :: others
     end).

Definition unit_triangle : Triangle := (mkVec3 0 0 0, mkVec3 1 0 0, mkVec3 0 1 0).

(** A process with two CUDA devices, the first one current, in which every
    generator has already been used. *)
Definition two_gpu_process : Process CounterRng :=
  mkProcess
    (mkGenerators (mkCounterRng 11 3) (mkCounterRng 12 5)
                  [mkCounterRng 13 7; mkCounterRng 14 9])
    0 false true.

(** The same machine later on: other generator states, other flags. *)
Definition two_gpu_process_later : Process CounterRng :=
  mkProcess
    (mkGenerators (mkCounterRng 21 30) (mkCounterRng 22 50)
                  [mkCounterRng 23 70; mkCounterRng 24 90])
    0 true false.

Definition sampling_example : Process CounterRng -> result Sampled * Process CounterRng :=
  random_sampling_pc counter_seeded counter_seeded counter_seeded corner_sampler
    unit_triangle.

Definition I4 : Mat4 :=
  mkMat4 (mkVec4 1 0 0 0) (mkVec4 0 1 0 0) (mkVec4 0 0 1 0) (mkVec4 0 0 0 1).

(** Three frames of an object at rest at the origin, a hand at rest with
    its five fingertips on the x axis, and a cloud of two points. *)
Definition example_raw : RawSample :=
  let at_x (x : R) := [mkVec3 x 0 0; mkVec3 x 0 0; mkVec3 x 0 0] in
  {| raw_obj_trajectory := [I4; I4; I4];
     raw_wrist_pos := [vzero; vzero; vzero];
     raw_wrist_rot := [I3; I3; I3];
     raw_mano_joints :=
       list_to_map [("thumb_tip", at_x 1); ("index_tip", at_x 2); ("middle_tip", at_x 3);
                    ("ring_tip", at_x 4); ("pinky_tip", at_x 5)]%string |}.

Definition example_cloud : list Vec3 := [mkVec3 1 0 0; mkVec3 0 1 0].

(** A dataset object that keeps two frames of every sequence. *)
Definition example_self : ManipData :=
  {| skip := 2; max_seq_len := 2; mujoco2gym_transf := I4; verbose := true;
     dexhand := Some 4%nat; data_pathes := Some ["seq_000"%string] |}.

(** A processed two-frame sample, a dataset object that prints no warnings,
    and a path at which no artifact is stored. *)
Definition example_sample : Sample :=
  let at_x (x : R) := [mkVec3 x 0 0; mkVec3 x 0 0] in
  let joints : gmap string (list Vec3) :=
    list_to_map [("thumb_tip", at_x 1); ("index_tip", at_x 2); ("middle_tip", at_x 3);
                 ("ring_tip", at_x 4); ("pinky_tip", at_x 5)]%string in
  {| obj_trajectory := [I4; I4];
     wrist_pos := [vzero; mkVec3 1 0 0];
     wrist_rot := [vzero; vzero];
     mano_joints := joints;
     tips_distance := [[0; 1; 2; 3; 4]; [0; 1; 2; 3; 4]];
     obj_velocity := [vzero; vzero];
     obj_angular_velocity := [vzero; vzero];
     wrist_velocity := [mkVec3 60 0 0; mkVec3 60 0 0];
     wrist_angular_velocity := [vzero; vzero];
     mano_joints_velocity := (fun _ => [vzero; vzero]) <$> joints |}.

Definition quiet_self : ManipData :=
  {| skip := 2; max_seq_len := 2; mujoco2gym_transf := I4; verbose := false;
     dexhand := Some 4%nat; data_pathes := Some ["seq_000"%string] |}.

Definition missing_path : string := "retargeted/seq_000.pkl".

(** Dataset objects that differ from [example_self] in one attribute, a
    sample without joints, a sample whose index fingertip is one frame
    short, and a file system with a two-frame artifact. *)
Definition zero_skip_self : ManipData :=
  {| skip := 0; max_seq_len := 2; mujoco2gym_transf := I4; verbose := true;
     dexhand := Some 4%nat; data_pathes := Some ["seq_000"%string] |}.

(** A [skip] beyond the underflow of [120 / skip], and a sample of a single
    frame. *)
Definition huge_skip_self : ManipData :=
  {| skip := 10 ^ 400; max_seq_len := 2; mujoco2gym_transf := I4; verbose := true;
     dexhand := Some 4%nat; data_pathes := Some ["seq_000"%string] |}.

Definition example_raw_single : RawSample :=
  {| raw_obj_trajectory := [I4];
     raw_wrist_pos := [vzero];
     raw_wrist_rot := [I3];
     raw_mano_joints :=
       list_to_map [("thumb_tip", [mkVec3 1 0 0]); ("index_tip", [mkVec3 2 0 0]);
                    ("middle_tip", [mkVec3 3 0 0]); ("ring_tip", [mkVec3 4 0 0]);
                    ("pinky_tip", [mkVec3 5 0 0])]%string |}.


Definition roomy_self : ManipData :=
  {| skip := 2; max_seq_len := 10; mujoco2gym_transf := I4; verbose := true;
     dexhand := Some 4%nat; data_pathes := Some ["seq_000"%string] |}.

Definition handless_self : ManipData :=
  {| skip := 2; max_seq_len := 2; mujoco2gym_transf := I4; verbose := true;
     dexhand := None; data_pathes := Some ["seq_000"%string] |}.

Definition example_raw_no_joints : RawSample :=
  {| raw_obj_trajectory := [I4; I4; I4];
     raw_wrist_pos := [vzero; vzero; vzero];
     raw_wrist_rot := [I3; I3; I3];
     raw_mano_joints := ∅ |}.

Definition example_raw_uneven : RawSample :=
  let at_x (x : R) := [mkVec3 x 0 0; mkVec3 x 0 0; mkVec3 x 0 0] in
  {| raw_obj_trajectory := [I4; I4; I4];
     raw_wrist_pos := [vzero; vzero; vzero];
     raw_wrist_rot := [I3; I3; I3];
     raw_mano_joints :=
       list_to_map [("thumb_tip", at_x 1); ("index_tip", [mkVec3 2 0 0; mkVec3 2 0 0]);
                    ("middle_tip", at_x 3); ("ring_tip", at_x 4);
                    ("pinky_tip", at_x 5)]%string |}.

Definition example_artifact : OptParams :=
  {| art_opt_wrist_pos := [vzero; mkVec3 1 0 0];
     art_opt_wrist_rot := [vzero; vzero];
     art_opt_dof_pos := [[0; 0; 0; 0]; [1; 1; 1; 1]] |}.

Definition stored_path : string := "retargeted/seq_001.pkl".

Definition example_fs : gmap string OptParams := {[ stored_path := example_artifact ]}.

(** A process on a machine without CUDA devices. *)
Definition cpu_only_process : Process CounterRng :=
  mkProcess (mkGenerators (mkCounterRng 11 3) (mkCounterRng 12 5) []) 0 false true.

(** * Properties *)

(** ** Lists, slices and the printing monad *)

Lemma zip_with_map_map {A B C D} (f : B -> C -> D) (g : A -> B) (h : A -> C) (l : list A) :
  zip_with f (map g l) (map h l) = map (fun x => f (g x) (h x)) l.
Proof. induction l as [|x l IH]; simpl; [reflexivity | now rewrite IH]. Qed.

Lemma zip_with_map_map2 {A B C D} (f : B -> C -> D) (g : A -> B) (h : A -> C)
    (l : list (list A)) :
  zip_with (zip_with f) (map (map g) l) (map (map h) l)
  = map (map (fun x => f (g x) (h x))) l.
Proof.
  rewrite zip_with_map_map. apply map_ext. intros row. apply zip_with_map_map.
Qed.

Lemma map_zip_with {A B C D} (g : C -> D) (f : A -> B -> C) (l : list A) (k : list B) :
  map g (zip_with f l k) = zip_with (fun x y => g (f x y)) l k.
Proof. revert k. induction l as [|x l IH]; intros [|y k]; simpl; [reflexivity.. | now rewrite IH]. Qed.

Lemma map_zip_with2 {A B C D} (g : C -> D) (f : A -> B -> C)
    (l : list (list A)) (k : list (list B)) :
  map (map g) (zip_with (zip_with f) l k) = zip_with (zip_with (fun x y => g (f x y))) l k.
Proof.
  rewrite map_zip_with. revert k.
  induction l as [|x l IH]; intros [|y k]; simpl; [reflexivity.. |].
  now rewrite IH, map_zip_with.
Qed.

Lemma py_slice_to_length {A} (x : list A) (n : Z) :
  (0 <= n)%Z -> length (py_slice_to x n) = Nat.min (Z.to_nat n) (length x).
Proof.
  intros Hn. unfold py_slice_to.
  destruct (Z.ltb_spec n 0); [lia |]. apply length_take.
Qed.

Lemma py_slice_to_all {A} (x : list A) (n : Z) :
  (Z.of_nat (length x) <= n)%Z -> py_slice_to x n = x.
Proof.
  intros Hn. unfold py_slice_to.
  destruct (Z.ltb_spec n 0); [lia |]. apply take_ge. lia.
Qed.

Lemma squeeze1_unsqueeze1 {A} (x : list A) : squeeze1 (unsqueeze1 x) = x.
Proof. induction x as [|a x IH]; simpl; [reflexivity | now f_equal]. Qed.

Lemma squeeze1_length {A} (x : list (list A)) :
  Forall (fun row => length row = 1%nat) x -> length (squeeze1 x) = length x.
Proof.
  unfold squeeze1.
  induction 1 as [|row x Hrow _ IH]; simpl; [reflexivity |].
  rewrite length_app, IH, Hrow. reflexivity.
Qed.

(** ** FiniteDifferenceKinematics: shapes *)

Lemma np_gradient_Ok {A} `{Elementwise A} (x : list A) :
  (2 <= length x)%nat -> exists g, np_gradient x = Ok g /\ length g = length x.
Proof.
  intros Hx. unfold np_gradient.
  destruct (Nat.ltb_spec (length x) 2); [lia |].
  eexists. split; [reflexivity | apply length_imap].
Qed.

Lemma np_gradient_inv {A} `{Elementwise A} (x g : list A) :
  np_gradient x = Ok g -> (2 <= length x)%nat /\ length g = length x.
Proof.
  unfold np_gradient. destruct (Nat.ltb_spec (length x) 2); [discriminate |].
  intros [= <-]. split; [lia | apply length_imap].
Qed.

Lemma gaussian_filter1d_length {A} `{Elementwise A} (x : list A) (sigma : nat) :
  length (gaussian_filter1d x sigma) = length x.
Proof. apply length_imap. Qed.

Lemma compute_velocity_inv {A} `{Elementwise A} (p v : list A) (dt : R) (gf : bool) :
  compute_velocity p dt gf = Ok v -> (2 <= length p)%nat /\ length v = length p.
Proof.
  unfold compute_velocity. destruct (np_gradient p) as [g|e] eqn:Hg; [|discriminate].
  apply np_gradient_inv in Hg as [Hp Hg]. intros [= <-]. split; [exact Hp |].
  destruct gf; rewrite ?gaussian_filter1d_length, length_map; exact Hg.
Qed.

Lemma compute_velocity_Ok {A} `{Elementwise A} (p : list A) (dt : R) (gf : bool) :
  (2 <= length p)%nat -> exists v, compute_velocity p dt gf = Ok v /\ length v = length p.
Proof.
  intros Hp. unfold compute_velocity.
  destruct (np_gradient_Ok p Hp) as (g & -> & Hg).
  eexists. split; [reflexivity |].
  destruct gf; rewrite ?gaussian_filter1d_length, length_map; exact Hg.
Qed.

Lemma compute_dof_velocity_inv (dof v : list (list R)) (dt : R) (gf : bool) :
  compute_dof_velocity dof dt gf = Ok v -> (2 <= length dof)%nat /\ length v = length dof.
Proof. apply (compute_velocity_inv dof v dt gf). Qed.

Lemma compute_dof_velocity_Ok (dof : list (list R)) (dt : R) (gf : bool) :
  (2 <= length dof)%nat ->
  exists v, compute_dof_velocity dof dt gf = Ok v /\ length v = length dof.
Proof. apply (compute_velocity_Ok dof dt gf). Qed.

Lemma angular_velocity_pairs_eq (r : list (list Mat3)) (dt : R) :
  angular_velocity_pairs r dt
  = zip_with (zip_with (fun next prev => pair_angular_velocity next prev dt))
             (py_from1 r) (py_to_m1 r).
Proof.
  unfold angular_velocity_pairs.
  set (diff_r := zip_with _ (py_from1 r) (py_to_m1 r)).
  set (diff_aa := map (map rotmat_to_aa) diff_r).
  rewrite <- (map_id diff_aa) at 1.
  rewrite <- (map_ext _ _ (fun row : list Vec3 => map_id row)) at 1.
  rewrite zip_with_map_map2.
  rewrite zip_with_map_map2.
  unfold diff_aa. rewrite map_map.
  rewrite (map_ext _ _ (fun row : list Mat3 => map_map _ _ row)).
  unfold diff_r. rewrite map_zip_with2. reflexivity.
Qed.

Lemma angular_velocity_pairs_length (r : list (list Mat3)) (dt : R) :
  length (angular_velocity_pairs r dt) = (length r - 1)%nat.
Proof.
  rewrite angular_velocity_pairs_eq, length_zip_with.
  unfold py_from1, py_to_m1. rewrite length_drop, length_take. lia.
Qed.

Lemma py_from_m1_length {A} (x : list A) :
  length (py_from_m1 x) = Nat.min 1 (length x).
Proof. unfold py_from_m1. rewrite length_drop. lia. Qed.

Lemma compute_angular_velocity_length (r : list (list Mat3)) (dt : R) (gf : bool) :
  (2 <= length r)%nat -> length (compute_angular_velocity r dt gf) = length r.
Proof.
  intros Hr. unfold compute_angular_velocity.
  assert (length (angular_velocity_pairs r dt ++ py_from_m1 (angular_velocity_pairs r dt))
          = length r) as Hlen.
  { rewrite length_app, py_from_m1_length, angular_velocity_pairs_length. lia. }
  destruct gf; [rewrite gaussian_filter1d_length |]; exact Hlen.
Qed.

Lemma angular_velocity_pairs_lookup (r : list (list Mat3)) (dt : R) (t : nat)
    (prev next : list Mat3) :
  r !! t = Some prev -> r !! S t = Some next ->
  angular_velocity_pairs r dt !! t
  = Some (zip_with (fun n p => pair_angular_velocity n p dt) next prev).
Proof.
  intros Hprev Hnext.
  assert (S t < length r)%nat as Hlt by (eapply lookup_lt_Some; eassumption).
  rewrite angular_velocity_pairs_eq, lookup_zip_with.
  unfold py_from1, py_to_m1.
  rewrite lookup_drop, lookup_take_lt by lia.
  simpl. rewrite Hnext, Hprev. reflexivity.
Qed.

Lemma py_from_m1_last {A} (x : list A) (a : A) :
  last x = Some a -> py_from_m1 x = [a].
Proof.
  intros Hlast. apply last_Some in Hlast as [x' ->].
  unfold py_from_m1. rewrite length_app, drop_app_length'; simpl; [reflexivity | lia].
Qed.

Lemma repeated_last_lookup {A} (x : list A) (a : A) :
  last x = Some a ->
  (x ++ [a]) !! (length (x ++ [a]) - 1)%nat = (x ++ [a]) !! (length (x ++ [a]) - 2)%nat.
Proof.
  intros Hlast. rewrite last_lookup in Hlast.
  assert (0 < length x)%nat as Hpos.
  { apply lookup_lt_Some in Hlast. lia. }
  rewrite length_app. simpl.
  replace (length x + 1 - 1)%nat with (length x) by lia.
  replace (length x + 1 - 2)%nat with (pred (length x)) by lia.
  rewrite lookup_app_r, Nat.sub_diag by lia.
  rewrite lookup_app_l by lia. simpl. symmetry. exact Hlast.
Qed.

Lemma nth_constant {A} (x : list A) (c : A) (n : nat) :
  Forall (fun a => a = c) x -> nth n x c = c.
Proof.
  intros Hall. revert n. induction Hall as [|a x Ha _ IH]; intros [|n]; simpl; auto.
Qed.

(** Smoothing a series whose frames are all equal gives the same value at
    every frame. *)
Lemma correlate_at_constant {A} `{Elementwise A} (sigma : nat) (x : list A) (c : A)
    (i j : nat) :
  Forall (fun a => a = c) x -> correlate_at sigma x i c = correlate_at sigma x j c.
Proof.
  intros Hall. unfold correlate_at.
  destruct (gaussian_offsets sigma) as [|k0 ks]; [reflexivity |].
  rewrite !(nth_constant x c _ Hall).
  generalize (escale (gaussian_weight sigma k0) c).
  induction ks as [|k ks IH]; intros acc; simpl; [reflexivity |].
  rewrite !(nth_constant x c _ Hall). apply IH.
Qed.

Lemma gaussian_filter1d_constant {A} `{Elementwise A} (sigma : nat) (x : list A) (c : A)
    (i j : nat) :
  Forall (fun a => a = c) x -> (i < length x)%nat -> (j < length x)%nat ->
  gaussian_filter1d x sigma !! i = gaussian_filter1d x sigma !! j.
Proof.
  intros Hall Hi Hj. unfold gaussian_filter1d. rewrite !list_lookup_imap.
  destruct (lookup_lt_is_Some_2 x i Hi) as [a Ha].
  destruct (lookup_lt_is_Some_2 x j Hj) as [b Hb].
  rewrite Ha, Hb. simpl.
  rewrite (Forall_lookup_1 _ _ _ _ Hall Ha), (Forall_lookup_1 _ _ _ _ Hall Hb).
  f_equal. now apply correlate_at_constant.
Qed.

(** C3 (as amended). For a rotation series of length [T >= 2],
    [compute_angular_velocity] computes [T-1] per-pair vectors, each the
    relative rotation [r[t+1] @ r[t]^T] converted to axis-angle and scaled by
    [angle / dt], appends the last of them once more, and returns a series of
    length [T]. With [guassian_filter=False] the last returned frame equals
    the second-to-last; with [guassian_filter=True] the returned series is the
    Gaussian smoothing of the padded one, and its last two frames are equal
    when all per-pair vectors are (a constant angular rate). *)
Theorem compute_angular_velocity_last_frame_repeat
    (r : list (list Mat3)) (dt : R) (gf : bool) :
  (2 <= length r)%nat ->
  let pairs := angular_velocity_pairs r dt in
  length pairs = (length r - 1)%nat /\
  (forall t prev next, r !! t = Some prev -> r !! S t = Some next ->
     pairs !! t = Some (zip_with (fun n p => pair_angular_velocity n p dt) next prev)) /\
  (exists w, last pairs = Some w /\
     compute_angular_velocity r dt false = pairs ++ [w] /\
     compute_angular_velocity r dt true = gaussian_filter1d (pairs ++ [w]) 2) /\
  length (compute_angular_velocity r dt gf) = length r /\
  compute_angular_velocity r dt false !! (length r - 1)%nat
  = compute_angular_velocity r dt false !! (length r - 2)%nat /\
  (forall c, Forall (fun row => row = c) pairs ->
     compute_angular_velocity r dt true !! (length r - 1)%nat
     = compute_angular_velocity r dt true !! (length r - 2)%nat).
Proof.
  intros Hr pairs.
  assert (length pairs = (length r - 1)%nat) as Hlen
    by apply angular_velocity_pairs_length.
  assert (exists w, last pairs = Some w) as [w Hw].
  { apply last_is_Some. intros Hnil. rewrite Hnil in Hlen. simpl in Hlen. lia. }
  assert (compute_angular_velocity r dt false = pairs ++ [w]) as Hplain.
  { unfold compute_angular_velocity. fold pairs. now rewrite (py_from_m1_last pairs w). }
  repeat split.
  - exact Hlen.
  - intros t prev next. apply angular_velocity_pairs_lookup.
  - exists w. repeat split; [exact Hw | exact Hplain |].
    unfold compute_angular_velocity. fold pairs. now rewrite (py_from_m1_last pairs w).
  - now apply compute_angular_velocity_length.
  - rewrite Hplain.
    replace (length r) with (length (pairs ++ [w])).
    + now apply repeated_last_lookup.
    + rewrite length_app, Hlen. simpl. lia.
  - intros c Hconst. unfold compute_angular_velocity. fold pairs.
    rewrite (py_from_m1_last pairs w Hw).
    assert (w = c) as ->.
    { apply last_Some_elem_of in Hw. rewrite Forall_forall in Hconst. now apply Hconst. }
    apply (gaussian_filter1d_constant 2 (pairs ++ [c]) c).
    + apply Forall_app. split; [exact Hconst | now constructor].
    + rewrite length_app, Hlen. simpl. lia.
    + rewrite length_app, Hlen. simpl. lia.
Qed.

(** ** FiniteDifferenceKinematics: the offset denominator *)

Lemma vnorm_nonneg (a : Vec3) : 0 <= vnorm a.
Proof. apply sqrt_pos. Qed.

Lemma axis_eps_pos : 0 < axis_eps.
Proof. unfold axis_eps. lra. Qed.

Lemma vnorm_vzero : vnorm vzero = 0.
Proof.
  unfold vnorm, vdot, vzero. simpl.
  replace (0 * 0 + 0 * 0 + 0 * 0) with 0 by ring. apply sqrt_0.
Qed.

Lemma rotmat_to_aa_I3 : rotmat_to_aa I3 = vzero.
Proof. unfold rotmat_to_aa, I3, vzero. simpl. f_equal; ring. Qed.

Lemma pair_angular_velocity_identity (next prev : Mat3) (dt : R) :
  mat3_mul next (mat3_transpose prev) = I3 -> pair_angular_velocity next prev dt = vzero.
Proof.
  intros Hrel. unfold pair_angular_velocity. rewrite Hrel, rotmat_to_aa_I3, vnorm_vzero.
  unfold vdiv_s, vmul_s, vzero, Rdiv. simpl. f_equal; ring.
Qed.

(** C9. In [compute_angular_velocity] the axis of every pair of consecutive
    frames is divided by the angle magnitude plus [1e-8], a strictly positive
    number whatever the frames are; and when the relative rotation of a pair
    is exactly the identity, the angular-velocity vector of that pair is
    zero. *)
Theorem axis_denominator_positive
    (r : list (list Mat3)) (dt : R) (t k : nat)
    (prev_row next_row : list Mat3) (prev next : Mat3) :
  r !! t = Some prev_row -> r !! S t = Some next_row ->
  prev_row !! k = Some prev -> next_row !! k = Some next ->
  let aa := rotmat_to_aa (mat3_mul next (mat3_transpose prev)) in
  let angle := vnorm aa in
  0 < angle + axis_eps /\
  (angular_velocity_pairs r dt !! t) ≫= (fun row => row !! k)
  = Some (vdiv_s (vmul_s (vdiv_s aa (angle + axis_eps)) angle) dt) /\
  (mat3_mul next (mat3_transpose prev) = I3 ->
   (angular_velocity_pairs r dt !! t) ≫= (fun row => row !! k) = Some vzero).
Proof.
  intros Hprev Hnext Hp Hn aa angle.
  assert ((angular_velocity_pairs r dt !! t) ≫= (fun row => row !! k)
          = Some (pair_angular_velocity next prev dt)) as Hpair.
  { rewrite (angular_velocity_pairs_lookup r dt t prev_row next_row Hprev Hnext).
    simpl. rewrite lookup_zip_with, Hn, Hp. reflexivity. }
  split; [| split].
  - pose proof (vnorm_nonneg aa). pose proof axis_eps_pos. unfold angle. lra.
  - exact Hpair.
  - intros Hrel. rewrite Hpair. f_equal. now apply pair_angular_velocity_identity.
Qed.

(** ** Smoothing and the last-frame repeat *)

Lemma sum_pos_pos {A} (f : A -> R) (l : list A) :
  l <> [] -> (forall a, 0 < f a) -> 0 < fold_right Rplus 0 (map f l).
Proof.
  intros Hne Hf. destruct l as [|a l]; [congruence |]. clear Hne. simpl.
  assert (0 <= fold_right Rplus 0 (map f l)) as Hrest.
  { induction l as [|b l IH]; simpl; [lra |]. pose proof (Hf b). lra. }
  pose proof (Hf a). lra.
Qed.

Lemma gaussian_weight_pos (sigma : nat) (k : Z) : 0 < gaussian_weight sigma k.
Proof.
  unfold gaussian_weight, gaussian_norm. apply Rdiv_lt_0_compat.
  - apply exp_pos.
  - apply sum_pos_pos.
    + unfold gaussian_offsets. rewrite Nat.add_1_r. simpl. discriminate.
    + intros a. apply exp_pos.
Qed.

Lemma gaussian_offsets_2 :
  gaussian_offsets 2 = [-8; -7; -6; -5; -4; -3; -2; -1; 0; 1; 2; 3; 4; 5; 6; 7; 8]%Z.
Proof. reflexivity. Qed.

(** Smoothing commutes with every map of frames that respects sums and
    scalings, such as reading one coordinate or wrapping a frame in a
    singleton axis. *)
Lemma correlate_at_hom {A B} `{Elementwise A} `{Elementwise B} (phi : A -> B) :
  (forall a b, phi (eadd a b) = eadd (phi a) (phi b)) ->
  (forall s a, phi (escale s a) = escale s (phi a)) ->
  forall sigma x i xi,
    phi (correlate_at sigma x i xi) = correlate_at sigma (map phi x) i (phi xi).
Proof.
  intros Hadd Hscale sigma x i xi. unfold correlate_at.
  rewrite length_map.
  destruct (gaussian_offsets sigma) as [|k0 ks]; [reflexivity |].
  assert (forall k, phi (escale (gaussian_weight sigma k)
                            (nth (nearest_index (length x) (Z.of_nat i + k)) x xi))
                    = escale (gaussian_weight sigma k)
                        (nth (nearest_index (length x) (Z.of_nat i + k)) (map phi x) (phi xi)))
    as Hterm.
  { intros k. now rewrite Hscale, map_nth. }
  rewrite <- Hterm.
  generalize (escale (gaussian_weight sigma k0)
                (nth (nearest_index (length x) (Z.of_nat i + k0)) x xi)).
  induction ks as [|k ks IH]; intros acc; simpl; [reflexivity |].
  rewrite <- Hterm, <- Hadd. apply IH.
Qed.

Lemma gaussian_filter1d_hom {A B} `{Elementwise A} `{Elementwise B} (phi : A -> B) :
  (forall a b, phi (eadd a b) = eadd (phi a) (phi b)) ->
  (forall s a, phi (escale s a) = escale s (phi a)) ->
  forall sigma x, gaussian_filter1d (map phi x) sigma = map phi (gaussian_filter1d x sigma).
Proof.
  intros Hadd Hscale sigma x. unfold gaussian_filter1d.
  apply list_eq. intros i.
  rewrite list_lookup_fmap, !list_lookup_imap, list_lookup_fmap.
  destruct (x !! i) as [xi|]; simpl; [| reflexivity].
  now rewrite (correlate_at_hom phi Hadd Hscale).
Qed.

Lemma smoothing_breaks_repeat (beta : R) :
  beta <> 0 ->
  gaussian_filter1d [0; beta; beta] 2 !! 2%nat <> gaussian_filter1d [0; beta; beta] 2 !! 1%nat.
Proof.
  intros Hbeta. unfold gaussian_filter1d. simpl. intros [= Heq].
  unfold correlate_at in Heq. rewrite gaussian_offsets_2 in Heq.
  pose proof (gaussian_weight_pos 2 (-1)) as Hw.
  revert Hw Heq. generalize (gaussian_weight 2). intros w Hw Heq.
  simpl in Heq.
  assert (w (-1)%Z * beta = 0) as Hzero by lra.
  apply Rmult_integral in Hzero. lra.
Qed.

Lemma mat3_mul_transpose_I3 (m : Mat3) : mat3_mul m (mat3_transpose I3) = m.
Proof.
  destruct m as [[a b c] [d e f] [g h i]].
  unfold mat3_mul, mat3_transpose, mat3_vec, vdot, col0, col1, col2, I3. simpl.
  f_equal; f_equal; ring.
Qed.

Lemma rotmat_to_aa_Rz90 : rotmat_to_aa Rz90 = mkVec3 0 0 (PI / 2).
Proof.
  unfold rotmat_to_aa, Rz90, trace3. simpl.
  replace ((0 + 0 + 1 - 1) / 2) with 0 by lra.
  rewrite acos_0, sin_PI2. f_equal; lra.
Qed.

Lemma vnorm_z (z : R) : 0 <= z -> vnorm (mkVec3 0 0 z) = z.
Proof.
  intros Hz. unfold vnorm, vdot. simpl.
  replace (0 * 0 + 0 * 0 + z * z) with (z * z) by ring. now apply sqrt_square.
Qed.

Lemma quarter_turn_pairs (dt : R) :
  angular_velocity_pairs quarter_turn_series dt
  = map (fun v => [v])
      [vzero; mkVec3 0 0 (PI / 2 / (PI / 2 + axis_eps) * (PI / 2) / dt)].
Proof.
  rewrite angular_velocity_pairs_eq. unfold quarter_turn_series. simpl.
  rewrite pair_angular_velocity_identity by apply mat3_mul_transpose_I3.
  unfold pair_angular_velocity.
  rewrite mat3_mul_transpose_I3, rotmat_to_aa_Rz90, vnorm_z by (pose proof PI_RGT_0; lra).
  unfold vdiv_s, vmul_s, Rdiv. simpl.
  do 3 f_equal. f_equal; ring.
Qed.

(** C3 does not hold as stated: with the smoothing on (the default, and
    how every caller uses it), the last two returned frames of the series
    rest, rest, quarter turn differ. *)
Lemma smoothed_last_frame_differs :
  (2 <= length quarter_turn_series)%nat /\
  compute_angular_velocity quarter_turn_series (1 / 60) true
    !! (length quarter_turn_series - 1)%nat
  <> compute_angular_velocity quarter_turn_series (1 / 60) true
    !! (length quarter_turn_series - 2)%nat.
Proof.
  split; [simpl; lia |].
  unfold compute_angular_velocity. rewrite quarter_turn_pairs.
  set (beta := PI / 2 / (PI / 2 + axis_eps) * (PI / 2) / (1 / 60)).
  change (map (fun v : Vec3 => [v]) [vzero; mkVec3 0 0 beta]
          ++ py_from_m1 (map (fun v : Vec3 => [v]) [vzero; mkVec3 0 0 beta]))
    with (map (fun v : Vec3 => [v]) [vzero; mkVec3 0 0 beta; mkVec3 0 0 beta]).
  rewrite (gaussian_filter1d_hom (fun v : Vec3 => [v])) by reflexivity.
  rewrite !list_lookup_fmap.
  intros Heq.
  assert (beta <> 0) as Hbeta.
  { apply Rgt_not_eq. unfold beta. pose proof PI_RGT_0. pose proof axis_eps_pos.
    apply Rdiv_lt_0_compat; [| lra].
    apply Rmult_lt_0_compat; [| lra].
    apply Rdiv_lt_0_compat; lra. }
  apply (smoothing_breaks_repeat beta Hbeta).
  change [0; beta; beta] with (map vz [vzero; mkVec3 0 0 beta; mkVec3 0 0 beta]).
  rewrite (gaussian_filter1d_hom vz) by reflexivity.
  rewrite !list_lookup_fmap.
  simpl length in Heq. simpl Nat.sub in Heq.
  destruct (gaussian_filter1d [vzero; mkVec3 0 0 beta; mkVec3 0 0 beta] 2 !! 2%nat);
    destruct (gaussian_filter1d [vzero; mkVec3 0 0 beta; mkVec3 0 0 beta] 2 !! 1%nat);
    simpl in *; congruence.
Qed.

(** ** SurfaceSampler *)

Section SurfaceSamplerProperties.
Variable RngState : Type.
Variables np_seeded torch_seeded cuda_seeded : Z -> RngState.
Variable Mesh : Type.
Variable sample_points_from_meshes :
  Mesh -> nat -> Generators RngState -> list (list Vec3) * Generators RngState.

Local Abbreviation process := (Process RngState).
Local Abbreviation sampling :=
  (random_sampling_pc np_seeded torch_seeded cuda_seeded sample_points_from_meshes).
Local Abbreviation fresh := (reseeded np_seeded torch_seeded cuda_seeded).

Lemma map_const_replicate {A B} (b : B) (l : list A) :
  map (fun _ => b) l = replicate (length l) b.
Proof. induction l as [|a l IH]; simpl; [reflexivity | now rewrite IH]. Qed.

Lemma insert_replicate_same {A} (n i : nat) (a : A) :
  <[i := a]> (replicate n a) = replicate n a.
Proof.
  revert i. induction n as [|n IH]; intros [|i]; simpl; try reflexivity.
  now rewrite IH.
Qed.

Lemma random_sampling_pc_no_cuda (mesh : Mesh) (w : process) :
  torch_cuda_get_rng_state w = None -> sampling mesh w = (Raise RuntimeError, w).
Proof. intros Hnone. unfold random_sampling_pc. now rewrite Hnone. Qed.

Lemma random_sampling_pc_run (mesh : Mesh) (w : process) (saved : RngState) :
  torch_cuda_get_rng_state w = Some saved ->
  sampling mesh w =
    let drawn := sample_points_from_meshes mesh 1000
                   (fresh (length (torch_cuda (generators w)))) in
    (Ok (squeeze0 (fst drawn)),
     mkProcess
       (mkGenerators (np_random (generators w)) (torch_cpu (generators w))
          (<[cuda_current_device w := saved]> (torch_cuda (snd drawn))))
       (cuda_current_device w) true false).
Proof.
  intros Hsaved. unfold random_sampling_pc. rewrite Hsaved.
  destruct w as [[np cpu cuda] cur det bench].
  cbv beta iota zeta delta
    [np_random_seed torch_manual_seed torch_cuda_manual_seed
     torch_cuda_manual_seed_all torch_cuda_set_rng_state torch_random_set_rng_state
     np_random_set_state set_cudnn_deterministic set_cudnn_benchmark
     np_random_get_state torch_random_get_rng_state with_generators reseeded
     generators np_random torch_cpu torch_cuda cuda_current_device
     cudnn_deterministic cudnn_benchmark].
  rewrite !map_const_replicate, insert_replicate_same, length_replicate.
  destruct (sample_points_from_meshes mesh 1000 _) as [batch g]. reflexivity.
Qed.

(** C10. A call of [random_sampling_pc] that gets past the reading of the
    CUDA generator returns with [cudnn.deterministic] set to [True] and
    [cudnn.benchmark] set to [False], whatever the two flags were before:
    nothing restores them. *)
Theorem random_sampling_pc_sets_cudnn_flags (mesh : Mesh) (w : process) :
  is_Some (torch_cuda_get_rng_state w) ->
  exists pc w', sampling mesh w = (Ok pc, w') /\
    cudnn_deterministic w' = true /\ cudnn_benchmark w' = false.
Proof.
  intros [saved Hsaved]. rewrite (random_sampling_pc_run mesh w saved Hsaved).
  simpl. eexists _, _. split; [reflexivity |]. split; reflexivity.
Qed.

(** C7. Two calls of [random_sampling_pc] on one mesh, from any two states
    of a process with its CUDA devices, return the same cloud of exactly
    1000 points: the draw starts from generators reseeded with the constant
    0, so the cloud depends on the mesh alone. *)
Theorem random_sampling_pc_deterministic (mesh : Mesh) (w1 w2 : process) :
  sampler_shape sample_points_from_meshes ->
  is_Some (torch_cuda_get_rng_state w1) ->
  is_Some (torch_cuda_get_rng_state w2) ->
  length (torch_cuda (generators w1)) = length (torch_cuda (generators w2)) ->
  exists pc, fst (sampling mesh w1) = Ok (Cloud pc) /\
             fst (sampling mesh w2) = Ok (Cloud pc) /\
             length pc = 1000%nat.
Proof.
  intros Hshape [s1 Hs1] [s2 Hs2] Hdev.
  rewrite (random_sampling_pc_run mesh w1 s1 Hs1),
          (random_sampling_pc_run mesh w2 s2 Hs2), Hdev.
  destruct (Hshape mesh 1000%nat (fresh (length (torch_cuda (generators w2)))))
    as (c & Hc & Hlen).
  exists c. simpl. rewrite Hc. simpl. repeat split; [reflexivity.. | exact Hlen].
Qed.

(** What the call leaves in the generators: NumPy's and the CPU generator
    are put back, and so is the generator of the current CUDA device; every
    other CUDA device keeps what the draw left of its reseeded state. *)
Lemma random_sampling_pc_generators (mesh : Mesh) (w : process) (saved : RngState) :
  torch_cuda_get_rng_state w = Some saved ->
  let after := generators (snd (sampling mesh w)) in
  let drawn := snd (sample_points_from_meshes mesh 1000
                      (fresh (length (torch_cuda (generators w))))) in
  np_random after = np_random (generators w) /\
  torch_cpu after = torch_cpu (generators w) /\
  torch_cuda after = <[cuda_current_device w := saved]> (torch_cuda drawn).
Proof.
  intros Hsaved. rewrite (random_sampling_pc_run mesh w saved Hsaved). simpl.
  repeat split; reflexivity.
Qed.

(** What the call leaves on a CUDA device other than the current one does
    not depend on what that device held before: two processes that agree on
    the number of devices and on the current one come out with the same
    generator there. *)
Lemma random_sampling_pc_forgets_other_devices (mesh : Mesh) (w1 w2 : process) (j : nat) :
  is_Some (torch_cuda_get_rng_state w1) ->
  is_Some (torch_cuda_get_rng_state w2) ->
  length (torch_cuda (generators w1)) = length (torch_cuda (generators w2)) ->
  cuda_current_device w1 = cuda_current_device w2 ->
  j <> cuda_current_device w1 ->
  torch_cuda (generators (snd (sampling mesh w1))) !! j
  = torch_cuda (generators (snd (sampling mesh w2))) !! j.
Proof.
  intros [s1 Hs1] [s2 Hs2] Hdev Hcur Hj.
  destruct (random_sampling_pc_generators mesh w1 s1 Hs1) as (_ & _ & ->).
  destruct (random_sampling_pc_generators mesh w2 s2 Hs2) as (_ & _ & ->).
  rewrite <- Hcur, Hdev.
  now rewrite !list_lookup_insert_ne by congruence.
Qed.

(** With a single CUDA device, and a sampler that keeps the list of
    devices, the generators are exactly what they were. *)
Lemma random_sampling_pc_restores_single_device (mesh : Mesh) (w : process) :
  (forall m n g, length (torch_cuda (snd (sample_points_from_meshes m n g)))
                 = length (torch_cuda g)) ->
  length (torch_cuda (generators w)) = 1%nat ->
  cuda_current_device w = 0%nat ->
  generators (snd (sampling mesh w)) = generators w.
Proof.
  intros Hkeep Hone Hcur.
  destruct w as [[np cpu cuda] cur det bench]. simpl in *. subst cur.
  destruct cuda as [|s [|? ?]]; try discriminate.
  rewrite (random_sampling_pc_run mesh _ s) by reflexivity. simpl.
  specialize (Hkeep mesh 1000%nat (fresh 1)).
  destruct (torch_cuda (snd (sample_points_from_meshes mesh 1000 (fresh 1))))
    as [|s' [|? ?]]; try discriminate. reflexivity.
Qed.
End SurfaceSamplerProperties.

(** ** RigidFrameTransformer *)

(** The transposed product of the source is the rigid map applied to every
    row. *)
Lemma rigid_rows_map (m : Mat3) (t : Vec3) (p : list Vec3) :
  rigid_rows m t p = map (fun v => vadd (mat3_vec m v) t) p.
Proof.
  unfold rigid_rows, transpose_3T, mat3_rows, lin3, transpose_T3. simpl.
  induction p as [|v p IH]; simpl; [reflexivity |].
  rewrite IH. reflexivity.
Qed.

Lemma rigid_rows_length (m : Mat3) (t : Vec3) (p : list Vec3) :
  length (rigid_rows m t p) = length p.
Proof. rewrite rigid_rows_map. apply length_map. Qed.

Lemma rigid_rows_lookup (m : Mat3) (t : Vec3) (p : list Vec3) (i : nat) :
  rigid_rows m t p !! i = (fun v => vadd (mat3_vec m v) t) <$> p !! i.
Proof. rewrite rigid_rows_map. apply list_lookup_fmap. Qed.

(** C8. With [F] the fixed transform, [R] its rotation block and [p] its
    translation column, the remapping step replaces every frame of
    [obj_trajectory] by the 4×4 product [F @ obj_trajectory[t]], every frame
    of [wrist_pos] by [R @ wrist_pos[t] + p], and every frame of every
    [mano_joints[k]] by the same rotate-and-translate map; the keys of
    [mano_joints] and all lengths stay as they were. *)
Theorem remap_frames_rigid (self : ManipData) (data : RawSample) :
  let F := mujoco2gym_transf self in
  let rigid := fun v => vadd (mat3_vec (rot_block F) v) (transl_col F) in
  let '(obj, wpos, _, joints) := remap_frames self data in
  (forall t, obj !! t = mat4_mul F <$> raw_obj_trajectory data !! t) /\
  (forall t, wpos !! t = rigid <$> raw_wrist_pos data !! t) /\
  (forall k t, (joints !! k) ≫= (fun p => p !! t)
               = rigid <$> ((raw_mano_joints data !! k) ≫= (fun p => p !! t))) /\
  (forall k, is_Some (joints !! k) <-> is_Some (raw_mano_joints data !! k)).
Proof.
  unfold remap_frames. simpl. repeat split.
  - intros t. apply list_lookup_fmap.
  - intros t. apply rigid_rows_lookup.
  - intros k t. rewrite lookup_fmap.
    destruct (raw_mano_joints data !! k) as [p|]; simpl; [| reflexivity].
    apply rigid_rows_lookup.
  - rewrite lookup_fmap, fmap_is_Some. tauto.
  - rewrite lookup_fmap, fmap_is_Some. tauto.
Qed.

(** ** ContactDistanceEstimator *)

Lemma sq_dist_nonneg (a b : Vec3) : 0 <= sq_dist a b.
Proof.
  unfold sq_dist, vdot. simpl.
  pose proof (Rle_0_sqr (vx a - vx b)). pose proof (Rle_0_sqr (vy a - vy b)).
  pose proof (Rle_0_sqr (vz a - vz b)). unfold Rsqr in *. lra.
Qed.

Lemma sq_dist_same (a : Vec3) : sq_dist a a = 0.
Proof. unfold sq_dist, vdot. simpl. ring. Qed.

Lemma fold_min_le_init (f : Vec3 -> R) (ps : list Vec3) (init : R) :
  fold_left (fun best p => Rmin best (f p)) ps init <= init.
Proof.
  revert init. induction ps as [|p ps IH]; intros init; simpl; [lra |].
  etransitivity; [apply IH | apply Rmin_l].
Qed.

Lemma fold_min_le_elem (f : Vec3 -> R) (ps : list Vec3) (init : R) (p : Vec3) :
  In p ps -> fold_left (fun best p => Rmin best (f p)) ps init <= f p.
Proof.
  revert init. induction ps as [|p' ps IH]; intros init Hin; simpl; [destruct Hin |].
  destruct Hin as [-> | Hin].
  - etransitivity; [apply fold_min_le_init | apply Rmin_r].
  - now apply IH.
Qed.

Lemma fold_min_attained (f : Vec3 -> R) (ps : list Vec3) (init : R) :
  fold_left (fun best p => Rmin best (f p)) ps init = init \/
  exists p, In p ps /\ fold_left (fun best p => Rmin best (f p)) ps init = f p.
Proof.
  revert init. induction ps as [|p' ps IH]; intros init; simpl; [now left |].
  destruct (IH (Rmin init (f p'))) as [Heq | (p & Hin & Heq)].
  - rewrite Heq. unfold Rmin. destruct (Rle_dec init (f p')); [now left |].
    right. exists p'. split; [now left | reflexivity].
  - right. exists p. split; [now right | exact Heq].
Qed.

Lemma nearest_sq_dist_le (q p : Vec3) (cloud : list Vec3) :
  In p cloud -> nearest_sq_dist q cloud <= sq_dist q p.
Proof.
  destruct cloud as [|p0 ps]; intros Hin; [destruct Hin |]. simpl.
  destruct Hin as [-> | Hin]; [apply fold_min_le_init | now apply fold_min_le_elem].
Qed.

Lemma nearest_sq_dist_attained (q : Vec3) (cloud : list Vec3) :
  cloud <> [] -> exists p, In p cloud /\ nearest_sq_dist q cloud = sq_dist q p.
Proof.
  destruct cloud as [|p0 ps]; intros Hne; [congruence |]. simpl.
  destruct (fold_min_attained (sq_dist q) ps (sq_dist q p0)) as [Heq | (p & Hin & Heq)].
  - exists p0. split; [now left | exact Heq].
  - exists p. split; [now right | exact Heq].
Qed.

Lemma nearest_sq_dist_nonneg (q : Vec3) (cloud : list Vec3) :
  0 <= nearest_sq_dist q cloud.
Proof.
  destruct cloud as [|p0 ps]; [simpl; lra |].
  destruct (nearest_sq_dist_attained q (p0 :: ps)) as (p & _ & ->); [discriminate |].
  apply sq_dist_nonneg.
Qed.

Lemma nearest_sq_dist_coincide (q : Vec3) (cloud : list Vec3) :
  In q cloud -> nearest_sq_dist q cloud = 0.
Proof.
  intros Hin. apply Rle_antisym; [| apply nearest_sq_dist_nonneg].
  rewrite <- (sq_dist_same q). now apply nearest_sq_dist_le.
Qed.

Lemma lookup_joints_inv (joints : gmap string (list Vec3)) (names : list string)
    (cols : list (list Vec3)) :
  lookup_joints joints names = Ok cols ->
  Forall2 (fun name col => joints !! name = Some col) names cols.
Proof.
  revert cols. induction names as [|k rest IH]; intros cols; simpl.
  - intros [= <-]. constructor.
  - destruct (joints !! k) as [p|] eqn:Hk; [| discriminate].
    destruct (lookup_joints joints rest) as [ps|e]; [| discriminate].
    intros [= <-]. constructor; [exact Hk | now apply IH].
Qed.

Lemma lookup_joints_Ok (joints : gmap string (list Vec3)) (names : list string) :
  Forall (fun name => is_Some (joints !! name)) names ->
  exists cols, lookup_joints joints names = Ok cols.
Proof.
  induction 1 as [|k rest [p Hk] _ [cols IH]]; simpl; [now eexists |].
  rewrite Hk, IH. now eexists.
Qed.

Lemma same_lengths_inv (c : list Vec3) (rest : list (list Vec3)) :
  same_lengths (c :: rest) = true -> Forall (fun c' => length c' = length c) (c :: rest).
Proof.
  simpl. intros Hall. constructor; [reflexivity |].
  apply Forall_forall. intros c' Hin.
  rewrite forallb_forall in Hall. apply Nat.eqb_eq, Hall.
  now apply list_elem_of_In.
Qed.

Lemma stack_dim1_length (cols : list (list Vec3)) (n : nat) :
  cols <> [] -> Forall (fun c => length c = n) cols -> length (stack_dim1 cols) = n.
Proof.
  intros Hne Hall. induction Hall as [|c rest Hc Hrest IH]; [congruence |].
  destruct rest as [|c' rest'].
  - simpl. unfold unsqueeze1. now rewrite length_map.
  - change (stack_dim1 (c :: c' :: rest'))
      with (zip_with (fun a row => a :: row) c (stack_dim1 (c' :: rest'))).
    rewrite length_zip_with, IH by discriminate. lia.
Qed.

(** Frame [t] of the stacked tips lists frame [t] of every column. *)
Lemma stack_dim1_lookup (cols : list (list Vec3)) (n t : nat) :
  cols <> [] -> Forall (fun c => length c = n) cols -> (t < n)%nat ->
  exists row, stack_dim1 cols !! t = Some row /\
              Forall2 (fun c x => c !! t = Some x) cols row.
Proof.
  intros Hne Hall Ht. induction Hall as [|c rest Hc Hrest IH]; [congruence |].
  destruct (lookup_lt_is_Some_2 c t) as [x Hx]; [lia |].
  destruct rest as [|c' rest'].
  - exists [x]. simpl. unfold unsqueeze1. rewrite list_lookup_fmap, Hx.
    split; [reflexivity | repeat constructor; exact Hx].
  - destruct IH as (row & Hrow & Hall2); [discriminate |].
    exists (x :: row).
    change (stack_dim1 (c :: c' :: rest'))
      with (zip_with (fun a row => a :: row) c (stack_dim1 (c' :: rest'))).
    rewrite lookup_zip_with, Hx, Hrow. simpl.
    split; [reflexivity | constructor; [exact Hx | exact Hall2]].
Qed.

Lemma obj_verts_transf_lookup (traj : list Mat4) (cloud : list Vec3) (t : nat) :
  obj_verts_transf traj cloud !! t
  = (fun m => map (fun p => vadd (mat3_vec (rot_block m) p) (transl_col m)) cloud)
      <$> traj !! t.
Proof.
  unfold obj_verts_transf. rewrite list_lookup_fmap.
  destruct (traj !! t); simpl; [| reflexivity]. now rewrite rigid_rows_map.
Qed.

(** What [compute_tips_distance] stores for frame [t] and fingertip [q]: the
    square root of the smallest squared distance from that fingertip to the
    cloud carried into frame [t]. *)
Lemma compute_tips_distance_lookup (obj : list Mat4) (joints : gmap string (list Vec3))
    (cloud : list Vec3) (tips : list (list R)) :
  compute_tips_distance obj joints cloud = Ok tips ->
  length tips = length obj /\
  forall t q M name, obj !! t = Some M -> tip_list !! q = Some name ->
    exists ps tip, joints !! name = Some ps /\ ps !! t = Some tip /\
      length ps = length obj /\
      (tips !! t) ≫= (fun row => row !! q)
      = Some (sqrt (nearest_sq_dist tip
                (map (fun p => vadd (mat3_vec (rot_block M) p) (transl_col M)) cloud))).
Proof.
  unfold compute_tips_distance.
  destruct (lookup_joints joints tip_list) as [cols|e] eqn:Hcols; [| discriminate].
  apply lookup_joints_inv in Hcols.
  unfold torch_cat_dim1. destruct (same_lengths cols) eqn:Hsame; [| discriminate].
  unfold ch_dist. destruct (Nat.eqb_spec (length (stack_dim1 cols))
                              (length (obj_verts_transf obj cloud))) as [Hlen|]; [| discriminate].
  intros [= <-].
  assert (cols <> []) as Hne.
  { intros ->. apply Forall2_length in Hcols. discriminate. }
  destruct cols as [|c rest]; [congruence |].
  apply same_lengths_inv in Hsame.
  rewrite (stack_dim1_length _ (length c) Hne Hsame) in Hlen.
  unfold obj_verts_transf in Hlen. rewrite length_map in Hlen.
  split.
  - rewrite length_map, length_zip_with, (stack_dim1_length _ (length c) Hne Hsame).
    unfold obj_verts_transf. rewrite length_map. lia.
  - intros t q M name HM Hname.
    assert (t < length c)%nat as Ht by (rewrite Hlen; eapply lookup_lt_Some; eassumption).
    destruct (stack_dim1_lookup _ (length c) t Hne Hsame Ht) as (row & Hrow & Hall).
    destruct (Forall2_lookup_l _ _ _ _ _ Hcols Hname) as (ps & Hps & Hjoint).
    destruct (Forall2_lookup_l _ _ _ _ _ Hall Hps) as (tip & Htip & Hframe).
    exists ps, tip. split; [exact Hjoint |]. split; [exact Hframe |].
    split.
    { rewrite <- Hlen. eapply (Forall_lookup_1 _ _ _ _ Hsame). exact Hps. }
    rewrite list_lookup_fmap, lookup_zip_with, Hrow, obj_verts_transf_lookup, HM.
    simpl. rewrite !list_lookup_fmap, Htip. reflexivity.
Qed.

Lemma compute_tips_distance_nonneg (obj : list Mat4) (joints : gmap string (list Vec3))
    (cloud : list Vec3) (tips : list (list R)) :
  compute_tips_distance obj joints cloud = Ok tips ->
  Forall (Forall (fun dist => 0 <= dist)) tips.
Proof.
  unfold compute_tips_distance.
  destruct (lookup_joints joints tip_list); [| discriminate].
  destruct (torch_cat_dim1 _); [| discriminate].
  destruct (ch_dist _ _) as [near|]; [| discriminate]. intros [= <-].
  apply Forall_forall. intros row Hrow.
  apply list_elem_of_In, in_map_iff in Hrow as (row0 & <- & _).
  apply Forall_forall. intros dist Hdist.
  apply list_elem_of_In, in_map_iff in Hdist as (x & <- & _). apply sqrt_pos.
Qed.

(** ** process_data: its steps and the shape of its result *)

Lemma derive_fields_inv (self : ManipData) (data : RawSample) (cloud : list Vec3)
    (pre : Sample) :
  derive_fields self data cloud = Ok pre ->
  let '(obj, wpos, wrot, joints) := remap_frames self data in
  exists dt obj_vel wrist_vel,
    time_delta self = Ok dt /\
    compute_tips_distance obj joints cloud = Ok (tips_distance pre) /\
    compute_velocity (unsqueeze1 (map transl_col obj)) dt true = Ok obj_vel /\
    compute_velocity (unsqueeze1 wpos) dt true = Ok wrist_vel /\
    joints_velocity joints dt = Ok (mano_joints_velocity pre) /\
    obj_trajectory pre = obj /\ wrist_pos pre = wpos /\ wrist_rot pre = wrot /\
    mano_joints pre = joints /\
    obj_velocity pre = squeeze1 obj_vel /\
    obj_angular_velocity pre
    = squeeze1 (compute_angular_velocity (unsqueeze1 (map rot_block obj)) dt true) /\
    wrist_velocity pre = squeeze1 wrist_vel /\
    wrist_angular_velocity pre
    = squeeze1 (compute_angular_velocity
                  (map (map aa_to_rotmat) (unsqueeze1 wrot)) dt true).
Proof.
  unfold derive_fields. destruct (remap_frames self data) as [[[obj wpos] wrot] joints].
  destruct (compute_tips_distance obj joints cloud) as [tips|] eqn:Htips; [| discriminate].
  destruct (time_delta self) as [dt|]; [| discriminate]. simpl.
  destruct (compute_velocity (unsqueeze1 (map transl_col obj)) dt true) as [ov|] eqn:Hov;
    [| discriminate]. simpl.
  destruct (compute_velocity (unsqueeze1 wpos) dt true) as [wv|] eqn:Hwv; [| discriminate].
  simpl.
  destruct (joints_velocity joints dt) as [jv|] eqn:Hjv; [| discriminate]. simpl.
  intros [= <-]. exists dt, ov, wv. simpl. repeat split; solve [reflexivity | assumption].
Qed.

Lemma process_data_inv (self : ManipData) (data : RawSample) (idx : Z)
    (cloud : list Vec3) (out : list message) (d : Sample) :
  process_data self data idx cloud = (out, Ok d) ->
  exists pre, derive_fields self data cloud = Ok pre /\
    (((Z.of_nat (length (obj_trajectory pre)) <= max_seq_len self)%Z /\ d = pre) \/
     ((Z.of_nat (length (obj_trajectory pre)) > max_seq_len self)%Z /\
      d = truncate_sample self pre)).
Proof.
  unfold process_data, io_bind, io_lift.
  destruct (derive_fields self data cloud) as [pre|]; [| discriminate].
  unfold truncate_too_long.
  destruct (Z.gtb_spec (Z.of_nat (length (obj_trajectory pre))) (max_seq_len self)).
  - unfold io_bind, io_lift. destruct (data_path self idx); simpl; [| discriminate].
    intros [= _ <-]. exists pre. split; [reflexivity |]. right. split; [lia | reflexivity].
  - simpl. intros [= _ <-]. exists pre. split; [reflexivity |]. left. split; [lia | reflexivity].
Qed.

Lemma py_slice_to_lookup {A} (x : list A) (n : Z) (t : nat) (a : A) :
  py_slice_to x n !! t = Some a -> x !! t = Some a.
Proof.
  unfold py_slice_to. destruct (n <? 0)%Z; intros H%lookup_take_Some; tauto.
Qed.

Lemma py_slice_to_lookup_keep {A B} (x : list A) (y : list B) (n : Z) (t : nat) (a : A) :
  length x = length y -> py_slice_to x n !! t = Some a -> py_slice_to y n !! t = y !! t.
Proof.
  unfold py_slice_to. intros Hlen.
  destruct (n <? 0)%Z; intros [_ Ht]%lookup_take_Some;
    apply lookup_take_lt; rewrite <- ?Hlen; exact Ht.
Qed.

Lemma py_slice_to_same_length {A B} (x : list A) (y : list B) (n : Z) :
  length x = length y -> length (py_slice_to x n) = length (py_slice_to y n).
Proof.
  intros Hlen. unfold py_slice_to. destruct (n <? 0)%Z; rewrite !length_take, Hlen; reflexivity.
Qed.

(** Frame [t] of the input, fingertip [q]: what lines 106 to 127 store for
    them, in terms of the input pose and the input joint position. *)
Lemma derive_fields_tips (self : ManipData) (data : RawSample) (cloud : list Vec3)
    (pre : Sample) :
  derive_fields self data cloud = Ok pre ->
  let F := mujoco2gym_transf self in
  obj_trajectory pre = map (mat4_mul F) (raw_obj_trajectory data) /\
  mano_joints pre = rigid_rows (rot_block F) (transl_col F) <$> raw_mano_joints data /\
  length (tips_distance pre) = length (raw_obj_trajectory data) /\
  Forall (Forall (fun dist => 0 <= dist)) (tips_distance pre) /\
  forall t q M0 name,
    raw_obj_trajectory data !! t = Some M0 -> tip_list !! q = Some name ->
    exists ps0 tip0, raw_mano_joints data !! name = Some ps0 /\ ps0 !! t = Some tip0 /\
      length ps0 = length (raw_obj_trajectory data) /\
      let M := mat4_mul F M0 in
      (tips_distance pre !! t) ≫= (fun row => row !! q)
      = Some (sqrt (nearest_sq_dist (vadd (mat3_vec (rot_block F) tip0) (transl_col F))
                (map (fun p => vadd (mat3_vec (rot_block M) p) (transl_col M)) cloud))).
Proof.
  intros Hpre F.
  pose proof (derive_fields_inv self data cloud pre Hpre) as Hinv.
  unfold remap_frames in Hinv. fold F in Hinv.
  destruct Hinv as (dt & ov & wv & _ & Htips & _ & _ & _ & Hobj & _ & _ & Hjoints & _).
  pose proof (compute_tips_distance_nonneg _ _ _ _ Htips) as Hnonneg.
  apply compute_tips_distance_lookup in Htips as [Hlen Hlookup].
  rewrite length_map in Hlen.
  split; [exact Hobj |]. split; [exact Hjoints |]. split; [exact Hlen |].
  split; [exact Hnonneg |].
  intros t q M0 name HM Hname.
  destruct (Hlookup t q (mat4_mul F M0) name) as (ps & tip & Hps & Htip & Hpslen & Hdist);
    [rewrite list_lookup_fmap, HM; reflexivity | exact Hname |].
  rewrite lookup_fmap in Hps. apply fmap_Some in Hps as (ps0 & Hps0 & ->).
  rewrite rigid_rows_length, length_map in Hpslen.
  rewrite rigid_rows_map, list_lookup_fmap in Htip.
  apply fmap_Some in Htip as (tip0 & Htip0 & ->).
  exists ps0, tip0. repeat split; assumption.
Qed.

(** C6. On every returning call [process_data] keeps the frames
    [obj_trajectory[:max_seq_len]] of its input (all of them when the
    sequence is not too long), and [tips_distance] has one row for each of
    them. For every such input frame [t], with pose [M0], and every one of
    the five fingertips [q], with input position [tip0]: the returned pose is
    [F @ M0], the returned fingertip is [R tip0 + p], and
    [tips_distance[t][q]] is the square root of the smallest squared distance
    from that fingertip to the cloud carried into frame [t] by the returned
    pose, that is the Euclidean distance to the nearest cloud point: it is at
    most the distance to every cloud point and equals the distance to one of
    them; every entry is [>= 0], and it is [0] when the fingertip coincides
    with a cloud point. *)
Theorem tips_distance_is_nearest_distance (self : ManipData) (data : RawSample) (idx : Z)
    (cloud : list Vec3) (out : list message) (d : Sample) :
  process_data self data idx cloud = (out, Ok d) ->
  let F := mujoco2gym_transf self in
  let kept := py_slice_to (raw_obj_trajectory data) (max_seq_len self) in
  length (tips_distance d) = length kept /\
  Forall (Forall (fun dist => 0 <= dist)) (tips_distance d) /\
  forall t q M0 name, kept !! t = Some M0 -> tip_list !! q = Some name ->
    exists ps0 tip0, raw_mano_joints data !! name = Some ps0 /\ ps0 !! t = Some tip0 /\
      let M := mat4_mul F M0 in
      let tip := vadd (mat3_vec (rot_block F) tip0) (transl_col F) in
      let cloud_t := map (fun p => vadd (mat3_vec (rot_block M) p) (transl_col M)) cloud in
      let dist := sqrt (nearest_sq_dist tip cloud_t) in
      obj_trajectory d !! t = Some M /\
      (mano_joints d !! name) ≫= (fun ps => ps !! t) = Some tip /\
      (tips_distance d !! t) ≫= (fun row => row !! q) = Some dist /\
      (forall p, In p cloud_t -> dist <= euclidean_distance tip p) /\
      (cloud <> [] -> exists p, In p cloud_t /\ dist = euclidean_distance tip p) /\
      (In tip cloud_t -> dist = 0).
Proof.
  intros Hrun F kept. apply process_data_inv in Hrun as (pre & Hpre & Hd).
  change euclidean_distance with (fun a b => sqrt (sq_dist a b)). cbv beta.
  destruct (derive_fields_tips self data cloud pre Hpre)
    as (Hobj & Hjoints & Hlen & Hnonneg & Hlookup).
  fold F in Hobj, Hjoints, Hlookup.
  assert (forall tip cloud_t,
    (forall p, In p cloud_t -> sqrt (nearest_sq_dist tip cloud_t) <= sqrt (sq_dist tip p)) /\
    (cloud_t <> [] -> exists p, In p cloud_t /\
        sqrt (nearest_sq_dist tip cloud_t) = sqrt (sq_dist tip p)) /\
    (In tip cloud_t -> sqrt (nearest_sq_dist tip cloud_t) = 0)) as Hnearest.
  { intros tip cloud_t. repeat split.
    - intros p Hin. apply sqrt_le_1_alt. now apply nearest_sq_dist_le.
    - intros Hne. destruct (nearest_sq_dist_attained tip cloud_t Hne) as (p & Hin & Heq).
      exists p. split; [exact Hin | now rewrite Heq].
    - intros Hin. rewrite nearest_sq_dist_coincide by exact Hin. apply sqrt_0. }
  assert (forall M, cloud <> [] ->
    map (fun p => vadd (mat3_vec (rot_block M) p) (transl_col M)) cloud <> []) as Hcloud.
  { intros M Hne Hnil. apply map_eq_nil in Hnil. congruence. }
  assert (forall t M0, kept !! t = Some M0 -> raw_obj_trajectory data !! t = Some M0)
    as Hkept by (intros t M0; apply py_slice_to_lookup).
  assert (forall t q M0 name, kept !! t = Some M0 -> tip_list !! q = Some name ->
    exists ps0 tip0, raw_mano_joints data !! name = Some ps0 /\ ps0 !! t = Some tip0 /\
      length ps0 = length (raw_obj_trajectory data) /\
      obj_trajectory pre !! t = Some (mat4_mul F M0) /\
      (mano_joints pre !! name) ≫= (fun ps => ps !! t)
      = Some (vadd (mat3_vec (rot_block F) tip0) (transl_col F)) /\
      (tips_distance pre !! t) ≫= (fun row => row !! q)
      = Some (sqrt (nearest_sq_dist (vadd (mat3_vec (rot_block F) tip0) (transl_col F))
                (map (fun p => vadd (mat3_vec (rot_block (mat4_mul F M0)) p)
                                    (transl_col (mat4_mul F M0))) cloud)))) as Hpreframe.
  { intros t q M0 name HM Hname.
    destruct (Hlookup t q M0 name (Hkept t M0 HM) Hname)
      as (ps0 & tip0 & Hps0 & Htip0 & Hpslen & Hdist).
    exists ps0, tip0. split; [exact Hps0 |]. split; [exact Htip0 |].
    split; [exact Hpslen |]. split; [| split; [| exact Hdist]].
    - rewrite Hobj, list_lookup_fmap, (Hkept t M0 HM). reflexivity.
    - rewrite Hjoints, lookup_fmap, Hps0. simpl.
      rewrite rigid_rows_map, list_lookup_fmap, Htip0. reflexivity. }
  assert (forall t q M0 name, kept !! t = Some M0 -> tip_list !! q = Some name ->
    exists ps0 tip0, raw_mano_joints data !! name = Some ps0 /\ ps0 !! t = Some tip0 /\
      obj_trajectory d !! t = Some (mat4_mul F M0) /\
      (mano_joints d !! name) ≫= (fun ps => ps !! t)
      = Some (vadd (mat3_vec (rot_block F) tip0) (transl_col F)) /\
      (tips_distance d !! t) ≫= (fun row => row !! q)
      = Some (sqrt (nearest_sq_dist (vadd (mat3_vec (rot_block F) tip0) (transl_col F))
                (map (fun p => vadd (mat3_vec (rot_block (mat4_mul F M0)) p)
                                    (transl_col (mat4_mul F M0))) cloud)))) as Hframe.
  { intros t q M0 name HM Hname.
    destruct (Hpreframe t q M0 name HM Hname)
      as (ps0 & tip0 & Hps0 & Htip0 & Hpslen & HobjT & Hjoint & Hdist).
    exists ps0, tip0. split; [exact Hps0 |]. split; [exact Htip0 |].
    destruct Hd as [[_ ->] | [_ ->]]; [now repeat split |]. simpl.
    assert (forall B (y : list B), length y = length (raw_obj_trajectory data) ->
              py_slice_to y (max_seq_len self) !! t = y !! t) as Hcut.
    { intros B y Hy.
      apply (py_slice_to_lookup_keep (raw_obj_trajectory data) y _ t M0);
        [now rewrite Hy | exact HM]. }
    split; [| split].
    - rewrite Hcut; [exact HobjT |]. now rewrite Hobj, length_map.
    - rewrite lookup_fmap. rewrite Hjoints, lookup_fmap, Hps0 in Hjoint |- *. simpl in *.
      rewrite Hcut; [exact Hjoint |]. now rewrite rigid_rows_length.
    - rewrite Hcut; [exact Hdist | exact Hlen]. }
  split; [| split].
  - destruct Hd as [[Hfit ->] | [_ ->]].
    + unfold kept. rewrite py_slice_to_all; [exact Hlen |].
      rewrite Hobj, length_map in Hfit. exact Hfit.
    + simpl. now apply py_slice_to_same_length.
  - destruct Hd as [[_ ->] | [_ ->]]; [exact Hnonneg |].
    simpl. unfold py_slice_to. destruct (max_seq_len self <? 0)%Z; now apply Forall_take.
  - intros t q M0 name HM Hname.
    destruct (Hframe t q M0 name HM Hname)
      as (ps0 & tip0 & Hps0 & Htip0 & HobjT & Hjoint & Hdist).
    exists ps0, tip0. split; [exact Hps0 |]. split; [exact Htip0 |]. cbv zeta.
    destruct (Hnearest (vadd (mat3_vec (rot_block F) tip0) (transl_col F))
                (map (fun p => vadd (mat3_vec (rot_block (mat4_mul F M0)) p)
                                    (transl_col (mat4_mul F M0))) cloud))
      as (Hle & Hatt & Hzero).
    repeat split; [exact HobjT | exact Hjoint | exact Hdist | exact Hle
                  | intros Hne; apply Hatt, Hcloud, Hne | exact Hzero].
Qed.

(** ** The singleton axis [[:, None]] is transparent to the kinematics *)

Lemma np_gradient_hom {A B} `{Elementwise A} `{Elementwise B} (phi : A -> B) :
  (forall a b, phi (esub a b) = esub (phi a) (phi b)) ->
  (forall a s, phi (ediv a s) = ediv (phi a) s) ->
  forall x, np_gradient (map phi x)
            = match np_gradient x with Ok g => Ok (map phi g) | Raise e => Raise e end.
Proof.
  intros Hsub Hdiv x. unfold np_gradient. rewrite length_map.
  destruct (length x <? 2)%nat; [reflexivity |]. f_equal.
  apply list_eq. intros i.
  rewrite list_lookup_fmap, !list_lookup_imap, list_lookup_fmap.
  destruct (x !! i) as [xi|]; simpl; [| reflexivity]. f_equal.
  destruct (i =? 0)%nat; [now rewrite Hsub, map_nth |].
  destruct (i =? length x - 1)%nat; [now rewrite Hsub, map_nth |].
  now rewrite Hdiv, Hsub, !map_nth.
Qed.

Lemma compute_velocity_unsqueeze {A} `{Elementwise A} (p : list A) (dt : R) (gf : bool) :
  compute_velocity (unsqueeze1 p) dt gf
  = match compute_velocity p dt gf with
    | Ok v => Ok (unsqueeze1 v)
    | Raise e => Raise e
    end.
Proof.
  unfold compute_velocity, unsqueeze1.
  rewrite (np_gradient_hom (fun a : A => [a])) by reflexivity.
  destruct (np_gradient p) as [g|e]; [| reflexivity]. f_equal.
  rewrite !map_map. simpl.
  rewrite <- (map_map (fun a => ediv a dt) (fun a => [a])).
  destruct gf; [| reflexivity].
  now rewrite (gaussian_filter1d_hom (fun a : A => [a])) by reflexivity.
Qed.

Lemma compute_angular_velocity_unsqueeze (r : list Mat3) (dt : R) (gf : bool) :
  (2 <= length r)%nat ->
  exists v, compute_angular_velocity (unsqueeze1 r) dt gf = unsqueeze1 v /\
            length v = length r.
Proof.
  intros Hr.
  assert (angular_velocity_pairs (unsqueeze1 r) dt
          = unsqueeze1 (zip_with (fun n p => pair_angular_velocity n p dt)
                          (py_from1 r) (py_to_m1 r))) as Hpairs.
  { rewrite angular_velocity_pairs_eq. unfold unsqueeze1, py_from1, py_to_m1.
    rewrite length_map. change (map ?f ?l) with (f <$> l).
    rewrite <- fmap_drop, <- fmap_take, zip_with_fmap_l, zip_with_fmap_r.
    change (?f <$> ?l) with (map f l). now rewrite map_zip_with. }
  set (flat := zip_with (fun n p => pair_angular_velocity n p dt) (py_from1 r) (py_to_m1 r))
    in Hpairs.
  assert (length flat = (length r - 1)%nat) as Hflat.
  { unfold flat, py_from1, py_to_m1. rewrite length_zip_with, length_drop, length_take. lia. }
  assert (unsqueeze1 flat ++ py_from_m1 (unsqueeze1 flat)
          = unsqueeze1 (flat ++ py_from_m1 flat)) as Hpad.
  { unfold unsqueeze1, py_from_m1. rewrite map_app, length_map.
    change (map ?f ?l) with (f <$> l). now rewrite fmap_drop. }
  unfold compute_angular_velocity. rewrite Hpairs, Hpad.
  destruct gf.
  - unfold unsqueeze1. rewrite (gaussian_filter1d_hom (fun a : Vec3 => [a])) by reflexivity.
    eexists. split; [reflexivity |].
    rewrite gaussian_filter1d_length, length_app, py_from_m1_length. lia.
  - eexists. split; [reflexivity |]. rewrite length_app, py_from_m1_length. lia.
Qed.

(** ** The loop over the joints *)

Lemma joints_velocity_spec (joints : gmap string (list Vec3)) (dt : R) :
  (forall k p, joints !! k = Some p -> (2 <= length p)%nat) ->
  exists vel, joints_velocity joints dt = Ok vel /\
    forall k, option_Forall2 (fun p v => compute_velocity p dt true = Ok v)
                (joints !! k) (vel !! k).
Proof.
  unfold joints_velocity.
  apply (map_fold_weak_ind (fun r (m : gmap string (list Vec3)) =>
    (forall k p, m !! k = Some p -> (2 <= length p)%nat) ->
    exists vel, r = Ok vel /\
      forall k, option_Forall2 (fun p v => compute_velocity p dt true = Ok v)
                  (m !! k) (vel !! k))).
  - intros _. exists ∅. split; [reflexivity |]. intros k.
    rewrite !lookup_empty. constructor.
  - intros i x m r Hfresh IH Hall.
    destruct IH as (vel & -> & Hvel).
    { intros k p Hk. apply (Hall k p). rewrite lookup_insert_ne; [exact Hk |].
      intros <-. congruence. }
    destruct (compute_velocity_Ok x dt true) as (v & Hv & _).
    { apply (Hall i x). apply lookup_insert_eq. }
    rewrite Hv. exists (<[i := v]> vel). split; [reflexivity |]. intros k.
    destruct (decide (i = k)) as [<- | Hne].
    + rewrite !lookup_insert_eq. now constructor.
    + rewrite !lookup_insert_ne by exact Hne. apply Hvel.
Qed.

Lemma joints_velocity_inv (joints vel : gmap string (list Vec3)) (dt : R) :
  joints_velocity joints dt = Ok vel ->
  forall k, option_Forall2 (fun p v => compute_velocity p dt true = Ok v)
              (joints !! k) (vel !! k).
Proof.
  unfold joints_velocity. revert vel.
  apply (map_fold_weak_ind (fun r (m : gmap string (list Vec3)) =>
    forall vel, r = Ok vel ->
      forall k, option_Forall2 (fun p v => compute_velocity p dt true = Ok v)
                  (m !! k) (vel !! k))).
  - intros vel [= <-] k. rewrite !lookup_empty. constructor.
  - intros i x m r Hfresh IH vel.
    destruct r as [vel0|]; [| discriminate].
    destruct (compute_velocity x dt true) as [v|] eqn:Hv; [| discriminate].
    intros [= <-] k.
    destruct (decide (i = k)) as [<- | Hne].
    + rewrite !lookup_insert_eq. now constructor.
    + rewrite !lookup_insert_ne by exact Hne. now apply IH.
Qed.

(** ** SequenceTruncator *)

Lemma derive_fields_lengths (self : ManipData) (data : RawSample) (cloud : list Vec3)
    (pre : Sample) (T : nat) :
  derive_fields self data cloud = Ok pre -> primary_length data T ->
  (2 <= T)%nat /\ per_frame_length pre T.
Proof.
  intros Hpre (Hobj & Hwpos & Hwrot & Hjoints).
  pose proof (derive_fields_inv self data cloud pre Hpre) as Hinv.
  unfold remap_frames in Hinv.
  destruct Hinv as (dt & ov & wv & _ & Htips & Hov & Hwv & Hjv
                    & Eobj & Ewpos & Ewrot & Ejoints & Eov & Eoa & Ewv & Ewa).
  rewrite compute_velocity_unsqueeze in Hov, Hwv.
  destruct (compute_velocity (map transl_col _) dt true) as [ov'|] eqn:Hov';
    [| discriminate].
  destruct (compute_velocity (rigid_rows _ _ _) dt true) as [wv'|] eqn:Hwv';
    [| discriminate].
  injection Hov as <-. injection Hwv as <-.
  apply compute_velocity_inv in Hov' as [HT Hov'], Hwv' as [_ Hwv'].
  rewrite !length_map in HT, Hov'. rewrite rigid_rows_length in Hwv'.
  rewrite Hobj in HT, Hov'. rewrite Hwpos in Hwv'.
  apply compute_tips_distance_lookup in Htips as [Htips _].
  rewrite length_map, Hobj in Htips.
  destruct (compute_angular_velocity_unsqueeze
              (map rot_block (map (mat4_mul (mujoco2gym_transf self))
                                  (raw_obj_trajectory data))) dt true)
    as (oa & Hoa & Hoalen); [rewrite !length_map; lia |].
  rewrite !length_map, Hobj in Hoalen.
  destruct (compute_angular_velocity_unsqueeze
              (map aa_to_rotmat
                 (map (fun m => rotmat_to_aa (mat3_mul (rot_block (mujoco2gym_transf self)) m))
                      (raw_wrist_rot data))) dt true)
    as (wa & Hwa & Hwalen); [rewrite !length_map; lia |].
  rewrite !length_map, Hwrot in Hwalen.
  assert (map (map aa_to_rotmat)
            (unsqueeze1 (map (fun m => rotmat_to_aa
                                (mat3_mul (rot_block (mujoco2gym_transf self)) m))
                             (raw_wrist_rot data)))
          = unsqueeze1 (map aa_to_rotmat
              (map (fun m => rotmat_to_aa (mat3_mul (rot_block (mujoco2gym_transf self)) m))
                   (raw_wrist_rot data)))) as Hun.
  { unfold unsqueeze1. now rewrite !map_map. }
  rewrite Hun, Hwa in Ewa. rewrite Hoa in Eoa.
  rewrite squeeze1_unsqueeze1 in Eov, Eoa, Ewv, Ewa.
  split; [exact HT |]. unfold per_frame_length.
  rewrite Eobj, Ewpos, Ewrot, Ejoints, Eov, Eoa, Ewv, Ewa.
  rewrite !length_map, rigid_rows_length.
  repeat split; try congruence.
  - intros k p. rewrite lookup_fmap. intros Hk.
    apply fmap_Some in Hk as (p0 & Hp0 & ->). rewrite rigid_rows_length. eauto.
  - intros k v Hk. pose proof (joints_velocity_inv _ _ _ Hjv k) as Hrel.
    rewrite Hk, lookup_fmap in Hrel.
    destruct (raw_mano_joints data !! k) as [p0|] eqn:Hp0; simpl in Hrel;
      inversion Hrel as [p v' Hvel |]; subst.
    apply compute_velocity_inv in Hvel as [_ ->]. rewrite rigid_rows_length. eauto.
Qed.

Lemma truncate_sample_length (self : ManipData) (d : Sample) (T : nat) :
  (0 <= max_seq_len self)%Z -> per_frame_length d T ->
  per_frame_length (truncate_sample self d) (Nat.min T (Z.to_nat (max_seq_len self))).
Proof.
  intros HL (H1 & H2 & H3 & H4 & H5 & H6 & H7 & H8 & H9 & H10).
  unfold per_frame_length, truncate_sample. simpl.
  rewrite !py_slice_to_length by exact HL.
  repeat split; try lia.
  - intros k p. rewrite lookup_fmap. intros Hk.
    apply fmap_Some in Hk as (p0 & Hp0 & ->).
    rewrite py_slice_to_length by exact HL. rewrite (H4 k p0 Hp0). lia.
  - intros k p. rewrite lookup_fmap. intros Hk.
    apply fmap_Some in Hk as (p0 & Hp0 & ->).
    rewrite py_slice_to_length by exact HL. rewrite (H10 k p0 Hp0). lia.
Qed.


(** ** process_data returns *)

Lemma same_lengths_true (cols : list (list Vec3)) (n : nat) :
  Forall (fun c => length c = n) cols -> same_lengths cols = true.
Proof.
  intros Hall. destruct Hall as [|c rest Hc Hrest]; [reflexivity |]. simpl.
  apply forallb_forall. intros c' Hin. apply Nat.eqb_eq.
  rewrite Forall_forall in Hrest. rewrite Hc. apply Hrest. now apply list_elem_of_In.
Qed.

Lemma compute_tips_distance_Ok (obj : list Mat4) (joints : gmap string (list Vec3))
    (cloud : list Vec3) :
  (forall k p, joints !! k = Some p -> length p = length obj) ->
  Forall (fun name => is_Some (joints !! name)) tip_list ->
  exists tips, compute_tips_distance obj joints cloud = Ok tips.
Proof.
  intros Hlen Htips. unfold compute_tips_distance.
  destruct (lookup_joints_Ok joints tip_list Htips) as [cols Hcols]. rewrite Hcols.
  apply lookup_joints_inv in Hcols.
  assert (Forall (fun c => length c = length obj) cols) as Hall.
  { apply Forall_forall. intros c Hc.
    apply list_elem_of_lookup in Hc as [i Hi].
    destruct (Forall2_lookup_r _ _ _ _ _ Hcols Hi) as (name & _ & Hname). eauto. }
  assert (cols <> []) as Hne.
  { intros ->. apply Forall2_length in Hcols. discriminate. }
  unfold torch_cat_dim1. rewrite (same_lengths_true cols (length obj) Hall).
  unfold ch_dist. rewrite (stack_dim1_length cols (length obj) Hne Hall).
  unfold obj_verts_transf. rewrite length_map, Nat.eqb_refl. eauto.
Qed.

Lemma time_delta_Ok (self : ManipData) :
  skip self <> 0%Z -> (Z.abs (skip self) < rate_underflow)%Z ->
  time_delta self = Ok (1 / (120 / IZR (skip self))).
Proof.
  intros Hskip Hrange. unfold time_delta.
  destruct (Z.eqb_spec (skip self) 0); [contradiction |].
  destruct (Z.leb_spec rate_underflow (Z.abs (skip self))); [lia | reflexivity].
Qed.

Lemma time_delta_Ok_inv (self : ManipData) (dt : R) :
  time_delta self = Ok dt ->
  skip self <> 0%Z /\ (Z.abs (skip self) < rate_underflow)%Z /\
  dt = 1 / (120 / IZR (skip self)).
Proof.
  unfold time_delta.
  destruct (Z.eqb_spec (skip self) 0); [discriminate |].
  destruct (Z.leb_spec rate_underflow (Z.abs (skip self))); [discriminate |].
  intros [= <-]. auto.
Qed.

Lemma time_delta_Raise (self : ManipData) :
  skip self = 0%Z \/ (rate_underflow <= Z.abs (skip self))%Z ->
  time_delta self = Raise ZeroDivisionError.
Proof.
  intros Hskip. unfold time_delta.
  destruct (Z.eqb_spec (skip self) 0); [reflexivity |].
  destruct (Z.leb_spec rate_underflow (Z.abs (skip self))); [reflexivity | lia].
Qed.

Lemma process_data_succeeds (self : ManipData) (data : RawSample) (idx : Z)
    (cloud : list Vec3) (T : nat) :
  primary_length data T -> (2 <= T)%nat ->
  skip self <> 0%Z -> (Z.abs (skip self) < rate_underflow)%Z ->
  Forall (fun name => is_Some (raw_mano_joints data !! name)) tip_list ->
  ((Z.of_nat T > max_seq_len self)%Z -> exists path, data_path self idx = Ok path) ->
  exists out d, process_data self data idx cloud = (out, Ok d).
Proof.
  intros (Hobj & Hwpos & Hwrot & Hjoints) HT Hskip Hrange Htips Hpath.
  assert (exists pre, derive_fields self data cloud = Ok pre /\
                      length (obj_trajectory pre) = T) as (pre & Hpre & Hlen).
  { unfold derive_fields, remap_frames.
    destruct (compute_tips_distance_Ok
                (map (mat4_mul (mujoco2gym_transf self)) (raw_obj_trajectory data))
                (rigid_rows (rot_block (mujoco2gym_transf self))
                            (transl_col (mujoco2gym_transf self)) <$> raw_mano_joints data)
                cloud) as [tips ->].
    { intros k p. rewrite lookup_fmap. intros Hk.
      apply fmap_Some in Hk as (p0 & Hp0 & ->).
      rewrite rigid_rows_length, length_map, Hobj. eauto. }
    { eapply Forall_impl; [exact Htips |]. intros name Hname. simpl.
      rewrite lookup_fmap. now apply fmap_is_Some. }
    rewrite (time_delta_Ok self Hskip Hrange). simpl.
    rewrite !compute_velocity_unsqueeze.
    destruct (compute_velocity_Ok
                (map transl_col (map (mat4_mul (mujoco2gym_transf self))
                                     (raw_obj_trajectory data)))
                (1 / (120 / IZR (skip self))) true) as (ov & -> & _);
      [rewrite !length_map; lia |]. simpl.
    destruct (compute_velocity_Ok
                (rigid_rows (rot_block (mujoco2gym_transf self))
                            (transl_col (mujoco2gym_transf self)) (raw_wrist_pos data))
                (1 / (120 / IZR (skip self))) true) as (wv & -> & _);
      [rewrite rigid_rows_length; lia |]. simpl.
    destruct (joints_velocity_spec
                (rigid_rows (rot_block (mujoco2gym_transf self))
                            (transl_col (mujoco2gym_transf self)) <$> raw_mano_joints data)
                (1 / (120 / IZR (skip self)))) as (jv & -> & _).
    { intros k p. rewrite lookup_fmap. intros Hk.
      apply fmap_Some in Hk as (p0 & Hp0 & ->).
      rewrite rigid_rows_length, (Hjoints k p0 Hp0). exact HT. }
    simpl. eexists. split; [reflexivity |]. simpl. now rewrite length_map. }
  unfold process_data, io_bind, io_lift. rewrite Hpre.
  unfold truncate_too_long. rewrite Hlen.
  destruct (Z.gtb_spec (Z.of_nat T) (max_seq_len self)) as [Hlong | Hfit].
  - destruct Hpath as [path Hpath]; [lia |]. unfold io_bind, io_lift. rewrite Hpath.
    simpl. eauto.
  - simpl. eauto.
Qed.

(** ** RetargetedPoseLoader *)

Lemma load_retargeted_data_inv (self : ManipData) (fs : gmap string OptParams)
    (data : Sample) (path : string) (out : list message) (r : Retargeted) :
  load_retargeted_data self fs data path = (out, Ok r) ->
  load_retargeted_fields self fs data path = (out, Ok r) /\
  length (opt_wrist_pos r) = length (obj_trajectory (primary r)).
Proof.
  unfold load_retargeted_data, io_bind.
  destruct (load_retargeted_fields self fs data path) as [out0 [r0|e]]; [| discriminate].
  unfold assert_same_length.
  destruct (Nat.eqb_spec (length (opt_wrist_pos r0)) (length (obj_trajectory (primary r0))))
    as [Heq | Hne]; simpl; [| discriminate].
  rewrite app_nil_r. intros [= <- <-]. split; [reflexivity | exact Heq].
Qed.

(** C1. Whatever branch [load_retargeted_data] took, once the [opt_*] fields
    are recomputed and cut to [max_seq_len], the call returns the sample
    exactly when [opt_wrist_pos] and [obj_trajectory] have one length, and
    raises [AssertionError], returning no sample, when the two lengths
    differ; so a call that returns leaves [len(opt_wrist_pos)] equal to
    [len(obj_trajectory)]. *)
Theorem load_retargeted_data_length_parity (self : ManipData)
    (fs : gmap string OptParams) (data : Sample) (path : string)
    (out : list message) (r : Retargeted) :
  load_retargeted_fields self fs data path = (out, Ok r) ->
  (length (opt_wrist_pos r) = length (obj_trajectory (primary r)) ->
   load_retargeted_data self fs data path = (out, Ok r)) /\
  (length (opt_wrist_pos r) <> length (obj_trajectory (primary r)) ->
   load_retargeted_data self fs data path = (out, Raise AssertionError)) /\
  (forall out' r', load_retargeted_data self fs data path = (out', Ok r') ->
     length (opt_wrist_pos r') = length (obj_trajectory (primary r'))).
Proof.
  intros Hfields. repeat split.
  - intros Heq. unfold load_retargeted_data, io_bind. rewrite Hfields.
    unfold assert_same_length. apply Nat.eqb_eq in Heq. rewrite Heq. simpl.
    now rewrite app_nil_r.
  - intros Hne. unfold load_retargeted_data, io_bind. rewrite Hfields.
    unfold assert_same_length. apply Nat.eqb_neq in Hne. rewrite Hne. simpl.
    now rewrite app_nil_r.
  - intros out' r' Hrun. now apply load_retargeted_data_inv in Hrun.
Qed.

Lemma torch_zeros_shape (t d : nat) :
  length (torch_zeros t d) = t /\
  Forall (fun row => length row = d /\ Forall (fun x => x = 0) row) (torch_zeros t d).
Proof.
  unfold torch_zeros. split; [apply repeat_length |].
  apply Forall_forall. intros row Hrow.
  apply list_elem_of_In, repeat_spec in Hrow. subst row.
  split; [apply repeat_length |].
  apply Forall_forall. intros x Hx. apply list_elem_of_In, repeat_spec in Hx. exact Hx.
Qed.

Lemma opt_bundle_absent (self : ManipData) (fs : gmap string OptParams) (data : Sample)
    (path : string) :
  fs !! path = None ->
  opt_bundle self fs data path
  = (if verbose self then [WarnDoesNotExist path; WarnSlowTransfer; WarnRunRetargeting]
     else [],
     match dexhand self with
     | Some D => Ok {| art_opt_wrist_pos := wrist_pos data;
                       art_opt_wrist_rot := wrist_rot data;
                       art_opt_dof_pos := torch_zeros (length (wrist_pos data)) D |}
     | None => Raise AttributeError
     end).
Proof.
  intros Hnone. unfold opt_bundle. rewrite Hnone.
  unfold n_dofs. destruct (verbose self), (dexhand self); reflexivity.
Qed.

Lemma load_retargeted_fields_inv (self : ManipData) (fs : gmap string OptParams)
    (data : Sample) (path : string) (out : list message) (r : Retargeted) :
  load_retargeted_fields self fs data path = (out, Ok r) ->
  exists opt, opt_bundle self fs data path = (out, Ok opt) /\
    primary r = data /\
    let long := (Z.of_nat (length (art_opt_wrist_pos opt)) >? max_seq_len self)%Z in
    opt_wrist_pos r = (if long then py_slice_to (art_opt_wrist_pos opt) (max_seq_len self)
                       else art_opt_wrist_pos opt) /\
    opt_wrist_rot r = (if long then py_slice_to (art_opt_wrist_rot opt) (max_seq_len self)
                       else art_opt_wrist_rot opt) /\
    opt_dof_pos r = (if long then py_slice_to (art_opt_dof_pos opt) (max_seq_len self)
                     else art_opt_dof_pos opt).
Proof.
  unfold load_retargeted_fields, io_bind, io_lift.
  destruct (opt_bundle self fs data path) as [out0 [opt|e]]; [| discriminate].
  destruct (time_delta self) as [dt|]; [| discriminate].
  destruct (compute_velocity (unsqueeze1 (art_opt_wrist_pos opt)) dt true) as [vel|];
    [| discriminate].
  destruct (compute_dof_velocity (art_opt_dof_pos opt) dt true) as [dv|]; [| discriminate].
  cbn [opt_wrist_pos].
  destruct (Z.of_nat (length (art_opt_wrist_pos opt)) >? max_seq_len self)%Z eqn:Hlong;
    simpl; rewrite !app_nil_r; intros [= <- <-]; exists opt; simpl; rewrite Hlong;
    repeat split; reflexivity.
Qed.

(** C5 (as amended). When no artifact is stored at the path,
    [load_retargeted_data] sets [opt_wrist_pos] to the sample's [wrist_pos],
    [opt_wrist_rot] to its [wrist_rot] and [opt_dof_pos] to zeros of shape
    [T×D] ([T] the length of [wrist_pos], [D] the hand's [n_dofs]), each cut
    to [max_seq_len] when [T] exceeds it; it prints the three-line advisory
    warning when [verbose] is set and nothing otherwise, and the warning
    never makes the call fail. *)
Theorem load_retargeted_data_fallback (self : ManipData) (fs : gmap string OptParams)
    (data : Sample) (path : string) (out : list message) (r : Retargeted) :
  fs !! path = None ->
  load_retargeted_data self fs data path = (out, Ok r) ->
  let T := length (wrist_pos data) in
  let long := (Z.of_nat T >? max_seq_len self)%Z in
  exists D, dexhand self = Some D /\
    length (torch_zeros T D) = T /\
    Forall (fun row => length row = D /\ Forall (fun x => x = 0) row) (torch_zeros T D) /\
    opt_wrist_pos r = (if long then py_slice_to (wrist_pos data) (max_seq_len self)
                       else wrist_pos data) /\
    opt_wrist_rot r = (if long then py_slice_to (wrist_rot data) (max_seq_len self)
                       else wrist_rot data) /\
    opt_dof_pos r = (if long then py_slice_to (torch_zeros T D) (max_seq_len self)
                     else torch_zeros T D) /\
    out = (if verbose self
           then [WarnDoesNotExist path; WarnSlowTransfer; WarnRunRetargeting] else []).
Proof.
  intros Hnone Hrun T long.
  apply load_retargeted_data_inv in Hrun as [Hfields _].
  apply load_retargeted_fields_inv in Hfields as (opt & Hopt & _ & Hpos & Hrot & Hdof).
  rewrite (opt_bundle_absent self fs data path Hnone) in Hopt.
  destruct (dexhand self) as [D|]; [| discriminate].
  injection Hopt as Hout Hopt. subst opt. simpl in Hpos, Hrot, Hdof.
  exists D. pose proof (torch_zeros_shape T D) as [Hlen Hrows].
  repeat split; auto.
Qed.

(** ** The sampler on a machine with two CUDA devices *)

Lemma corner_sampler_shape : sampler_shape corner_sampler.
Proof.
  intros mesh n g. exists (repeat (fst (fst mesh)) n).
  split; [reflexivity | apply repeat_length].
Qed.

(** C4, the code at a failing state. On a process with two CUDA devices
    [random_sampling_pc] returns with NumPy's generator, the CPU generator and
    the generator of the current device as they were, but with the generator
    of the other device reseeded ([torch.manual_seed] and
    [torch.cuda.manual_seed_all] reseed all devices, only the current one is
    saved and restored): the generators are not what they were before the
    call. *)
Theorem random_sampling_pc_reseeds_other_device :
  generators (snd (sampling_example two_gpu_process))
  = mkGenerators (mkCounterRng 11 3) (mkCounterRng 12 5)
                 [mkCounterRng 13 7; mkCounterRng 0 0] /\
  generators (snd (sampling_example two_gpu_process)) <> generators two_gpu_process.
Proof.
  assert (generators (snd (sampling_example two_gpu_process))
          = mkGenerators (mkCounterRng 11 3) (mkCounterRng 12 5)
                         [mkCounterRng 13 7; mkCounterRng 0 0]) as Hafter.
  { unfold sampling_example.
    rewrite (random_sampling_pc_run _ _ _ _ _ _ unit_triangle two_gpu_process
               (mkCounterRng 13 7)) by reflexivity.
    reflexivity. }
  split; [exact Hafter |]. rewrite Hafter. discriminate.
Qed.

(** ** The theorems at concrete inputs *)

Lemma random_sampling_pc_sets_cudnn_flags_witness :
  is_Some (torch_cuda_get_rng_state two_gpu_process) /\
  exists pc w', sampling_example two_gpu_process = (Ok pc, w') /\
    cudnn_deterministic w' = true /\ cudnn_benchmark w' = false.
Proof.
  assert (is_Some (torch_cuda_get_rng_state two_gpu_process)) as Hcuda
    by (eexists; reflexivity).
  split; [exact Hcuda |].
  exact (random_sampling_pc_sets_cudnn_flags CounterRng counter_seeded counter_seeded
           counter_seeded Triangle corner_sampler unit_triangle two_gpu_process Hcuda).
Defined.

Lemma random_sampling_pc_deterministic_witness :
  exists pc, fst (sampling_example two_gpu_process) = Ok (Cloud pc) /\
             fst (sampling_example two_gpu_process_later) = Ok (Cloud pc) /\
             length pc = 1000%nat.
Proof.
  apply (random_sampling_pc_deterministic CounterRng counter_seeded counter_seeded
           counter_seeded Triangle corner_sampler unit_triangle
           two_gpu_process two_gpu_process_later).
  - exact corner_sampler_shape.
  - eexists; reflexivity.
  - eexists; reflexivity.
  - reflexivity.
Defined.

Lemma compute_angular_velocity_last_frame_repeat_witness :
  (2 <= length quarter_turn_series)%nat /\
  length (compute_angular_velocity quarter_turn_series (1 / 60) true)
  = length quarter_turn_series /\
  compute_angular_velocity quarter_turn_series (1 / 60) false !! 2%nat
  = compute_angular_velocity quarter_turn_series (1 / 60) false !! 1%nat.
Proof.
  assert (2 <= length quarter_turn_series)%nat as Hlen by (simpl; lia).
  split; [exact Hlen |].
  destruct (compute_angular_velocity_last_frame_repeat quarter_turn_series (1 / 60) true Hlen)
    as (_ & _ & _ & Hout & Hlast & _).
  split; [exact Hout | exact Hlast].
Defined.

Lemma axis_denominator_positive_witness :
  0 < vnorm (rotmat_to_aa (mat3_mul I3 (mat3_transpose I3))) + axis_eps /\
  (angular_velocity_pairs quarter_turn_series (1 / 60) !! 0%nat)
    ≫= (fun row => row !! 0%nat) = Some vzero.
Proof.
  destruct (axis_denominator_positive quarter_turn_series (1 / 60) 0 0 [I3] [I3] I3 I3
              eq_refl eq_refl eq_refl eq_refl) as (Hpos & _ & Hzero).
  split; [exact Hpos |]. apply Hzero. apply mat3_mul_transpose_I3.
Defined.

Lemma example_raw_primary_length : primary_length example_raw 3.
Proof.
  repeat split; try reflexivity.
  intros k p Hk. apply elem_of_list_to_map_2 in Hk.
  repeat (apply elem_of_cons in Hk as [[= -> ->] | Hk]; [reflexivity |]).
  now apply elem_of_nil in Hk.
Qed.


Lemma tips_distance_is_nearest_distance_witness :
  exists out d, process_data example_self example_raw 0 example_cloud = (out, Ok d) /\
    length (tips_distance d) = 2%nat /\
    (tips_distance d !! 1%nat) ≫= (fun row => row !! 0%nat) = Some 0 /\
    (tips_distance d !! 1%nat) ≫= (fun row => row !! 1%nat) = Some 1.
Proof.
  eexists _, _. split; [reflexivity |].
  destruct (tips_distance_is_nearest_distance example_self example_raw 0 example_cloud
              _ _ eq_refl) as (Hlen & _ & Hframe).
  split; [exact Hlen |]. split.
  - destruct (Hframe 1%nat 0%nat I4 "thumb_tip"%string eq_refl eq_refl)
      as (ps0 & tip0 & Hps0 & Htip0 & _ & _ & Hdist & _ & _ & Hzero).
    assert (raw_mano_joints example_raw !! "thumb_tip"%string
            = Some [mkVec3 1 0 0; mkVec3 1 0 0; mkVec3 1 0 0]) as Hraw by reflexivity.
    rewrite Hraw in Hps0. injection Hps0 as <-. injection Htip0 as <-.
    rewrite Hdist. f_equal. apply Hzero. left.
    cbv [vadd mat3_vec vdot rot_block transl_col mat4_mul row_mat4 wdot hcol0 hcol1 hcol2
         hcol3 I4 xyz vx vy vz wx wy wz ww row0 row1 row2 hrow0 hrow1 hrow2 hrow3
         mujoco2gym_transf example_self].
    f_equal; ring.
  - destruct (Hframe 1%nat 1%nat I4 "index_tip"%string eq_refl eq_refl)
      as (ps0 & tip0 & Hps0 & Htip0 & _ & _ & Hdist & _).
    assert (raw_mano_joints example_raw !! "index_tip"%string
            = Some [mkVec3 2 0 0; mkVec3 2 0 0; mkVec3 2 0 0]) as Hraw by reflexivity.
    rewrite Hraw in Hps0. injection Hps0 as <-. injection Htip0 as <-.
    rewrite Hdist. f_equal.
    cbv [nearest_sq_dist sq_dist vsub example_cloud map fold_left
         vadd mat3_vec vdot rot_block transl_col mat4_mul row_mat4 wdot hcol0 hcol1 hcol2
         hcol3 I4 xyz vx vy vz wx wy wz ww row0 row1 row2 hrow0 hrow1 hrow2 hrow3
         mujoco2gym_transf example_self].
    rewrite Rmin_left by lra.
    match goal with |- sqrt ?x = 1 => replace x with 1 by ring end. apply sqrt_1.
Defined.

Lemma load_retargeted_data_length_parity_witness :
  exists out r,
    load_retargeted_fields example_self ∅ example_sample missing_path = (out, Ok r) /\
    load_retargeted_data example_self ∅ example_sample missing_path = (out, Ok r).
Proof.
  eexists _, _. split; [reflexivity |].
  eapply (load_retargeted_data_length_parity example_self ∅ example_sample missing_path);
    reflexivity.
Defined.

Lemma load_retargeted_data_fallback_witness :
  exists out r,
    (∅ : gmap string OptParams) !! missing_path = None /\
    load_retargeted_data example_self ∅ example_sample missing_path = (out, Ok r) /\
    opt_wrist_pos r = wrist_pos example_sample /\
    out = [WarnDoesNotExist missing_path; WarnSlowTransfer; WarnRunRetargeting].
Proof.
  eexists _, _.
  assert ((∅ : gmap string OptParams) !! missing_path = None) as Hnone by reflexivity.
  split; [exact Hnone |]. split; [reflexivity |].
  destruct (load_retargeted_data_fallback example_self ∅ example_sample missing_path _ _
              Hnone eq_refl) as (D & _ & _ & _ & Hpos & _ & _ & Hout).
  split; [exact Hpos | exact Hout].
Defined.

(** C5 does not hold as stated: with [verbose=False] the fallback fills
    the [opt_*] fields and the call returns, but no warning is printed. *)
Lemma quiet_fallback_prints_nothing :
  (∅ : gmap string OptParams) !! missing_path = None /\
  verbose quiet_self = false /\
  printed (load_retargeted_data quiet_self ∅ example_sample missing_path) = [] /\
  exists r, outcome (load_retargeted_data quiet_self ∅ example_sample missing_path) = Ok r /\
            opt_wrist_pos r = wrist_pos example_sample.
Proof.
  split; [reflexivity |]. split; [reflexivity |]. split; [reflexivity |].
  eexists. split; reflexivity.
Qed.

(** * Further properties of the code *)

(** ** compute_velocity and compute_dof_velocity: frames needed and kept *)

(** X1. [compute_velocity] raises [ValueError] exactly on a series of fewer
    than two frames ([np.gradient] needs two); on any longer series it
    returns, with as many frames as it was given, smoothed or not. *)
Theorem compute_velocity_needs_two_frames {A} `{Elementwise A}
    (p : list A) (dt : R) (gf : bool) :
  (compute_velocity p dt gf = Raise ValueError <-> (length p < 2)%nat) /\
  ((2 <= length p)%nat <->
   exists v, compute_velocity p dt gf = Ok v /\ length v = length p).
Proof.
  split; split.
  - intros Hraise. destruct (Nat.lt_ge_cases (length p) 2) as [Hlt | Hge]; [exact Hlt |].
    destruct (compute_velocity_Ok p dt gf Hge) as (v & Hv & _). congruence.
  - intros Hlt. unfold compute_velocity, np_gradient.
    destruct (Nat.ltb_spec (length p) 2); [reflexivity | lia].
  - intros Hge. now apply compute_velocity_Ok.
  - intros (v & Hv & _). now apply compute_velocity_inv in Hv.
Qed.

(** ** Frames that the arithmetic leaves alone *)

Lemma null_frame_R : null_frame (0 : R).
Proof. unfold null_frame. simpl. repeat split; intros; unfold Rdiv; ring. Qed.

Lemma null_frame_vzero : null_frame vzero.
Proof.
  unfold null_frame, vzero. simpl.
  unfold vadd, vsub, vscale, vdiv_s, Rdiv. simpl.
  repeat split; intros; f_equal; ring.
Qed.

Lemma null_frame_row {A} `{Elementwise A} (z : A) (n : nat) :
  null_frame z -> null_frame (replicate n z).
Proof.
  intros (Hadd & Hsub & Hscale & Hdiv). unfold null_frame. simpl.
  rewrite !zip_with_replicate, Hadd, Hsub.
  repeat split; try reflexivity.
  - intros s. change (map ?f ?l) with (f <$> l). now rewrite fmap_replicate, Hscale.
  - intros s. change (map ?f ?l) with (f <$> l). now rewrite fmap_replicate, Hdiv.
Qed.

Lemma nth_replicate_same {A} (z : A) (n i : nat) : nth i (replicate n z) z = z.
Proof. revert i. induction n as [|n IH]; intros [|i]; simpl; auto. Qed.

Lemma correlate_at_null {A} `{Elementwise A} (z : A) (sigma T i : nat) :
  null_frame z -> correlate_at sigma (replicate T z) i z = z.
Proof.
  intros (Hadd & _ & Hscale & _). unfold correlate_at.
  destruct (gaussian_offsets sigma) as [|k0 ks]; [reflexivity |].
  rewrite nth_replicate_same, Hscale.
  induction ks as [|k ks IH]; simpl; [reflexivity |].
  now rewrite nth_replicate_same, Hscale, Hadd.
Qed.

Lemma imap_replicate_const {A B} (f : nat -> A -> B) (z : A) (y : B) (T : nat) :
  (forall i, (i < T)%nat -> f i z = y) -> imap f (replicate T z) = replicate T y.
Proof.
  intros Hf. apply list_eq. intros i. rewrite list_lookup_imap.
  destruct (Nat.lt_ge_cases i T) as [Hlt | Hge].
  - rewrite !lookup_replicate_2 by exact Hlt. simpl. now rewrite Hf.
  - rewrite (proj1 (lookup_replicate_None T z i) Hge).
    now rewrite (proj1 (lookup_replicate_None T y i) Hge).
Qed.

Lemma gaussian_filter1d_null {A} `{Elementwise A} (z : A) (sigma T : nat) :
  null_frame z -> gaussian_filter1d (replicate T z) sigma = replicate T z.
Proof.
  intros Hz. unfold gaussian_filter1d. apply imap_replicate_const.
  intros i _. now apply correlate_at_null.
Qed.

Lemma compute_velocity_null {A} `{Elementwise A} (z : A) (T : nat) (dt : R) (gf : bool) :
  null_frame z -> (2 <= T)%nat ->
  compute_velocity (replicate T z) dt gf = Ok (replicate T z).
Proof.
  intros Hz HT. pose proof Hz as (_ & Hsub & _ & Hdiv).
  unfold compute_velocity, np_gradient. rewrite length_replicate.
  destruct (Nat.ltb_spec T 2); [lia |].
  rewrite (imap_replicate_const _ z z T).
  - change (map ?f ?l) with (f <$> l). rewrite fmap_replicate, Hdiv.
    destruct gf; [now rewrite gaussian_filter1d_null | reflexivity].
  - intros i _. rewrite !nth_replicate_same, Hsub, Hdiv.
    destruct (i =? 0)%nat; [reflexivity |]. now destruct (i =? T - 1)%nat.
Qed.

(** ** compute_velocity on a uniform motion *)

Lemma sum_map_div (f : Z -> R) (n : R) (l : list Z) :
  fold_right Rplus 0 (map (fun k => f k / n) l) = fold_right Rplus 0 (map f l) / n.
Proof.
  induction l as [|k l IH]; simpl; [unfold Rdiv; ring |].
  rewrite IH. unfold Rdiv. ring.
Qed.

(** The weights of the kernel add up to one. *)
Lemma gaussian_weight_sum (sigma : nat) :
  fold_right Rplus 0 (map (gaussian_weight sigma) (gaussian_offsets sigma)) = 1.
Proof.
  unfold gaussian_weight. rewrite sum_map_div. fold (gaussian_norm sigma).
  apply Rdiv_diag. apply Rgt_not_eq.
  unfold gaussian_norm. apply sum_pos_pos.
  - unfold gaussian_offsets. rewrite Nat.add_1_r. simpl. discriminate.
  - intros k. apply exp_pos.
Qed.

Lemma fold_left_weighted_constant (w : Z -> R) (idx : Z -> nat) (x : list R) (c : R)
    (ks : list Z) (acc : R) :
  Forall (fun a => a = c) x ->
  fold_left (fun acc k => eadd acc (escale (w k) (nth (idx k) x c))) ks acc
  = acc + fold_right Rplus 0 (map w ks) * c.
Proof.
  intros Hall. revert acc. induction ks as [|k ks IH]; intros acc; simpl; [ring |].
  rewrite IH, (nth_constant x c _ Hall). ring.
Qed.

Lemma correlate_at_constant_R (sigma : nat) (x : list R) (c : R) (i : nat) :
  Forall (fun a => a = c) x -> correlate_at sigma x i c = c.
Proof.
  intros Hall. pose proof (gaussian_weight_sum sigma) as Hsum.
  unfold correlate_at.
  destruct (gaussian_offsets sigma) as [|k0 ks]; [reflexivity |].
  simpl in Hsum.
  rewrite (fold_left_weighted_constant (gaussian_weight sigma)
             (fun k => nearest_index (length x) (Z.of_nat i + k)) x c ks _ Hall).
  rewrite (nth_constant x c _ Hall). simpl.
  replace (gaussian_weight sigma k0 * c
           + fold_right Rplus 0 (map (gaussian_weight sigma) ks) * c)
    with ((gaussian_weight sigma k0
           + fold_right Rplus 0 (map (gaussian_weight sigma) ks)) * c) by ring.
  rewrite Hsum. ring.
Qed.

Lemma correlate_at_constant_Vec3 (sigma : nat) (x : list Vec3) (c : Vec3) (i : nat) :
  Forall (fun a => a = c) x -> correlate_at sigma x i c = c.
Proof.
  intros Hall.
  assert (forall proj : Vec3 -> R,
            (forall a b, proj (eadd a b) = eadd (proj a) (proj b)) ->
            (forall s a, proj (escale s a) = escale s (proj a)) ->
            proj (correlate_at sigma x i c) = proj c) as Hproj.
  { intros proj Hadd Hscale. rewrite (correlate_at_hom proj Hadd Hscale).
    apply correlate_at_constant_R.
    apply Forall_forall. intros a Ha.
    apply list_elem_of_In, in_map_iff in Ha as (v & <- & Hv).
    rewrite Forall_forall in Hall. f_equal. apply Hall. now apply list_elem_of_In. }
  destruct (correlate_at sigma x i c) as [x0 y0 z0] eqn:Hout.
  pose proof (Hproj vx) as Hx. pose proof (Hproj vy) as Hy. pose proof (Hproj vz) as Hz.
  destruct c as [cx cy cz]. simpl in Hx, Hy, Hz.
  rewrite Hx, Hy, Hz by reflexivity. reflexivity.
Qed.

Lemma gaussian_filter1d_constant_Vec3 (sigma T : nat) (c : Vec3) :
  gaussian_filter1d (replicate T c) sigma = replicate T c.
Proof.
  unfold gaussian_filter1d. apply imap_replicate_const. intros i _.
  apply correlate_at_constant_Vec3.
  apply Forall_forall. intros a Ha. now apply elem_of_replicate_inv in Ha.
Qed.

Lemma uniform_motion_nth (a b d : Vec3) (T n : nat) :
  (n < T)%nat -> nth n (uniform_motion a b T) d = vadd a (vscale (INR n) b).
Proof.
  intros Hn. unfold uniform_motion.
  rewrite (nth_indep _ d (vadd a (vscale (INR 0) b))) by (rewrite length_map, length_seq; lia).
  rewrite (map_nth (fun t => vadd a (vscale (INR t) b)) (seq 0 T) 0%nat n).
  now rewrite seq_nth.
Qed.

Lemma np_gradient_uniform_motion (a b : Vec3) (T : nat) :
  (2 <= T)%nat -> np_gradient (uniform_motion a b T) = Ok (replicate T b).
Proof.
  intros HT. unfold np_gradient.
  assert (length (uniform_motion a b T) = T) as Hlen
    by (unfold uniform_motion; now rewrite length_map, length_seq).
  rewrite Hlen. destruct (Nat.ltb_spec T 2); [lia |]. f_equal.
  apply list_eq. intros i. rewrite list_lookup_imap.
  destruct (Nat.lt_ge_cases i T) as [Hi | Hi].
  - rewrite lookup_replicate_2 by exact Hi.
    assert (uniform_motion a b T !! i = Some (vadd a (vscale (INR i) b))) as ->.
    { unfold uniform_motion. rewrite list_lookup_fmap.
      rewrite lookup_seq_lt by exact Hi. reflexivity. }
    simpl. f_equal.
    destruct a as [ax ay az], b as [bx by_ bz].
    destruct (Nat.eqb_spec i 0) as [-> | Hi0].
    + rewrite uniform_motion_nth by lia.
      unfold vsub, vadd, vscale. simpl. f_equal; ring.
    + destruct (Nat.eqb_spec i (T - 1)) as [Hlast | Hmid].
      * rewrite uniform_motion_nth by lia.
        destruct i as [|j]; [lia |].
        replace (S j - 1)%nat with j by lia. rewrite S_INR.
        unfold vsub, vadd, vscale. simpl. f_equal; ring.
      * rewrite !uniform_motion_nth by lia.
        destruct i as [|j]; [lia |].
        replace (S j - 1)%nat with j by lia.
        replace (S j + 1)%nat with (S (S j)) by lia. rewrite !S_INR.
        unfold vsub, vadd, vscale, vdiv_s. simpl. f_equal; field.
  - rewrite (proj1 (lookup_replicate_None T b i) Hi).
    rewrite lookup_ge_None_2 by (rewrite Hlen; exact Hi). reflexivity.
Qed.

(** X2. The velocity of a uniform motion is constant: for a point that moves
    by [b] every frame over [T >= 2] frames, [compute_velocity] returns
    [b / time_delta] at every frame, the two ends included, with the
    smoothing on or off. *)
Theorem compute_velocity_uniform_motion (a b : Vec3) (T : nat) (dt : R) (gf : bool) :
  (2 <= T)%nat ->
  compute_velocity (uniform_motion a b T) dt gf = Ok (replicate T (vdiv_s b dt)).
Proof.
  intros HT. unfold compute_velocity. rewrite (np_gradient_uniform_motion a b T HT).
  change (map ?f ?l) with (f <$> l). rewrite fmap_replicate. simpl.
  destruct gf; [now rewrite gaussian_filter1d_constant_Vec3 | reflexivity].
Qed.

(** ** compute_angular_velocity at rest and on short series *)

Lemma pair_angular_velocity_row_at_rest (row : list Mat3) (dt : R) :
  Forall (fun m => mat3_mul m (mat3_transpose m) = I3) row ->
  zip_with (fun n p => pair_angular_velocity n p dt) row row
  = replicate (length row) vzero.
Proof.
  induction 1 as [|m row Hm _ IH]; simpl; [reflexivity |].
  now rewrite IH, pair_angular_velocity_identity.
Qed.

(** X3. An orientation that does not change has zero angular velocity: for
    [T >= 2] equal frames of orthonormal matrices,
    [compute_angular_velocity] returns [T] frames of zero vectors, with the
    smoothing on or off. *)
Theorem compute_angular_velocity_at_rest (row : list Mat3) (T : nat) (dt : R) (gf : bool) :
  Forall (fun m => mat3_mul m (mat3_transpose m) = I3) row -> (2 <= T)%nat ->
  compute_angular_velocity (replicate T row) dt gf
  = replicate T (replicate (length row) vzero).
Proof.
  intros Hrow HT. unfold compute_angular_velocity.
  assert (angular_velocity_pairs (replicate T row) dt
          = replicate (T - 1) (replicate (length row) vzero)) as ->.
  { rewrite angular_velocity_pairs_eq. unfold py_from1, py_to_m1.
    rewrite length_replicate, drop_replicate, take_replicate.
    rewrite (Nat.min_l (T - 1) T) by lia. rewrite zip_with_replicate.
    now rewrite (pair_angular_velocity_row_at_rest row dt Hrow). }
  assert (replicate (T - 1) (replicate (length row) vzero)
          ++ py_from_m1 (replicate (T - 1) (replicate (length row) vzero))
          = replicate T (replicate (length row) vzero)) as ->.
  { unfold py_from_m1. rewrite length_replicate, drop_replicate, <- replicate_add.
    f_equal. lia. }
  destruct gf; [| reflexivity].
  apply gaussian_filter1d_null, null_frame_row, null_frame_vzero.
Qed.

(** X4. With the smoothing off, [compute_angular_velocity] does not raise on
    a series of fewer than two frames, as [compute_velocity] does: it
    returns an empty series, so a single frame comes back as no frame. *)
Theorem compute_angular_velocity_short (r : list (list Mat3)) (dt : R) :
  (length r < 2)%nat -> compute_angular_velocity r dt false = [].
Proof.
  intros Hr. unfold compute_angular_velocity.
  assert (angular_velocity_pairs r dt = []) as ->; [| reflexivity].
  apply length_zero_iff_nil. rewrite angular_velocity_pairs_length. lia.
Qed.

(** ** process_data: what it raises *)

Lemma process_data_unfold (self : ManipData) (data : RawSample) (idx : Z)
    (cloud : list Vec3) :
  process_data self data idx cloud
  = match derive_fields self data cloud with
    | Ok pre => truncate_too_long self idx pre
    | Raise e => ([], Raise e)
    end.
Proof.
  unfold process_data, io_bind, io_lift.
  destruct (derive_fields self data cloud) as [pre|e]; [| reflexivity].
  now destruct (truncate_too_long self idx pre) as [out r].
Qed.

Lemma lookup_joints_missing (joints : gmap string (list Vec3))
    (present rest : list string) (k : string) :
  Forall (fun name => is_Some (joints !! name)) present ->
  joints !! k = None ->
  lookup_joints joints (present ++ k :: rest) = Raise (KeyError k).
Proof.
  intros Hpresent Hk. induction Hpresent as [|name present [p Hp] _ IH]; simpl.
  - now rewrite Hk.
  - now rewrite Hp, IH.
Qed.

Lemma remapped_joints_lookup (self : ManipData) (data : RawSample) (k : string) :
  (rigid_rows (rot_block (mujoco2gym_transf self)) (transl_col (mujoco2gym_transf self))
     <$> raw_mano_joints data) !! k
  = rigid_rows (rot_block (mujoco2gym_transf self)) (transl_col (mujoco2gym_transf self))
      <$> raw_mano_joints data !! k.
Proof. apply lookup_fmap. Qed.

(** X5. A sample without one of the five fingertip joints makes
    [process_data] raise [KeyError] for the first missing name in the order
    thumb, index, middle, ring, pinky, before anything is printed and
    whatever the other fields hold. *)
Theorem process_data_missing_tip (self : ManipData) (data : RawSample) (idx : Z)
    (cloud : list Vec3) (present rest : list string) (k : string) :
  tip_list = present ++ k :: rest ->
  Forall (fun name => is_Some (raw_mano_joints data !! name)) present ->
  raw_mano_joints data !! k = None ->
  process_data self data idx cloud = ([], Raise (KeyError k)).
Proof.
  intros Hsplit Hpresent Hk. rewrite process_data_unfold.
  unfold derive_fields, remap_frames, compute_tips_distance.
  rewrite Hsplit, lookup_joints_missing; [reflexivity | |].
  - eapply Forall_impl; [exact Hpresent |]. intros name Hname. simpl.
    rewrite remapped_joints_lookup. now apply fmap_is_Some.
  - now rewrite remapped_joints_lookup, Hk.
Qed.

Lemma derive_fields_tips_Ok (self : ManipData) (data : RawSample) (cloud : list Vec3)
    (T : nat) :
  primary_length data T ->
  Forall (fun name => is_Some (raw_mano_joints data !! name)) tip_list ->
  exists tips,
    compute_tips_distance
      (map (mat4_mul (mujoco2gym_transf self)) (raw_obj_trajectory data))
      (rigid_rows (rot_block (mujoco2gym_transf self)) (transl_col (mujoco2gym_transf self))
         <$> raw_mano_joints data) cloud = Ok tips.
Proof.
  intros (Hobj & _ & _ & Hjoints) Htips. apply compute_tips_distance_Ok.
  - intros k p. rewrite lookup_fmap. intros Hk.
    apply fmap_Some in Hk as (p0 & Hp0 & ->).
    rewrite rigid_rows_length, length_map, Hobj. eauto.
  - eapply Forall_impl; [exact Htips |]. intros name Hname. simpl.
    rewrite lookup_fmap. now apply fmap_is_Some.
Qed.

Lemma derive_fields_Ok (self : ManipData) (data : RawSample) (cloud : list Vec3) (T : nat) :
  primary_length data T -> (2 <= T)%nat ->
  skip self <> 0%Z -> (Z.abs (skip self) < rate_underflow)%Z ->
  Forall (fun name => is_Some (raw_mano_joints data !! name)) tip_list ->
  exists pre, derive_fields self data cloud = Ok pre /\ per_frame_length pre T.
Proof.
  intros Hprimary HT Hskip Hrange Htips.
  assert (exists pre, derive_fields self data cloud = Ok pre) as [pre Hpre].
  { destruct (derive_fields_tips_Ok self data cloud T Hprimary Htips) as [tips Htip].
    destruct Hprimary as (Hobj & Hwpos & _ & Hjoints).
    unfold derive_fields, remap_frames.
    rewrite Htip, (time_delta_Ok self Hskip Hrange). simpl.
    rewrite !compute_velocity_unsqueeze.
    destruct (compute_velocity_Ok
                (map transl_col (map (mat4_mul (mujoco2gym_transf self))
                                     (raw_obj_trajectory data)))
                (1 / (120 / IZR (skip self))) true) as (ov & -> & _);
      [rewrite !length_map; lia |]. simpl.
    destruct (compute_velocity_Ok
                (rigid_rows (rot_block (mujoco2gym_transf self))
                            (transl_col (mujoco2gym_transf self)) (raw_wrist_pos data))
                (1 / (120 / IZR (skip self))) true) as (wv & -> & _);
      [rewrite rigid_rows_length; lia |]. simpl.
    destruct (joints_velocity_spec
                (rigid_rows (rot_block (mujoco2gym_transf self))
                            (transl_col (mujoco2gym_transf self)) <$> raw_mano_joints data)
                (1 / (120 / IZR (skip self)))) as (jv & -> & _).
    { intros k p. rewrite lookup_fmap. intros Hk.
      apply fmap_Some in Hk as (p0 & Hp0 & ->).
      rewrite rigid_rows_length, (Hjoints k p0 Hp0). exact HT. }
    simpl. eauto. }
  exists pre. split; [exact Hpre |].
  now destruct (derive_fields_lengths self data cloud pre T Hpre Hprimary).
Qed.

Lemma data_path_raises (self : ManipData) (idx : Z) (e : exn) :
  data_path self idx = Raise e -> e = TypeError \/ e = IndexError.
Proof.
  unfold data_path, py_index. destruct (data_pathes self) as [paths|].
  - destruct (_ <? 0)%Z; [intros [= <-]; now right |].
    destruct (paths !! _); [discriminate | intros [= <-]; now right].
  - intros [= <-]. now left.
Qed.

(** With a time step that can be formed, the single frame of a one-frame
    sample is what stops [process_data]. *)
Lemma process_data_single_frame (self : ManipData) (data : RawSample) (idx : Z)
    (cloud : list Vec3) :
  primary_length data 1 ->
  Forall (fun name => is_Some (raw_mano_joints data !! name)) tip_list ->
  skip self <> 0%Z -> (Z.abs (skip self) < rate_underflow)%Z ->
  process_data self data idx cloud = ([], Raise ValueError).
Proof.
  intros Hprimary Htips Hskip Hrange.
  destruct (derive_fields_tips_Ok self data cloud 1 Hprimary Htips) as [tips Htip].
  destruct Hprimary as (Hobj & _).
  rewrite process_data_unfold. unfold derive_fields, remap_frames.
  rewrite Htip, (time_delta_Ok self Hskip Hrange). simpl.
  rewrite compute_velocity_unsqueeze.
  assert (compute_velocity
            (map transl_col (map (mat4_mul (mujoco2gym_transf self))
                                 (raw_obj_trajectory data)))
            (1 / (120 / IZR (skip self))) true = Raise ValueError) as ->; [| reflexivity].
  unfold compute_velocity, np_gradient. now rewrite !length_map, Hobj.
Qed.

(** X6. On a sample with its five fingertips and primary fields of one
    length [T >= 1], [process_data] raises [ZeroDivisionError] exactly when
    the time step [1 / (120 / skip)] cannot be formed: when [skip] is 0, and
    when [skip] is so large in magnitude ([120 * 2^1075] and beyond) that the
    float [120 / skip] is zero; this happens whatever [T] is and before
    anything is printed. For every other [skip] a sample of a single frame
    makes it raise [ValueError], again with nothing printed. *)
Theorem process_data_skip_and_short (self : ManipData) (data : RawSample) (idx : Z)
    (cloud : list Vec3) (T : nat) :
  primary_length data T -> (1 <= T)%nat ->
  Forall (fun name => is_Some (raw_mano_joints data !! name)) tip_list ->
  (outcome (process_data self data idx cloud) = Raise ZeroDivisionError
   <-> skip self = 0%Z \/ (rate_underflow <= Z.abs (skip self))%Z) /\
  (skip self = 0%Z \/ (rate_underflow <= Z.abs (skip self))%Z ->
   process_data self data idx cloud = ([], Raise ZeroDivisionError)) /\
  (skip self <> 0%Z -> (Z.abs (skip self) < rate_underflow)%Z -> T = 1%nat ->
   process_data self data idx cloud = ([], Raise ValueError)).
Proof.
  intros Hprimary HT Htips.
  destruct (derive_fields_tips_Ok self data cloud T Hprimary Htips) as [tips Htip].
  assert (skip self = 0%Z \/ (rate_underflow <= Z.abs (skip self))%Z ->
          process_data self data idx cloud = ([], Raise ZeroDivisionError)) as Hzero.
  { intros Hskip. rewrite process_data_unfold. unfold derive_fields, remap_frames.
    now rewrite Htip, (time_delta_Raise self Hskip). }
  split; [| split; [exact Hzero |]].
  - split; [| intros Hskip; now rewrite (Hzero Hskip)].
    intros Hraise.
    destruct (Z.eq_dec (skip self) 0%Z) as [| Hskip]; [now left |].
    destruct (Z.le_gt_cases rate_underflow (Z.abs (skip self))) as [| Hrange];
      [now right |].
    exfalso. destruct (Nat.eq_dec T 1%nat) as [-> | Hlong].
    + rewrite (process_data_single_frame self data idx cloud Hprimary Htips Hskip Hrange)
        in Hraise. discriminate.
    + destruct (derive_fields_Ok self data cloud T Hprimary ltac:(lia) Hskip Hrange Htips)
        as (pre & Hpre & _).
      rewrite process_data_unfold, Hpre in Hraise. unfold truncate_too_long in Hraise.
      destruct (_ >? _)%Z; [| discriminate].
      unfold io_bind, io_lift in Hraise.
      destruct (data_path self idx) as [path|e] eqn:Hpath; [discriminate |].
      apply data_path_raises in Hpath. simpl in Hraise.
      destruct Hpath as [-> | ->]; discriminate.
  - intros Hskip Hrange ->.
    exact (process_data_single_frame self data idx cloud Hprimary Htips Hskip Hrange).
Qed.

(** ** process_data: the warning and the dataset paths *)

(** X7. [process_data] prints exactly when it truncates: a call that returns
    on a sample of [T] frames has printed nothing when [T <= max_seq_len],
    and otherwise the single too-long warning, naming [data_pathes[idx]], the
    original length [T] and [max_seq_len]. *)
Theorem process_data_warning (self : ManipData) (data : RawSample) (idx : Z)
    (cloud : list Vec3) (out : list message) (d : Sample) (T : nat) :
  process_data self data idx cloud = (out, Ok d) ->
  primary_length data T ->
  ((Z.of_nat T <= max_seq_len self)%Z -> out = []) /\
  ((Z.of_nat T > max_seq_len self)%Z ->
   exists path, data_path self idx = Ok path /\
                out = [WarnTooLong path T (max_seq_len self)]).
Proof.
  rewrite process_data_unfold. intros Hrun Hprimary.
  destruct (derive_fields self data cloud) as [pre|] eqn:Hpre; [| discriminate].
  destruct (derive_fields_lengths self data cloud pre T Hpre Hprimary) as [_ (Hlen & _)].
  unfold truncate_too_long in Hrun. rewrite Hlen in Hrun.
  destruct (Z.gtb_spec (Z.of_nat T) (max_seq_len self)) as [Hlong | Hfit].
  - unfold io_bind, io_lift in Hrun.
    destruct (data_path self idx) as [path|]; [| discriminate]. simpl in Hrun.
    injection Hrun as <- _. split; [lia |]. intros _. eauto.
  - simpl in Hrun. injection Hrun as <- _. split; [reflexivity | lia].
Qed.


Lemma py_index_Ok_iff {A} (x : list A) (i : Z) :
  (exists a, py_index x i = Ok a)
  <-> (- Z.of_nat (length x) <= i < Z.of_nat (length x))%Z.
Proof.
  unfold py_index. split.
  - intros [a Ha].
    destruct (Z.ltb_spec i 0) as [Hneg | Hpos].
    + destruct (Z.ltb_spec (i + Z.of_nat (length x)) 0); [discriminate | lia].
    + destruct (Z.ltb_spec i 0); [lia |].
      destruct (x !! Z.to_nat i) as [b|] eqn:Hb; [| discriminate].
      apply lookup_lt_Some in Hb. lia.
  - intros Hrange.
    destruct (Z.ltb_spec i 0) as [Hneg | Hpos].
    + destruct (Z.ltb_spec (i + Z.of_nat (length x)) 0); [lia |].
      destruct (lookup_lt_is_Some_2 x (Z.to_nat (i + Z.of_nat (length x)))) as [a ->];
        [lia | eauto].
    + destruct (Z.ltb_spec i 0); [lia |].
      destruct (lookup_lt_is_Some_2 x (Z.to_nat i)) as [a ->]; [lia | eauto].
Qed.

(** X9. [self.data_pathes[idx]], which the too-long warning reads, is
    defined exactly for [-len(self) <= idx < len(self)]: a negative index
    counts from the end, and any other index raises. *)
Theorem data_path_defined_iff (self : ManipData) (idx : Z) (n : nat) :
  dataset_len self = Ok n ->
  ((exists path, data_path self idx = Ok path)
   <-> (- Z.of_nat n <= idx < Z.of_nat n)%Z).
Proof.
  unfold dataset_len, data_path.
  destruct (data_pathes self) as [paths|]; [| discriminate].
  intros [= <-]. apply py_index_Ok_iff.
Qed.

(** ** process_data: the fields it returns *)

Lemma py_slice_to_take {A} (x : list A) (n : Z) :
  (0 <= n)%Z -> py_slice_to x n = take (Z.to_nat n) x.
Proof. intros Hn. unfold py_slice_to. destruct (Z.ltb_spec n 0); [lia | reflexivity]. Qed.

(** X10. What [process_data] returns in its primary fields is the remapped
    input restricted to the first [n = min(T, max_seq_len)] frames:
    [obj_trajectory] holds [F @ M] for the first [n] input poses, [wrist_pos]
    and every [mano_joints[k]] hold [R v + p] for the first [n] input
    positions, and [wrist_rot] the axis-angle of [R @ W] for the first [n]
    input rotations. *)
Theorem process_data_primary_fields (self : ManipData) (data : RawSample) (idx : Z)
    (cloud : list Vec3) (out : list message) (d : Sample) (T : nat) :
  process_data self data idx cloud = (out, Ok d) ->
  primary_length data T ->
  (0 <= max_seq_len self)%Z ->
  let F := mujoco2gym_transf self in
  let rigid := fun v => vadd (mat3_vec (rot_block F) v) (transl_col F) in
  let n := Nat.min T (Z.to_nat (max_seq_len self)) in
  obj_trajectory d = take n (map (mat4_mul F) (raw_obj_trajectory data)) /\
  wrist_pos d = take n (map rigid (raw_wrist_pos data)) /\
  wrist_rot d = take n (map (fun W => rotmat_to_aa (mat3_mul (rot_block F) W))
                            (raw_wrist_rot data)) /\
  mano_joints d = (fun p => take n (map rigid p)) <$> raw_mano_joints data.
Proof.
  intros Hrun Hprimary HL F rigid n.
  apply process_data_inv in Hrun as (pre & Hpre & Hd).
  pose proof (derive_fields_lengths self data cloud pre T Hpre Hprimary) as [_ (Hlen & _)].
  pose proof (derive_fields_inv self data cloud pre Hpre) as Hinv.
  unfold remap_frames in Hinv.
  destruct Hinv as (dt & ov & wv & _ & _ & _ & _ & _ & Eobj & Ewpos & Ewrot & Ejoints & _).
  destruct Hprimary as (Hobj & Hwpos & Hwrot & Hjoints).
  fold F in Eobj, Ewpos, Ewrot, Ejoints.
  rewrite rigid_rows_map in Ewpos. fold rigid in Ewpos.
  assert (mano_joints pre = map rigid <$> raw_mano_joints data) as Ejoints'.
  { rewrite Ejoints. apply map_fmap_ext. intros k p _. apply rigid_rows_map. }
  rewrite Hlen in Hd.
  destruct Hd as [[Hfit ->] | [Hlong ->]].
  - assert (n = T) as -> by lia.
    rewrite Eobj, Ewpos, Ewrot, Ejoints'.
    repeat split; try (rewrite take_ge; [reflexivity | rewrite length_map; lia]).
    apply map_fmap_ext. intros k p Hk.
    rewrite take_ge; [reflexivity |]. rewrite length_map, (Hjoints k p Hk). lia.
  - assert (n = Z.to_nat (max_seq_len self)) as -> by lia.
    simpl. rewrite !py_slice_to_take by exact HL.
    rewrite Eobj, Ewpos, Ewrot, Ejoints'.
    repeat split; try reflexivity.
    rewrite <- map_fmap_compose. apply map_fmap_ext. intros k p _. simpl.
    now rewrite py_slice_to_take.
Qed.


(** X12. [process_data] keeps the set of joint names: [mano_joints] comes
    back with exactly the keys it came with, and [mano_joints_velocity] is
    filled for exactly those keys. *)
Theorem process_data_keeps_joint_names (self : ManipData) (data : RawSample) (idx : Z)
    (cloud : list Vec3) (out : list message) (d : Sample) :
  process_data self data idx cloud = (out, Ok d) ->
  dom (mano_joints d) = dom (raw_mano_joints data) /\
  dom (mano_joints_velocity d) = dom (raw_mano_joints data).
Proof.
  intros Hrun. apply process_data_inv in Hrun as (pre & Hpre & Hd).
  pose proof (derive_fields_inv self data cloud pre Hpre) as Hinv.
  unfold remap_frames in Hinv.
  destruct Hinv as (dt & ov & wv & _ & _ & _ & _ & Hjv & _ & _ & _ & Ejoints & _).
  assert (dom (mano_joints pre) = dom (raw_mano_joints data)) as Hdom
    by (rewrite Ejoints; apply dom_fmap_L).
  assert (dom (mano_joints_velocity pre) = dom (raw_mano_joints data)) as Hdomv.
  { apply set_eq. intros k. rewrite !elem_of_dom.
    pose proof (joints_velocity_inv _ _ _ Hjv k) as Hrel.
    rewrite lookup_fmap in Hrel.
    destruct (raw_mano_joints data !! k), (mano_joints_velocity pre !! k);
      simpl in Hrel; inversion Hrel; split; intros [? ?]; eauto; discriminate. }
  destruct Hd as [[_ ->] | [_ ->]]; [now split |].
  simpl. now rewrite !dom_fmap_L.
Qed.

(** ** process_data: the shape of tips_distance and tips of unequal length *)

Lemma compute_tips_distance_rows (obj : list Mat4) (joints : gmap string (list Vec3))
    (cloud : list Vec3) (tips : list (list R)) :
  compute_tips_distance obj joints cloud = Ok tips ->
  Forall (fun row => length row = length tip_list) tips.
Proof.
  unfold compute_tips_distance.
  destruct (lookup_joints joints tip_list) as [cols|e] eqn:Hcols; [| discriminate].
  apply lookup_joints_inv in Hcols.
  unfold torch_cat_dim1. destruct (same_lengths cols) eqn:Hsame; [| discriminate].
  unfold ch_dist. destruct (Nat.eqb_spec (length (stack_dim1 cols))
                              (length (obj_verts_transf obj cloud))) as [Hlen|]; [| discriminate].
  intros [= <-].
  assert (cols <> []) as Hne.
  { intros ->. apply Forall2_length in Hcols. discriminate. }
  destruct cols as [|c rest]; [congruence |].
  apply same_lengths_inv in Hsame.
  apply Forall_forall. intros row Hrow.
  apply list_elem_of_In, in_map_iff in Hrow as (near & <- & Hnear).
  rewrite length_map.
  apply list_elem_of_In, elem_of_lookup_zip_with in Hnear
    as (t & queries & cl & -> & Hq & _).
  rewrite length_map.
  assert (t < length c)%nat as Ht.
  { apply lookup_lt_Some in Hq.
    now rewrite (stack_dim1_length _ (length c) Hne Hsame) in Hq. }
  destruct (stack_dim1_lookup _ (length c) t Hne Hsame Ht) as (row & Hrow & Hall).
  rewrite Hrow in Hq. injection Hq as <-.
  apply Forall2_length in Hall, Hcols. congruence.
Qed.

(** X13. [tips_distance] comes back as one row per returned frame of
    [obj_trajectory], each row holding five distances, one per fingertip. *)
Theorem tips_distance_shape (self : ManipData) (data : RawSample) (idx : Z)
    (cloud : list Vec3) (out : list message) (d : Sample) :
  process_data self data idx cloud = (out, Ok d) ->
  length (tips_distance d) = length (obj_trajectory d) /\
  Forall (fun row => length row = 5%nat) (tips_distance d).
Proof.
  intros Hrun. apply process_data_inv in Hrun as (pre & Hpre & Hd).
  pose proof (derive_fields_inv self data cloud pre Hpre) as Hinv.
  unfold remap_frames in Hinv.
  destruct Hinv as (dt & ov & wv & _ & Htips & _ & _ & _ & Eobj & _).
  pose proof (compute_tips_distance_rows _ _ _ _ Htips) as Hrows.
  apply compute_tips_distance_lookup in Htips as [Hlen _]. rewrite <- Eobj in Hlen.
  destruct Hd as [[_ ->] | [_ ->]]; [split; [exact Hlen | exact Hrows] |].
  simpl. unfold py_slice_to.
  destruct (max_seq_len self <? 0)%Z; rewrite !length_take, Hlen;
    (split; [reflexivity | now apply Forall_take]).
Qed.

Lemma same_lengths_false (cols : list (list Vec3)) (i j : nat) (p q : list Vec3) :
  cols !! i = Some p -> cols !! j = Some q -> length p <> length q ->
  same_lengths cols = false.
Proof.
  intros Hp Hq Hne. destruct (same_lengths cols) eqn:Hsame; [| reflexivity].
  destruct cols as [|c rest]; [discriminate |].
  apply same_lengths_inv in Hsame.
  pose proof (Forall_lookup_1 _ _ _ _ Hsame Hp).
  pose proof (Forall_lookup_1 _ _ _ _ Hsame Hq). simpl in *. congruence.
Qed.

(** X14. When two of the five fingertip series have different numbers of
    frames, [process_data] raises [RuntimeError] (they cannot be
    concatenated) and prints nothing. *)
Theorem process_data_unequal_tips (self : ManipData) (data : RawSample) (idx : Z)
    (cloud : list Vec3) (i j : nat) (name_i name_j : string) (p q : list Vec3) :
  Forall (fun name => is_Some (raw_mano_joints data !! name)) tip_list ->
  tip_list !! i = Some name_i -> tip_list !! j = Some name_j ->
  raw_mano_joints data !! name_i = Some p ->
  raw_mano_joints data !! name_j = Some q ->
  length p <> length q ->
  process_data self data idx cloud = ([], Raise RuntimeError).
Proof.
  intros Htips Hi Hj Hp Hq Hne. rewrite process_data_unfold.
  unfold derive_fields, remap_frames, compute_tips_distance.
  destruct (lookup_joints_Ok
              (rigid_rows (rot_block (mujoco2gym_transf self))
                          (transl_col (mujoco2gym_transf self)) <$> raw_mano_joints data)
              tip_list) as [cols Hcols].
  { eapply Forall_impl; [exact Htips |]. intros name Hname. simpl.
    rewrite lookup_fmap. now apply fmap_is_Some. }
  rewrite Hcols. apply lookup_joints_inv in Hcols.
  destruct (Forall2_lookup_l _ _ _ _ _ Hcols Hi) as (ci & Hci & Hji).
  destruct (Forall2_lookup_l _ _ _ _ _ Hcols Hj) as (cj & Hcj & Hjj).
  rewrite lookup_fmap, Hp in Hji. rewrite lookup_fmap, Hq in Hjj.
  injection Hji as <-. injection Hjj as <-.
  unfold torch_cat_dim1.
  rewrite (same_lengths_false cols i j _ _ Hci Hcj); [reflexivity |].
  now rewrite !rigid_rows_length.
Qed.

(** ** load_retargeted_data: the two branches *)

Lemma load_retargeted_fields_run (self : ManipData) (fs : gmap string OptParams)
    (data : Sample) (path : string) (out : list message) (opt : OptParams) (dt : R)
    (vel : list Vec3) (dv : list (list R)) :
  opt_bundle self fs data path = (out, Ok opt) ->
  time_delta self = Ok dt ->
  compute_velocity (art_opt_wrist_pos opt) dt true = Ok vel ->
  compute_dof_velocity (art_opt_dof_pos opt) dt true = Ok dv ->
  let pre := {| primary := data;
                opt_wrist_pos := art_opt_wrist_pos opt;
                opt_wrist_rot := art_opt_wrist_rot opt;
                opt_dof_pos := art_opt_dof_pos opt;
                opt_wrist_velocity := vel;
                opt_wrist_angular_velocity :=
                  squeeze1 (compute_angular_velocity
                              (map (map aa_to_rotmat) (unsqueeze1 (art_opt_wrist_rot opt)))
                              dt true);
                opt_dof_velocity := dv |} in
  load_retargeted_fields self fs data path
  = (out, Ok (if (Z.of_nat (length (art_opt_wrist_pos opt)) >? max_seq_len self)%Z
              then truncate_opt self pre else pre)).
Proof.
  intros Hopt Hdt Hvel Hdv pre. unfold load_retargeted_fields, io_bind, io_lift.
  rewrite Hopt, Hdt, compute_velocity_unsqueeze, Hvel, Hdv. cbn [opt_wrist_pos].
  rewrite squeeze1_unsqueeze1. fold pre.
  destruct (Z.of_nat (length (art_opt_wrist_pos opt)) >? max_seq_len self)%Z;
    simpl; now rewrite !app_nil_r.
Qed.

Lemma load_retargeted_data_raise (self : ManipData) (fs : gmap string OptParams)
    (data : Sample) (path : string) (out : list message) (e : exn) :
  load_retargeted_fields self fs data path = (out, Raise e) ->
  load_retargeted_data self fs data path = (out, Raise e).
Proof. intros Hfields. unfold load_retargeted_data, io_bind. now rewrite Hfields. Qed.

(** X15. Without a hand model ([dexhand] left at its default [None]) and
    without an artifact at the path, [load_retargeted_data] raises
    [AttributeError] when it sizes the zero array, after the advisory warning
    has been printed if [verbose] is set. *)
Theorem load_retargeted_data_without_hand (self : ManipData)
    (fs : gmap string OptParams) (data : Sample) (path : string) :
  fs !! path = None -> dexhand self = None ->
  load_retargeted_data self fs data path
  = (if verbose self then [WarnDoesNotExist path; WarnSlowTransfer; WarnRunRetargeting]
     else [],
     Raise AttributeError).
Proof.
  intros Hnone Hhand. apply load_retargeted_data_raise.
  unfold load_retargeted_fields, io_bind.
  rewrite (opt_bundle_absent self fs data path Hnone), Hhand. reflexivity.
Qed.

Lemma opt_bundle_present (self : ManipData) (fs : gmap string OptParams) (data : Sample)
    (path : string) (art : OptParams) :
  fs !! path = Some art -> opt_bundle self fs data path = ([], Ok art).
Proof. intros Hart. unfold opt_bundle. now rewrite Hart. Qed.

(** X16. With an artifact at the path whose [opt_wrist_pos] and
    [opt_dof_pos] have [T' >= 2] frames, [load_retargeted_data] prints
    nothing. When the time step [1 / (120 / skip)] cannot be formed ([skip]
    is 0, or [120 * 2^1075] and beyond in magnitude, where the float
    [120 / skip] is zero) it raises [ZeroDivisionError]. For every other
    [skip] it takes the [opt_*] arrays from the artifact, cut to
    [max_seq_len] when [T'] exceeds it; it returns exactly when
    [min(T', max_seq_len)] is the length of [obj_trajectory], and raises
    [AssertionError] for an artifact of any other length. *)
Theorem load_retargeted_data_present (self : ManipData) (fs : gmap string OptParams)
    (data : Sample) (path : string) (art : OptParams) (T' : nat) :
  fs !! path = Some art ->
  length (art_opt_wrist_pos art) = T' -> length (art_opt_dof_pos art) = T' ->
  (2 <= T')%nat -> (0 <= max_seq_len self)%Z ->
  let L := Z.to_nat (max_seq_len self) in
  (skip self = 0%Z \/ (rate_underflow <= Z.abs (skip self))%Z ->
   load_retargeted_data self fs data path = ([], Raise ZeroDivisionError)) /\
  (skip self <> 0%Z -> (Z.abs (skip self) < rate_underflow)%Z ->
   (Nat.min T' L = length (obj_trajectory data) ->
    exists r, load_retargeted_data self fs data path = ([], Ok r) /\
      primary r = data /\
      opt_wrist_pos r = take L (art_opt_wrist_pos art) /\
      opt_wrist_rot r = (if (Z.of_nat T' >? max_seq_len self)%Z
                         then take L (art_opt_wrist_rot art) else art_opt_wrist_rot art) /\
      opt_dof_pos r = take L (art_opt_dof_pos art)) /\
   (Nat.min T' L <> length (obj_trajectory data) ->
    load_retargeted_data self fs data path = ([], Raise AssertionError))).
Proof.
  intros Hart Hpos Hdof HT HL L. split.
  { intros Hskip. apply load_retargeted_data_raise.
    unfold load_retargeted_fields, io_bind, io_lift.
    now rewrite (opt_bundle_present self fs data path art Hart),
                (time_delta_Raise self Hskip). }
  intros Hskip Hrange.
  destruct (compute_velocity_Ok (art_opt_wrist_pos art) (1 / (120 / IZR (skip self))) true)
    as (vel & Hvel & _); [lia |].
  destruct (compute_dof_velocity_Ok (art_opt_dof_pos art) (1 / (120 / IZR (skip self))) true)
    as (dv & Hdv & _); [lia |].
  pose proof (load_retargeted_fields_run self fs data path [] art _ vel dv
                (opt_bundle_present self fs data path art Hart)
                (time_delta_Ok self Hskip Hrange) Hvel Hdv) as Hrun.
  cbv zeta in Hrun. rewrite Hpos in Hrun.
  assert (forall r, load_retargeted_fields self fs data path = ([], Ok r) ->
            (length (opt_wrist_pos r) = length (obj_trajectory (primary r)) ->
             load_retargeted_data self fs data path = ([], Ok r)) /\
            (length (opt_wrist_pos r) <> length (obj_trajectory (primary r)) ->
             load_retargeted_data self fs data path = ([], Raise AssertionError))) as Hassert.
  { intros r Hr. unfold load_retargeted_data, io_bind, assert_same_length. rewrite Hr.
    split; intros Hlen.
    - apply Nat.eqb_eq in Hlen. now rewrite Hlen.
    - apply Nat.eqb_neq in Hlen. now rewrite Hlen. }
  destruct (Hassert _ Hrun) as [Hok Hbad]. clear Hassert.
  destruct (Z.gtb_spec (Z.of_nat T') (max_seq_len self)) as [Hlong | Hfit];
    simpl in Hok, Hbad.
  - assert (length (py_slice_to (art_opt_wrist_pos art) (max_seq_len self))
            = Nat.min T' L) as Hcut
      by (rewrite py_slice_to_length, Hpos by exact HL; unfold L; lia).
    rewrite Hcut in Hok, Hbad.
    split; [| exact Hbad]. intros Hlen. eexists. split; [exact (Hok Hlen) |].
    simpl. rewrite !py_slice_to_take by exact HL. repeat split; reflexivity.
  - rewrite Hpos in Hok, Hbad.
    assert (Nat.min T' L = T') as Hmin by (unfold L; lia). rewrite Hmin.
    split; [| exact Hbad]. intros Hlen. eexists. split; [exact (Hok Hlen) |].
    simpl. repeat split; try reflexivity;
      (rewrite take_ge; [reflexivity | unfold L; lia]).
Qed.

(** ** load_retargeted_data: the lengths of the opt fields *)

Lemma load_retargeted_fields_full_inv (self : ManipData) (fs : gmap string OptParams)
    (data : Sample) (path : string) (out : list message) (r : Retargeted) :
  load_retargeted_fields self fs data path = (out, Ok r) ->
  exists opt dt vel dv,
    opt_bundle self fs data path = (out, Ok opt) /\
    time_delta self = Ok dt /\
    compute_velocity (art_opt_wrist_pos opt) dt true = Ok vel /\
    compute_dof_velocity (art_opt_dof_pos opt) dt true = Ok dv /\
    let pre := {| primary := data;
                  opt_wrist_pos := art_opt_wrist_pos opt;
                  opt_wrist_rot := art_opt_wrist_rot opt;
                  opt_dof_pos := art_opt_dof_pos opt;
                  opt_wrist_velocity := vel;
                  opt_wrist_angular_velocity :=
                    squeeze1 (compute_angular_velocity
                                (map (map aa_to_rotmat) (unsqueeze1 (art_opt_wrist_rot opt)))
                                dt true);
                  opt_dof_velocity := dv |} in
    r = (if (Z.of_nat (length (art_opt_wrist_pos opt)) >? max_seq_len self)%Z
         then truncate_opt self pre else pre).
Proof.
  intros Hrun.
  destruct (opt_bundle self fs data path) as [out0 [opt|e]] eqn:Hopt;
    [| unfold load_retargeted_fields, io_bind in Hrun; rewrite Hopt in Hrun; discriminate].
  destruct (time_delta self) as [dt|] eqn:Hdt;
    [| unfold load_retargeted_fields, io_bind, io_lift in Hrun;
       rewrite Hopt, Hdt in Hrun; discriminate].
  destruct (compute_velocity (art_opt_wrist_pos opt) dt true) as [vel|] eqn:Hvel;
    [| unfold load_retargeted_fields, io_bind, io_lift in Hrun;
       rewrite Hopt, Hdt, compute_velocity_unsqueeze, Hvel in Hrun; discriminate].
  destruct (compute_dof_velocity (art_opt_dof_pos opt) dt true) as [dv|] eqn:Hdv;
    [| unfold load_retargeted_fields, io_bind, io_lift in Hrun;
       rewrite Hopt, Hdt, compute_velocity_unsqueeze, Hvel, Hdv in Hrun; discriminate].
  rewrite (load_retargeted_fields_run self fs data path out0 opt dt vel dv
             Hopt Hdt Hvel Hdv) in Hrun.
  injection Hrun as <- <-. exists opt, dt, vel, dv.
  split; [reflexivity |]. split; [first [exact Hdt | reflexivity] |].
  split; [exact Hvel |]. split; [exact Hdv | reflexivity].
Qed.

(** X17. When the three arrays the [opt_*] fields are filled from (the
    artifact's, or [wrist_pos], [wrist_rot] and the zero array) have one
    length [T'], a call of [load_retargeted_data] that returns leaves all six
    [opt_*] fields, the three velocities included, with
    [min(T', max_seq_len)] frames, the length of [obj_trajectory]. *)
Theorem load_retargeted_data_opt_lengths (self : ManipData) (fs : gmap string OptParams)
    (data : Sample) (path : string) (out : list message) (r : Retargeted)
    (opt : OptParams) (T' : nat) :
  load_retargeted_data self fs data path = (out, Ok r) ->
  outcome (opt_bundle self fs data path) = Ok opt ->
  length (art_opt_wrist_pos opt) = T' -> length (art_opt_wrist_rot opt) = T' ->
  length (art_opt_dof_pos opt) = T' ->
  (0 <= max_seq_len self)%Z ->
  let n := Nat.min T' (Z.to_nat (max_seq_len self)) in
  length (opt_wrist_pos r) = n /\ length (opt_wrist_rot r) = n /\
  length (opt_dof_pos r) = n /\ length (opt_wrist_velocity r) = n /\
  length (opt_wrist_angular_velocity r) = n /\ length (opt_dof_velocity r) = n /\
  length (obj_trajectory data) = n.
Proof.
  intros Hrun Hopt Hpos Hrot Hdof HL n.
  apply load_retargeted_data_inv in Hrun as [Hfields Hassert].
  apply load_retargeted_fields_full_inv in Hfields
    as (opt' & dt & vel & dv & Hopt' & _ & Hvel & Hdv & Hr).
  unfold outcome in Hopt. rewrite Hopt' in Hopt. injection Hopt as ->.
  apply compute_velocity_inv in Hvel as [HT Hvel].
  apply compute_dof_velocity_inv in Hdv as [_ Hdv].
  rewrite Hpos in HT, Hvel. rewrite Hdof in Hdv.
  destruct (compute_angular_velocity_unsqueeze
              (map aa_to_rotmat (art_opt_wrist_rot opt)) dt true)
    as (ang & Hang & Hanglen); [rewrite length_map; lia |].
  rewrite length_map, Hrot in Hanglen.
  assert (map (map aa_to_rotmat) (unsqueeze1 (art_opt_wrist_rot opt))
          = unsqueeze1 (map aa_to_rotmat (art_opt_wrist_rot opt))) as Hun
    by (unfold unsqueeze1; now rewrite !map_map).
  cbv zeta in Hr. rewrite Hun, Hang, squeeze1_unsqueeze1, Hpos in Hr.
  assert (primary r = data) as Hprimary
    by (rewrite Hr; now destruct (Z.of_nat T' >? max_seq_len self)%Z).
  rewrite Hprimary in Hassert. rewrite <- Hassert.
  rewrite Hr. destruct (Z.gtb_spec (Z.of_nat T') (max_seq_len self)) as [Hlong | Hfit]; simpl.
  - rewrite !py_slice_to_length by exact HL. unfold n. repeat split; lia.
  - unfold n. repeat split; lia.
Qed.

(** ** process_data followed by the fallback of load_retargeted_data *)

Lemma process_data_truncates_every_field_aux (self : ManipData) (data : RawSample)
    (idx : Z) (cloud : list Vec3) (out : list message) (d : Sample) (T : nat) :
  process_data self data idx cloud = (out, Ok d) ->
  primary_length data T ->
  (0 <= max_seq_len self)%Z ->
  per_frame_length d (Nat.min T (Z.to_nat (max_seq_len self))).
Proof.
  intros Hrun Hprimary HL.
  apply process_data_inv in Hrun as (pre & Hpre & Hd).
  destruct (derive_fields_lengths self data cloud pre T Hpre Hprimary) as [_ Hlen].
  destruct Hd as [[Hfit ->] | [_ ->]].
  - destruct Hlen as (Hobj & Hrest). rewrite Hobj in Hfit.
    replace (Nat.min T (Z.to_nat (max_seq_len self))) with T by lia.
    split; [exact Hobj | exact Hrest].
  - now apply truncate_sample_length.
Qed.

Lemma torch_zeros_replicate (t d : nat) :
  torch_zeros t d = replicate t (replicate d 0).
Proof.
  unfold torch_zeros.
  assert (forall A (x : A) n, repeat x n = replicate n x) as Hrep
    by (intros A x n; induction n; simpl; congruence).
  now rewrite !Hrep.
Qed.

Lemma process_data_time_delta (self : ManipData) (data : RawSample) (idx : Z)
    (cloud : list Vec3) (out : list message) (d : Sample) :
  process_data self data idx cloud = (out, Ok d) ->
  time_delta self = Ok (1 / (120 / IZR (skip self))).
Proof.
  intros Hrun. apply process_data_inv in Hrun as (pre & Hpre & _).
  pose proof (derive_fields_inv self data cloud pre Hpre) as Hinv.
  destruct (remap_frames self data) as [[[obj wpos] wrot] joints].
  destruct Hinv as (dt & _ & _ & Hdt & _).
  destruct (time_delta_Ok_inv self dt Hdt) as (Hskip & Hrange & _).
  now apply time_delta_Ok.
Qed.

(** The fallback on the sample [process_data] returned, written out. *)
Lemma fallback_after_process_data (self : ManipData) (data : RawSample) (idx : Z)
    (cloud : list Vec3) (out : list message) (d : Sample) (T D : nat)
    (fs : gmap string OptParams) (path : string) :
  process_data self data idx cloud = (out, Ok d) ->
  primary_length data T -> (2 <= max_seq_len self)%Z ->
  fs !! path = None -> dexhand self = Some D ->
  let n := Nat.min T (Z.to_nat (max_seq_len self)) in
  let dt := 1 / (120 / IZR (skip self)) in
  exists vel,
    compute_velocity (wrist_pos d) dt true = Ok vel /\
    load_retargeted_data self fs d path
    = (if verbose self then [WarnDoesNotExist path; WarnSlowTransfer; WarnRunRetargeting]
       else [],
       Ok {| primary := d;
             opt_wrist_pos := wrist_pos d;
             opt_wrist_rot := wrist_rot d;
             opt_dof_pos := torch_zeros n D;
             opt_wrist_velocity := vel;
             opt_wrist_angular_velocity :=
               squeeze1 (compute_angular_velocity
                           (map (map aa_to_rotmat) (unsqueeze1 (wrist_rot d))) dt true);
             opt_dof_velocity := torch_zeros n D |}).
Proof.
  intros Hrun Hprimary HL Hnone Hhand n dt.
  pose proof (process_data_time_delta _ _ _ _ _ _ Hrun) as Hstep.
  assert (per_frame_length d n) as (Hobj & Hwpos & _).
  { apply (process_data_truncates_every_field_aux self data idx cloud out d T);
      [exact Hrun | exact Hprimary | lia]. }
  assert (2 <= n)%nat as Hn.
  { apply process_data_inv in Hrun as (pre & Hpre & _).
    destruct (derive_fields_lengths self data cloud pre T Hpre Hprimary) as [HT _].
    unfold n. lia. }
  destruct (compute_velocity_Ok (wrist_pos d) dt true) as (vel & Hvel & _); [lia |].
  exists vel. split; [exact Hvel |].
  assert (compute_dof_velocity (torch_zeros n D) dt true = Ok (torch_zeros n D)) as Hdv.
  { rewrite torch_zeros_replicate.
    apply (compute_velocity_null (replicate D 0) n dt true); [| exact Hn].
    apply null_frame_row, null_frame_R. }
  pose proof (opt_bundle_absent self fs d path Hnone) as Hopt.
  rewrite Hhand, Hwpos in Hopt.
  pose proof (load_retargeted_fields_run self fs d path _ _ dt vel (torch_zeros n D)
                Hopt Hstep Hvel Hdv) as Hfields.
  cbv zeta in Hfields. cbn [art_opt_wrist_pos art_opt_wrist_rot art_opt_dof_pos] in Hfields.
  rewrite Hwpos in Hfields.
  destruct (Z.gtb_spec (Z.of_nat n) (max_seq_len self)) as [Hlong | _];
    [unfold n in Hlong; lia |].
  unfold load_retargeted_data, io_bind. rewrite Hfields.
  unfold assert_same_length. cbn [opt_wrist_pos primary].
  rewrite Hwpos, Hobj, Nat.eqb_refl. simpl. now rewrite app_nil_r.
Qed.

(** X18. After [process_data] with a bound of at least two frames, the
    fallback of [load_retargeted_data] always passes its final assertion:
    on a dataset with a hand model and no artifact at the path it returns,
    with [opt_wrist_pos] and [opt_wrist_rot] equal to the sample's
    [wrist_pos] and [wrist_rot], nothing cut a second time, and with
    [opt_dof_pos] and [opt_dof_velocity] both zero arrays of shape [n×D],
    [n = min(T, max_seq_len)]. *)
Theorem process_data_then_fallback (self : ManipData) (data : RawSample) (idx : Z)
    (cloud : list Vec3) (out : list message) (d : Sample) (T D : nat)
    (fs : gmap string OptParams) (path : string) :
  process_data self data idx cloud = (out, Ok d) ->
  primary_length data T -> (2 <= max_seq_len self)%Z ->
  fs !! path = None -> dexhand self = Some D ->
  let n := Nat.min T (Z.to_nat (max_seq_len self)) in
  exists r,
    load_retargeted_data self fs d path
    = (if verbose self then [WarnDoesNotExist path; WarnSlowTransfer; WarnRunRetargeting]
       else [], Ok r) /\
    primary r = d /\
    opt_wrist_pos r = wrist_pos d /\ opt_wrist_rot r = wrist_rot d /\
    opt_dof_pos r = torch_zeros n D /\ opt_dof_velocity r = torch_zeros n D.
Proof.
  intros Hrun Hprimary HL Hnone Hhand n.
  destruct (fallback_after_process_data self data idx cloud out d T D fs path
              Hrun Hprimary HL Hnone Hhand) as (vel & _ & Hload).
  eexists. split; [exact Hload |]. simpl. repeat split; reflexivity.
Qed.

(** X19. When [process_data] did not have to truncate ([T <= max_seq_len]),
    the velocities the fallback recomputes from [wrist_pos] and [wrist_rot]
    are the ones [process_data] stored: [opt_wrist_velocity] equals
    [wrist_velocity] and [opt_wrist_angular_velocity] equals
    [wrist_angular_velocity]. *)
Theorem fallback_velocities_agree (self : ManipData) (data : RawSample) (idx : Z)
    (cloud : list Vec3) (out out' : list message) (d : Sample) (r : Retargeted)
    (T D : nat) (fs : gmap string OptParams) (path : string) :
  process_data self data idx cloud = (out, Ok d) ->
  primary_length data T -> (2 <= max_seq_len self)%Z ->
  (Z.of_nat T <= max_seq_len self)%Z ->
  fs !! path = None -> dexhand self = Some D ->
  load_retargeted_data self fs d path = (out', Ok r) ->
  opt_wrist_velocity r = wrist_velocity d /\
  opt_wrist_angular_velocity r = wrist_angular_velocity d.
Proof.
  intros Hrun Hprimary HL Hfit Hnone Hhand Hload.
  destruct (fallback_after_process_data self data idx cloud out d T D fs path
              Hrun Hprimary HL Hnone Hhand) as (vel & Hvel & Hload').
  rewrite Hload' in Hload. injection Hload as _ <-. simpl.
  pose proof (process_data_time_delta _ _ _ _ _ _ Hrun) as Hstep.
  apply process_data_inv in Hrun as (pre & Hpre & Hd).
  destruct (derive_fields_lengths self data cloud pre T Hpre Hprimary)
    as [_ (Hlen & _)].
  destruct Hd as [[_ ->] | [Hlong _]]; [| lia].
  pose proof (derive_fields_inv self data cloud pre Hpre) as Hinv.
  destruct (remap_frames self data) as [[[obj wpos] wrot] joints].
  destruct Hinv as (dt & ov & wv & Hdt & _ & _ & Hwv & _ & _ & Ewpos & Ewrot & _
                    & _ & _ & Ewv & Ewa).
  rewrite Hstep in Hdt. injection Hdt as <-.
  rewrite Ewv, Ewa, Ewrot. rewrite Ewpos in Hvel.
  rewrite compute_velocity_unsqueeze, Hvel in Hwv. injection Hwv as <-.
  now rewrite squeeze1_unsqueeze1.
Qed.

(** ** random_sampling_pc: when it raises and what it puts back *)

Section SurfaceSamplerFurther.
Variable RngState : Type.
Variables np_seeded torch_seeded cuda_seeded : Z -> RngState.
Variable Mesh : Type.
Variable sample_points_from_meshes :
  Mesh -> nat -> Generators RngState -> list (list Vec3) * Generators RngState.

Local Abbreviation process := (Process RngState).
Local Abbreviation sampling :=
  (random_sampling_pc np_seeded torch_seeded cuda_seeded sample_points_from_meshes).

(** X20. [random_sampling_pc] returns a cloud exactly when the process has
    a current CUDA device; without one it raises at the reading of the CUDA
    generator and leaves the whole process state, the generators and the
    cuDNN flags, as it found it: nothing has been reseeded yet. *)
Theorem random_sampling_pc_needs_cuda (mesh : Mesh) (w : process) :
  ((exists pc, fst (random_sampling_pc np_seeded torch_seeded cuda_seeded
                      sample_points_from_meshes mesh w) = Ok pc)
   <-> (cuda_current_device w < length (torch_cuda (generators w)))%nat) /\
  ((length (torch_cuda (generators w)) <= cuda_current_device w)%nat ->
   exists e, random_sampling_pc np_seeded torch_seeded cuda_seeded
               sample_points_from_meshes mesh w = (Raise e, w)).
Proof.
  split; [split |].
  - intros [pc Hpc].
    destruct (torch_cuda_get_rng_state w) as [s|] eqn:Hs.
    + now apply lookup_lt_Some in Hs.
    + rewrite (random_sampling_pc_no_cuda _ _ _ _ _ _ mesh w Hs) in Hpc. discriminate.
  - intros Hlt. destruct (lookup_lt_is_Some_2 _ _ Hlt) as [s Hs].
    rewrite (random_sampling_pc_run _ _ _ _ _ _ mesh w s Hs). simpl. eauto.
  - intros Hge. eexists. apply random_sampling_pc_no_cuda. now apply lookup_ge_None_2.
Qed.

(** X21. Around a sampler that keeps the list of CUDA devices,
    [random_sampling_pc] puts back exactly what it saved: after the call
    NumPy's generator, Torch's CPU generator and the generator of the
    current CUDA device are in the state they had before it, and the current
    device is the same. *)
Theorem random_sampling_pc_restores_saved (mesh : Mesh) (w : process) :
  (forall m n g, length (torch_cuda (snd (sample_points_from_meshes m n g)))
                 = length (torch_cuda g)) ->
  is_Some (torch_cuda_get_rng_state w) ->
  let w' := snd (sampling mesh w) in
  np_random (generators w') = np_random (generators w) /\
  torch_cpu (generators w') = torch_cpu (generators w) /\
  torch_cuda_get_rng_state w' = torch_cuda_get_rng_state w /\
  cuda_current_device w' = cuda_current_device w /\
  length (torch_cuda (generators w')) = length (torch_cuda (generators w)).
Proof.
  intros Hkeep [s Hs]. rewrite (random_sampling_pc_run _ _ _ _ _ _ mesh w s Hs). simpl.
  unfold torch_cuda_get_rng_state in *. simpl.
  assert (length (torch_cuda (snd (sample_points_from_meshes mesh 1000
            (reseeded np_seeded torch_seeded cuda_seeded
               (length (torch_cuda (generators w)))))))
          = length (torch_cuda (generators w))) as Hlen.
  { rewrite Hkeep. unfold reseeded. simpl. apply length_replicate. }
  repeat split; try reflexivity.
  - rewrite Hs. apply list_lookup_insert_eq. rewrite Hlen.
    now apply lookup_lt_Some in Hs.
  - now rewrite length_insert.
Qed.

(** X22. The lasting effects of [random_sampling_pc] happen once: around
    a sampler that keeps the list of CUDA devices, a second call on the same
    mesh returns the same cloud and leaves the process exactly as the first
    call left it. *)
Theorem random_sampling_pc_twice (mesh : Mesh) (w : process) :
  (forall m n g, length (torch_cuda (snd (sample_points_from_meshes m n g)))
                 = length (torch_cuda g)) ->
  is_Some (torch_cuda_get_rng_state w) ->
  sampling mesh (snd (sampling mesh w)) = sampling mesh w.
Proof.
  intros Hkeep [s Hs].
  assert (length (torch_cuda (snd (sample_points_from_meshes mesh 1000
            (reseeded np_seeded torch_seeded cuda_seeded
               (length (torch_cuda (generators w)))))))
          = length (torch_cuda (generators w))) as Hlen.
  { rewrite Hkeep. unfold reseeded. simpl. apply length_replicate. }
  rewrite (random_sampling_pc_run _ _ _ _ _ _ mesh w s Hs). cbv zeta.
  cbn [snd].
  rewrite (random_sampling_pc_run _ _ _ _ _ _ mesh _ s).
  - cbn [generators torch_cuda np_random torch_cpu cuda_current_device].
    rewrite length_insert, Hlen. cbv zeta. reflexivity.
  - unfold torch_cuda_get_rng_state. simpl.
    apply list_lookup_insert_eq. rewrite Hlen. now apply lookup_lt_Some in Hs.
Qed.
End SurfaceSamplerFurther.

(** ** The further properties at concrete inputs *)

Lemma compute_velocity_uniform_motion_witness :
  (2 <= 5)%nat /\
  compute_velocity (uniform_motion vzero (mkVec3 1 0 0) 5) (1 / 60) true
  = Ok (replicate 5 (vdiv_s (mkVec3 1 0 0) (1 / 60))).
Proof.
  assert (2 <= 5)%nat as H5 by lia.
  split; [exact H5 |].
  exact (compute_velocity_uniform_motion vzero (mkVec3 1 0 0) 5 (1 / 60) true H5).
Defined.

Lemma I3_orthonormal : mat3_mul I3 (mat3_transpose I3) = I3.
Proof. apply mat3_mul_transpose_I3. Qed.

Lemma compute_angular_velocity_at_rest_witness :
  compute_angular_velocity (replicate 3 [I3]) (1 / 60) true = replicate 3 [vzero].
Proof.
  apply (compute_angular_velocity_at_rest [I3] 3 (1 / 60) true).
  - constructor; [exact I3_orthonormal | constructor].
  - lia.
Defined.

Lemma compute_angular_velocity_short_witness :
  (length [[I3]] < 2)%nat /\ compute_angular_velocity [[I3]] (1 / 60) false = [].
Proof.
  assert (length [[I3]] < 2)%nat as Hlen by (simpl; lia).
  split; [exact Hlen |].
  exact (compute_angular_velocity_short [[I3]] (1 / 60) Hlen).
Defined.

Lemma process_data_missing_tip_witness :
  process_data example_self example_raw_no_joints 0 example_cloud
  = ([], Raise (KeyError "thumb_tip")).
Proof.
  apply (process_data_missing_tip example_self example_raw_no_joints 0 example_cloud
           [] ["index_tip"; "middle_tip"; "ring_tip"; "pinky_tip"]%string "thumb_tip").
  - reflexivity.
  - constructor.
  - reflexivity.
Defined.

Lemma example_raw_has_tips :
  Forall (fun name => is_Some (raw_mano_joints example_raw !! name)) tip_list.
Proof. repeat constructor; eexists; reflexivity. Qed.

Lemma example_raw_single_primary_length : primary_length example_raw_single 1.
Proof.
  repeat split; try reflexivity.
  intros k p Hk. apply elem_of_list_to_map_2 in Hk.
  repeat (apply elem_of_cons in Hk as [[= -> ->] | Hk]; [reflexivity |]).
  now apply elem_of_nil in Hk.
Qed.

Lemma example_raw_single_has_tips :
  Forall (fun name => is_Some (raw_mano_joints example_raw_single !! name)) tip_list.
Proof. repeat constructor; eexists; reflexivity. Qed.

Lemma process_data_skip_and_short_witness :
  process_data zero_skip_self example_raw 0 example_cloud = ([], Raise ZeroDivisionError) /\
  process_data huge_skip_self example_raw 0 example_cloud = ([], Raise ZeroDivisionError) /\
  process_data example_self example_raw_single 0 example_cloud = ([], Raise ValueError).
Proof.
  split; [| split].
  - destruct (process_data_skip_and_short zero_skip_self example_raw 0 example_cloud 3
                example_raw_primary_length) as (_ & Hzero & _);
      [lia | exact example_raw_has_tips |].
    apply Hzero. left. reflexivity.
  - destruct (process_data_skip_and_short huge_skip_self example_raw 0 example_cloud 3
                example_raw_primary_length) as (_ & Hzero & _);
      [lia | exact example_raw_has_tips |].
    apply Hzero. right. apply Z.leb_le. vm_compute. reflexivity.
  - destruct (process_data_skip_and_short example_self example_raw_single 0 example_cloud 1
                example_raw_single_primary_length) as (_ & _ & Hshort);
      [lia | exact example_raw_single_has_tips |].
    apply Hshort; [discriminate | apply Z.ltb_lt; vm_compute; reflexivity | reflexivity].
Defined.

Lemma process_data_warning_witness :
  exists out d, process_data example_self example_raw 0 example_cloud = (out, Ok d) /\
                out = [WarnTooLong "seq_000" 3 2].
Proof.
  eexists _, _. split; [reflexivity |].
  destruct (process_data_warning example_self example_raw 0 example_cloud _ _ 3
              eq_refl example_raw_primary_length) as [_ Hlong].
  destruct Hlong as (path & Hpath & Hout); [simpl; lia |].
  injection Hpath as <-. exact Hout.
Defined.


Lemma data_path_defined_iff_witness :
  dataset_len example_self = Ok 1%nat /\
  ((exists path, data_path example_self (-1) = Ok path)
   <-> (- Z.of_nat 1 <= -1 < Z.of_nat 1)%Z).
Proof.
  split; [reflexivity |].
  exact (data_path_defined_iff example_self (-1) 1 eq_refl).
Defined.

Lemma process_data_primary_fields_witness :
  exists out d, process_data example_self example_raw 0 example_cloud = (out, Ok d) /\
    obj_trajectory d = take 2 (map (mat4_mul I4) (raw_obj_trajectory example_raw)).
Proof.
  eexists _, _. split; [reflexivity |].
  destruct (process_data_primary_fields example_self example_raw 0 example_cloud _ _ 3
              eq_refl example_raw_primary_length) as (Hobj & _); [simpl; lia |].
  exact Hobj.
Defined.


Lemma process_data_keeps_joint_names_witness :
  exists out d, process_data example_self example_raw 0 example_cloud = (out, Ok d) /\
    dom (mano_joints_velocity d) = dom (raw_mano_joints example_raw).
Proof.
  eexists _, _. split; [reflexivity |].
  destruct (process_data_keeps_joint_names example_self example_raw 0 example_cloud _ _
              eq_refl) as [_ Hdom].
  exact Hdom.
Defined.

Lemma tips_distance_shape_witness :
  exists out d, process_data example_self example_raw 0 example_cloud = (out, Ok d) /\
    length (tips_distance d) = length (obj_trajectory d) /\
    Forall (fun row => length row = 5%nat) (tips_distance d).
Proof.
  eexists _, _. split; [reflexivity |].
  exact (tips_distance_shape example_self example_raw 0 example_cloud _ _ eq_refl).
Defined.

Lemma process_data_unequal_tips_witness :
  process_data example_self example_raw_uneven 0 example_cloud = ([], Raise RuntimeError).
Proof.
  eapply (process_data_unequal_tips example_self example_raw_uneven 0 example_cloud
            0 1 "thumb_tip" "index_tip").
  - repeat constructor; eexists; reflexivity.
  - reflexivity.
  - reflexivity.
  - reflexivity.
  - reflexivity.
  - simpl. lia.
Defined.

Lemma load_retargeted_data_without_hand_witness :
  load_retargeted_data handless_self ∅ example_sample missing_path
  = ([WarnDoesNotExist missing_path; WarnSlowTransfer; WarnRunRetargeting],
     Raise AttributeError).
Proof.
  apply (load_retargeted_data_without_hand handless_self ∅ example_sample missing_path);
    reflexivity.
Defined.

Lemma load_retargeted_data_present_witness :
  (exists r, load_retargeted_data example_self example_fs example_sample stored_path
             = ([], Ok r) /\
             opt_wrist_pos r = take 2 (art_opt_wrist_pos example_artifact)) /\
  load_retargeted_data huge_skip_self example_fs example_sample stored_path
  = ([], Raise ZeroDivisionError).
Proof.
  split.
  - destruct (load_retargeted_data_present example_self example_fs example_sample
                stored_path example_artifact 2) as [_ Hstep];
      [reflexivity | reflexivity | reflexivity | lia | simpl; lia |].
    destruct Hstep as [Hok _];
      [discriminate | apply Z.ltb_lt; vm_compute; reflexivity |].
    destruct Hok as (r & Hload & _ & Hpos & _); [reflexivity |].
    exists r. split; [exact Hload | exact Hpos].
  - destruct (load_retargeted_data_present huge_skip_self example_fs example_sample
                stored_path example_artifact 2) as [Hzero _];
      [reflexivity | reflexivity | reflexivity | lia | simpl; lia |].
    apply Hzero. right. apply Z.leb_le. vm_compute. reflexivity.
Defined.

Lemma load_retargeted_data_opt_lengths_witness :
  exists out r,
    load_retargeted_data example_self example_fs example_sample stored_path = (out, Ok r) /\
    length (opt_wrist_velocity r) = 2%nat /\ length (opt_dof_velocity r) = 2%nat.
Proof.
  eexists _, _. split; [reflexivity |].
  destruct (load_retargeted_data_opt_lengths example_self example_fs example_sample
              stored_path _ _ example_artifact 2 eq_refl)
    as (_ & _ & _ & Hvel & _ & Hdof & _);
    [reflexivity | reflexivity | reflexivity | reflexivity | simpl; lia |].
  split; [exact Hvel | exact Hdof].
Defined.

Lemma process_data_then_fallback_witness :
  exists out d r,
    process_data example_self example_raw 0 example_cloud = (out, Ok d) /\
    load_retargeted_data example_self ∅ d missing_path
    = ([WarnDoesNotExist missing_path; WarnSlowTransfer; WarnRunRetargeting], Ok r) /\
    opt_wrist_pos r = wrist_pos d /\ opt_dof_velocity r = torch_zeros 2 4.
Proof.
  eexists _, _.
  destruct (process_data_then_fallback example_self example_raw 0 example_cloud _ _ 3 4
              ∅ missing_path eq_refl example_raw_primary_length)
    as (r & Hload & _ & Hpos & _ & _ & Hdv);
    [simpl; lia | reflexivity | reflexivity |].
  exists r. split; [reflexivity |]. split; [exact Hload |]. split; [exact Hpos | exact Hdv].
Defined.

Lemma fallback_velocities_agree_witness :
  exists out d out' r,
    process_data roomy_self example_raw 0 example_cloud = (out, Ok d) /\
    load_retargeted_data roomy_self ∅ d missing_path = (out', Ok r) /\
    opt_wrist_velocity r = wrist_velocity d /\
    opt_wrist_angular_velocity r = wrist_angular_velocity d.
Proof.
  eexists _, _, _, _. split; [reflexivity |]. split; [reflexivity |].
  eapply (fallback_velocities_agree roomy_self example_raw 0 example_cloud _ _ _ _ 3 4
            ∅ missing_path).
  - reflexivity.
  - exact example_raw_primary_length.
  - simpl. lia.
  - simpl. lia.
  - reflexivity.
  - reflexivity.
  - reflexivity.
Defined.

Lemma corner_sampler_keeps_devices (m : Triangle) (n : nat) (g : Generators CounterRng) :
  length (torch_cuda (snd (corner_sampler m n g))) = length (torch_cuda g).
Proof. unfold corner_sampler. simpl. now destruct (torch_cuda g). Qed.

Lemma random_sampling_pc_needs_cuda_witness :
  exists e, sampling_example cpu_only_process = (Raise e, cpu_only_process).
Proof.
  destruct (random_sampling_pc_needs_cuda CounterRng counter_seeded counter_seeded
              counter_seeded Triangle corner_sampler unit_triangle cpu_only_process)
    as [_ Hraise].
  apply Hraise. simpl. lia.
Defined.

Lemma random_sampling_pc_restores_saved_witness :
  torch_cuda_get_rng_state (snd (sampling_example two_gpu_process))
  = torch_cuda_get_rng_state two_gpu_process /\
  np_random (generators (snd (sampling_example two_gpu_process)))
  = np_random (generators two_gpu_process).
Proof.
  destruct (random_sampling_pc_restores_saved CounterRng counter_seeded counter_seeded
              counter_seeded Triangle corner_sampler unit_triangle two_gpu_process
              corner_sampler_keeps_devices) as (Hnp & _ & Hcuda & _);
    [eexists; reflexivity |].
  split; [exact Hcuda | exact Hnp].
Defined.

Lemma random_sampling_pc_twice_witness :
  sampling_example (snd (sampling_example two_gpu_process))
  = sampling_example two_gpu_process.
Proof.
  apply (random_sampling_pc_twice CounterRng counter_seeded counter_seeded
           counter_seeded Triangle corner_sampler unit_triangle two_gpu_process).
  - exact corner_sampler_keeps_devices.
  - eexists; reflexivity.
Defined.

(** ** tips_distance does not depend on the frame of the remapping *)







(** ** process_data: velocities are cut, not recomputed *)

(** X24. [process_data] differentiates before it truncates: the velocity
    fields it returns are the first [n = min(T, max_seq_len)] frames of the
    velocities of the whole remapped sequence, not the velocities of the
    truncated one. This holds for [obj_velocity], [wrist_velocity],
    [obj_angular_velocity] and every [mano_joints_velocity[k]]. *)
Theorem process_data_velocities_cut (self : ManipData) (data : RawSample) (idx : Z)
    (cloud : list Vec3) (out : list message) (d : Sample) (T : nat) :
  process_data self data idx cloud = (out, Ok d) ->
  primary_length data T ->
  (0 <= max_seq_len self)%Z ->
  let F := mujoco2gym_transf self in
  let rigid := fun v => vadd (mat3_vec (rot_block F) v) (transl_col F) in
  let n := Nat.min T (Z.to_nat (max_seq_len self)) in
  let dt := 1 / (120 / IZR (skip self)) in
  exists ov wv,
    compute_velocity (map transl_col (map (mat4_mul F) (raw_obj_trajectory data))) dt true
    = Ok ov /\
    obj_velocity d = take n ov /\
    compute_velocity (map rigid (raw_wrist_pos data)) dt true = Ok wv /\
    wrist_velocity d = take n wv /\
    obj_angular_velocity d
    = take n (squeeze1 (compute_angular_velocity
                (unsqueeze1 (map rot_block (map (mat4_mul F) (raw_obj_trajectory data))))
                dt true)) /\
    (forall k p, raw_mano_joints data !! k = Some p ->
       exists v, compute_velocity (map rigid p) dt true = Ok v /\
                 mano_joints_velocity d !! k = Some (take n v)).
Proof.
  intros Hrun Hprimary HL F rigid n dt.
  pose proof (process_data_time_delta _ _ _ _ _ _ Hrun) as Hstep.
  apply process_data_inv in Hrun as (pre & Hpre & Hd).
  pose proof (derive_fields_lengths self data cloud pre T Hpre Hprimary)
    as [_ (Hlen & _ & _ & _ & _ & Hovl & Hoal & Hwvl & _ & Hjvl)].
  pose proof (derive_fields_inv self data cloud pre Hpre) as Hinv.
  unfold remap_frames in Hinv. fold F in Hinv.
  destruct Hinv as (dt' & ov & wv & Hdt & _ & Hov & Hwv & Hjv & _ & _ & _ & _
                    & Eov & Eoa & Ewv & _).
  rewrite Hstep in Hdt. injection Hdt as <-. fold dt in Hov, Hwv, Hjv, Eoa.
  rewrite compute_velocity_unsqueeze in Hov, Hwv.
  destruct (compute_velocity (map transl_col _) dt true) as [ov'|] eqn:Hov'; [| discriminate].
  destruct (compute_velocity (rigid_rows _ _ _) dt true) as [wv'|] eqn:Hwv'; [| discriminate].
  injection Hov as <-. injection Hwv as <-.
  rewrite squeeze1_unsqueeze1 in Eov, Ewv.
  rewrite rigid_rows_map in Hwv'. fold rigid in Hwv'.
  assert (forall k p, raw_mano_joints data !! k = Some p ->
            exists v, compute_velocity (map rigid p) dt true = Ok v /\
                      mano_joints_velocity pre !! k = Some v) as Hjoint.
  { intros k p Hk. pose proof (joints_velocity_inv _ _ _ Hjv k) as Hrel.
    rewrite lookup_fmap, Hk in Hrel. simpl in Hrel.
    inversion Hrel as [p' v Hvel Hp' Hv |]. subst p'.
    exists v. rewrite rigid_rows_map in Hvel. split; [exact Hvel | reflexivity]. }
  rewrite Hlen in Hd. exists ov', wv'.
  destruct Hd as [[Hfit ->] | [Hlong ->]].
  - assert (n = T) as -> by (unfold n; lia).
    split; [reflexivity |]. split; [rewrite take_ge; [exact Eov | rewrite <- Eov; lia] |].
    split; [exact Hwv' |]. split; [rewrite take_ge; [exact Ewv | rewrite <- Ewv; lia] |].
    split; [rewrite take_ge; [exact Eoa | rewrite <- Eoa; lia] |].
    intros k p Hk. destruct (Hjoint k p Hk) as (v & Hvel & Hv).
    exists v. split; [exact Hvel |]. rewrite take_ge; [exact Hv |].
    rewrite (Hjvl k v Hv). lia.
  - assert (n = Z.to_nat (max_seq_len self)) as -> by (unfold n; lia).
    simpl. rewrite !py_slice_to_take by exact HL. rewrite Eov, Ewv, Eoa.
    split; [reflexivity |]. split; [reflexivity |].
    split; [exact Hwv' |]. split; [reflexivity |]. split; [reflexivity |].
    intros k p Hk. destruct (Hjoint k p Hk) as (v & Hvel & Hv).
    exists v. split; [exact Hvel |].
    rewrite lookup_fmap, Hv. simpl. now rewrite py_slice_to_take.
Qed.

Lemma process_data_velocities_cut_witness :
  exists out d ov,
    process_data example_self example_raw 0 example_cloud = (out, Ok d) /\
    compute_velocity
      (map transl_col (map (mat4_mul I4) (raw_obj_trajectory example_raw)))
      (1 / (120 / 2)) true = Ok ov /\
    obj_velocity d = take 2 ov.
Proof.
  eexists _, _.
  destruct (process_data_velocities_cut example_self example_raw 0 example_cloud _ _ 3
              eq_refl example_raw_primary_length)
    as (ov & wv & Hov & Hcut & _); [simpl; lia |].
  exists ov. split; [reflexivity |]. split; [exact Hov | exact Hcut].
Defined.
